(** * parsers/AU_capacity.py: Australian capacity aggregation

    A shallow embedding of the script that totals the registered capacity
    of the OpenNEM facility registry per market zone and fuel type.

    Python values produced by [json.loads] are modelled by the inductive
    type [json]; a Python [dict] is an association list in insertion order
    (the order is observable: it fixes which exception is raised first and
    the order of the decimal additions).  Exceptions are values of [pyerr]
    threaded through the error monad [res].

    [DEBUG] is [False]: [debug] prints nothing, but its arguments are
    evaluated and can raise, so they are kept.  [update_bounds] is never
    called (the call is commented out); it is modelled on its own, with
    the attribute [bounding_box] it grows.  [decimal] and [float] follow
    CPython: [Decimal] arithmetic is integer arithmetic on coefficient and
    exponent, a binary64 value is a sign, a mantissa and a binary
    exponent.

    What the script takes from outside is an input of the run: the cache
    file, the clock, the local time zone, the network and the outcome of
    writing the cache are the record [World]; [json.loads] and the
    [json.dumps] of the [debug] call are parameters.  Each of them gives a
    value or the exception it raises. *)

From Stdlib Require Import ZArith List String Ascii Bool Lia.
From Stdlib Require Import Permutation.
Import ListNotations.
Open Scope string_scope.
Open Scope Z_scope.
Set Warnings "-register-all".

(** ** Python floats (binary64) and JSON values *)

(** A finite float is [(-1)^neg * m * 2^e] with [0 <= m]. *)
Inductive pyfloat : Type :=
| FFinite (neg : bool) (m : Z) (e : Z)
| FInf (neg : bool)
| FNan.

Inductive json : Type :=
| JNull
| JBool (b : bool)
| JInt (z : Z)
| JFloat (f : pyfloat)
| JStr (s : string)
| JArr (l : list json)
| JObj (items : list (string * json)).

(** ** Exceptions and the error monad *)

Inductive pyerr : Type :=
| KeyError (key : json)
| TypeError
| AttributeError
| ValueError
| InvalidOperation
| Overflow
| JSONDecodeError
| RequestException
| OverflowError
| RecursionError
| OSError.

Inductive res (A : Type) : Type :=
| Ok (a : A)
| Raise (e : pyerr).
Arguments Ok {A} a.
Arguments Raise {A} e.

Definition bind {A B : Type} (m : res A) (k : A -> res B) : res B :=
  match m with
  | Ok a => k a
  | Raise e => Raise e
  end.

Notation "'let*' x ':=' m 'in' k" := (bind m (fun x => k))
  (at level 10, x name, m at level 100, k at level 200).

(** ** Dictionaries as association lists *)

Section Dict.
Context {V : Type}.

Fixpoint dict_get (d : list (string * V)) (k : string) : option V :=
  match d with
  | [] => None
  | (k', v) :: rest => if String.eqb k' k then Some v else dict_get rest k
  end.

(** [d[k] = v]: an existing key keeps its position, a new key goes last. *)
Fixpoint dict_set (d : list (string * V)) (k : string) (v : V)
  : list (string * V) :=
  match d with
  | [] => [(k, v)]
  | (k', v') :: rest =>
      if String.eqb k' k then (k', v) :: rest
      else (k', v') :: dict_set rest k v
  end.

Definition dict_keys (d : list (string * V)) : list string := map fst d.

(** [d[k]] as an expression. *)
Definition dict_index (d : list (string * V)) (k : string) : res V :=
  match dict_get d k with
  | Some v => Ok v
  | None => Raise (KeyError (JStr k))
  end.
End Dict.

(** [x[k]] for a value produced by [json.loads] and a string key [k]. *)
Definition subscript (x : json) (k : string) : res json :=
  match x with
  | JObj items => dict_index items k
  | _ => Raise TypeError
  end.

(** [x.items()] *)
Definition items (x : json) : res (list (string * json)) :=
  match x with
  | JObj its => Ok its
  | _ => Raise AttributeError
  end.

(** ** [decimal.Decimal] under the default context

    The script never touches the decimal context, so every addition runs
    with [prec = 28], [ROUND_HALF_EVEN], [Emax = 999999], [Emin = -999999]
    and the traps [InvalidOperation], [DivisionByZero] and [Overflow]. *)

(** A finite decimal is [(-1)^neg * coeff * 10^exp] with [0 <= coeff]. *)
Inductive Decimal : Type :=
| DFinite (neg : bool) (coeff : Z) (exp : Z)
| DInf (neg : bool)
| DNaN
| DSNaN.

Definition prec : Z := 28.
Definition Emax : Z := 999999.
Definition Emin : Z := -999999.
Definition Etiny : Z := Emin - prec + 1.
Definition Etop : Z := Emax - prec + 1.

Fixpoint ndigits_fuel (fuel : nat) (c : Z) : Z :=
  match fuel with
  | O => 1
  | S fuel' => if c <? 10 then 1 else 1 + ndigits_fuel fuel' (c / 10)
  end.

(** [len(str(c))] for [0 <= c]. *)
Definition ndigits (c : Z) : Z := ndigits_fuel (S (Z.to_nat (Z.log2 c))) c.

(** [Decimal()], the default factory of the capacity table. *)
Definition Decimal_zero : Decimal := DFinite false 0 0.

(** Drop the last [k] digits of [c], rounding half to even. *)
Definition round_half_even (c k : Z) : Z :=
  let p := 10 ^ k in
  let q := c / p in
  let r := c mod p in
  if (2 * r >? p) || ((2 * r =? p) && Z.odd q) then q + 1 else q.

(** [Decimal._fix]: round a finite result to the context.  A coefficient
    that lies wholly below the last digit kept rounds to zero. *)
Definition fix_finite (neg : bool) (c e : Z) : res Decimal :=
  if c =? 0 then Ok (DFinite neg 0 (Z.min (Z.max e Etiny) Emax))
  else
    let exp_min := ndigits c + e - prec in
    if exp_min >? Etop then Raise Overflow
    else
      let exp_min := Z.max exp_min Etiny in
      if e <? exp_min then
        let coeff := round_half_even c (exp_min - e) in
        let '(coeff, exp_min) :=
          if ndigits coeff >? prec then (coeff / 10, exp_min + 1)
          else (coeff, exp_min) in
        if exp_min >? Etop then Raise Overflow
        else Ok (DFinite neg coeff exp_min)
      else Ok (DFinite neg c e).

Definition signed (neg : bool) (c : Z) : Z := if neg then - c else c.

(** [a + b] ([Decimal.__add__]): the exact sum at the smaller exponent,
    then [_fix]. *)
Definition Decimal_add (a b : Decimal) : res Decimal :=
  match a, b with
  | DSNaN, _ | _, DSNaN => Raise InvalidOperation
  | DNaN, _ | _, DNaN => Ok DNaN
  | DInf sa, DInf sb => if Bool.eqb sa sb then Ok a else Raise InvalidOperation
  | DInf _, _ => Ok a
  | _, DInf _ => Ok b
  | DFinite sa ca ea, DFinite sb cb eb =>
      let e := Z.min ea eb in
      if (ca =? 0) && (cb =? 0) then fix_finite (sa && sb) 0 e
      else
        let s := signed sa (ca * 10 ^ (ea - e)) + signed sb (cb * 10 ^ (eb - e)) in
        if s =? 0 then fix_finite false 0 e
        else fix_finite (s <? 0) (Z.abs s) e
  end.

(** [Decimal.from_float]: the exact value of a float. *)
Definition Decimal_from_float (f : pyfloat) : Decimal :=
  match f with
  | FNan => DNaN
  | FInf neg => DInf neg
  | FFinite neg m e =>
      if (m =? 0) || (0 <=? e) then DFinite neg (m * 2 ^ e) 0
      else
        let d := 2 ^ (- e) in
        let g := Z.gcd m d in
        let k := Z.log2 (d / g) in
        DFinite neg (m / g * 5 ^ k) (- k)
  end.

(** *** [Decimal(str)]

    Characters are code points below 256.  The constructor strips
    surrounding white space, ignores underscores, and reads a sign followed
    by a number, [Inf], [Infinity], [NaN] or [sNaN] in any letter case; a
    malformed string signals [ConversionSyntax], an [InvalidOperation]. *)

Definition is_space (c : ascii) : bool :=
  let n := Z.of_nat (nat_of_ascii c) in
  ((9 <=? n) && (n <=? 13)) || ((28 <=? n) && (n <=? 32))
  || (n =? 133) || (n =? 160).

Fixpoint lstrip (l : list ascii) : list ascii :=
  match l with
  | c :: rest => if is_space c then lstrip rest else l
  | [] => []
  end.

Definition strip (l : list ascii) : list ascii :=
  rev (lstrip (rev (lstrip l))).

Definition is_plain_ascii (c : ascii) : bool :=
  let n := Z.of_nat (nat_of_ascii c) in (0 <? n) && (n <=? 127).

Definition lower (c : ascii) : ascii :=
  let n := nat_of_ascii c in
  if (65 <=? Z.of_nat n) && (Z.of_nat n <=? 90)
  then ascii_of_nat (n + 32) else c.

Definition digit_value (c : ascii) : option Z :=
  let n := Z.of_nat (nat_of_ascii c) in
  if (48 <=? n) && (n <=? 57) then Some (n - 48) else None.

(** Reads the longest prefix of digits: its value, its length, the rest. *)
Fixpoint read_digits (l : list ascii) (acc len : Z) : Z * Z * list ascii :=
  match l with
  | c :: rest =>
      match digit_value c with
      | Some d => read_digits rest (10 * acc + d) (len + 1)
      | None => (acc, len, l)
      end
  | [] => (acc, len, [])
  end.

Definition read_sign (l : list ascii) : bool * list ascii :=
  match l with
  | "-"%char :: rest => (true, rest)
  | "+"%char :: rest => (false, rest)
  | _ => (false, l)
  end.

Definition MAX_EMAX : Z := 999999999999999999.
Definition MAX_ETINY : Z := - MAX_EMAX - (MAX_EMAX - 1).

(** The exact constructor refuses what the widest context cannot hold. *)
Definition check_exact (neg : bool) (c e : Z) : res Decimal :=
  if (e <? MAX_ETINY)
     || (if c =? 0 then e >? MAX_EMAX else e + ndigits c - 1 >? MAX_EMAX)
  then Raise InvalidOperation
  else Ok (DFinite neg c e).

Definition read_number (neg : bool) (l : list ascii) : res Decimal :=
  let '(ip, ilen, l1) := read_digits l 0 0 in
  let '(c, flen, l2) :=
    match l1 with
    | "."%char :: l1' => read_digits l1' ip 0
    | _ => (ip, 0, l1)
    end in
  if ilen + flen =? 0 then Raise InvalidOperation
  else
    match l2 with
    | [] => check_exact neg c (- flen)
    | "e"%char :: l3 =>
        let '(eneg, l4) := read_sign l3 in
        match read_digits l4 0 0 with
        | (ev, elen, []) =>
            if elen =? 0 then Raise InvalidOperation
            else check_exact neg c (signed eneg ev - flen)
        | _ => Raise InvalidOperation
        end
    | _ => Raise InvalidOperation
    end.

Definition all_digits (l : list ascii) : bool :=
  forallb (fun c => match digit_value c with Some _ => true | None => false end) l.

Definition Decimal_from_str (s : string) : res Decimal :=
  let body :=
    filter (fun c => negb (Ascii.eqb c "_"%char))
           (strip (list_ascii_of_string s)) in
  if negb (forallb is_plain_ascii body) then Raise InvalidOperation
  else
    let '(neg, l) := read_sign (map lower body) in
    match l with
    | ["i"; "n"; "f"]%char
    | ["i"; "n"; "f"; "i"; "n"; "i"; "t"; "y"]%char => Ok (DInf neg)
    | "n"%char :: "a"%char :: "n"%char :: payload =>
        if all_digits payload then Ok DNaN else Raise InvalidOperation
    | "s"%char :: "n"%char :: "a"%char :: "n"%char :: payload =>
        if all_digits payload then Ok DSNaN else Raise InvalidOperation
    | _ => read_number neg l
    end.

(** An [int] as the C constructor sees it: [bool] is a subclass. *)
Definition as_int (v : json) : option Z :=
  match v with
  | JInt z => Some z
  | JBool b => Some (if b then 1 else 0)
  | _ => None
  end.

(** The range of a C [long] and of [Py_ssize_t], both 64 bits wide. *)
Definition fits_long (z : Z) : bool := (- 2 ^ 63 <=? z) && (z <? 2 ^ 63).

(** The coefficient of [Decimal((sign, digits, exponent))]: the digits are
    checked from left to right. *)
Fixpoint read_coefficient (digits : list json) (acc : Z) : res Z :=
  match digits with
  | [] => Ok acc
  | v :: rest =>
      match as_int v with
      | None => Raise ValueError
      | Some l =>
          if negb (fits_long l) then Raise OverflowError
          else if (l <? 0) || (9 <? l) then Raise ValueError
          else read_coefficient rest (10 * acc + l)
      end
  end.

(** [decimal.Decimal([sign, digits, exponent])]: a list is accepted like
    the tuple of [as_tuple()].  The sign is checked first, then the
    exponent (an integer, or ['F'], ['n'], ['N'] for infinity, NaN and
    signalling NaN), then the digits; the digits of an infinity are
    checked and dropped, those of a NaN are its payload. *)
Definition Decimal_from_sequence (l : list json) : res Decimal :=
  match l with
  | [sign; digits; exponent] =>
      match as_int sign with
      | None => Raise ValueError
      | Some s =>
          if negb (fits_long s) then Raise OverflowError
          else if negb ((s =? 0) || (s =? 1)) then Raise ValueError
          else
            let neg := s =? 1 in
            let* build :=
              match exponent with
              | JStr x =>
                  if String.eqb x "F" then Ok (fun _ : Z => Ok (DInf neg))
                  else if String.eqb x "n" then Ok (fun _ : Z => Ok DNaN)
                  else if String.eqb x "N" then Ok (fun _ : Z => Ok DSNaN)
                  else Raise ValueError
              | _ =>
                  match as_int exponent with
                  | None => Raise ValueError
                  | Some e =>
                      if fits_long e then Ok (fun c : Z => check_exact neg c e)
                      else Raise OverflowError
                  end
              end in
            match digits with
            | JArr ds =>
                let* c := read_coefficient ds 0 in
                build c
            | _ => Raise ValueError
            end
      end
  | _ => Raise ValueError
  end.

(** [decimal.Decimal(value)] for a value produced by [json.loads]. *)
Definition Decimal_of (v : json) : res Decimal :=
  match v with
  | JInt z => Ok (DFinite (z <? 0) (Z.abs z) 0)
  | JBool b => Ok (DFinite false (if b then 1 else 0) 0)
  | JFloat f => Ok (Decimal_from_float f)
  | JStr s => Decimal_from_str s
  | JArr l => Decimal_from_sequence l
  | JNull | JObj _ => Raise TypeError
  end.

(** ** Conversions to binary64 *)

(** Nearest integer to [n / d], ties to even ([0 <= n], [0 < d]). *)
Definition div_half_even (n d : Z) : Z :=
  let q := n / d in
  let r := n mod d in
  if (2 * r >? d) || ((2 * r =? d) && Z.odd q) then q + 1 else q.

(** The float nearest to [(-1)^neg * n / d], ties to even; a magnitude
    that rounds past the largest float gives an infinity. *)
Definition round_to_double (neg : bool) (n d : Z) : pyfloat :=
  if n =? 0 then FFinite neg 0 0
  else
    let l := Z.log2 n - Z.log2 d in
    let below :=
      if 0 <=? l then n <? d * 2 ^ l else n * 2 ^ (- l) <? d in
    let fl := if below then l - 1 else l in
    let e := Z.max (fl - 52) (-1074) in
    let m :=
      if 0 <=? e then div_half_even n (d * 2 ^ e)
      else div_half_even (n * 2 ^ (- e)) d in
    let '(m, e) := if m =? 2 ^ 53 then (2 ^ 52, e + 1) else (m, e) in
    if m =? 0 then FFinite neg 0 0
    else if e >? 971 then FInf neg else FFinite neg m e.

(** [float(d)] *)
Definition float_of_Decimal (d : Decimal) : res pyfloat :=
  match d with
  | DFinite neg c e =>
      Ok (if 0 <=? e then round_to_double neg (c * 10 ^ e) 1
          else round_to_double neg c (10 ^ (- e)))
  | DInf neg => Ok (FInf neg)
  | DNaN => Ok FNan
  | DSNaN => Raise ValueError
  end.

(** [round(x, 2)]: the exact value of [x] rounded half to even at two
    places, then the nearest float. *)
Definition round2 (x : pyfloat) : pyfloat :=
  match x with
  | FFinite neg m e =>
      let hundredths :=
        if 0 <=? e then 100 * m * 2 ^ e
        else div_half_even (100 * m) (2 ^ (- e)) in
      round_to_double neg hundredths 100
  | _ => x
  end.

(** A float literal of the program text, [c * 10^-4]. *)
Definition lit4 (neg : bool) (c : Z) : json :=
  JFloat (round_to_double neg c 10000).

(** ** Module constants *)

Definition PRICE_MAPPING_DICTIONARY : list (string * string) :=
  [("AUS-NSW", "NSW1"); ("AUS-QLD", "QLD1"); ("AUS-SA", "SA1");
   ("AUS-TAS", "TAS1"); ("AUS-VIC", "VIC1"); ("AUS-WA", "WA1")].

(** [{v: k for k, v in PRICE_MAPPING_DICTIONARY.items()}] *)
Definition zone_map : list (string * string) :=
  fold_left (fun acc kv => dict_set acc (snd kv) (fst kv))
            PRICE_MAPPING_DICTIONARY [].

Definition box (w s e n : json) : json := JArr [JArr [w; s]; JArr [e; n]].

Definition STATE_BOUNDING_BOXES : list (string * json) :=
  [("NSW1", box (lit4 false 1482695) (lit4 true 364196)
                (lit4 false 1499044) (lit4 true 346395));
   ("NT1", box (lit4 false 1285001) (lit4 true 264999)
               (lit4 false 1385002) (lit4 true 104684));
   ("QLD1", box (lit4 false 1375002) (lit4 true 296706)
                (lit4 false 1540488) (lit4 true 87402));
   ("SA1", box (lit4 false 1285001) (lit4 true 385706)
               (lit4 false 1415001) (lit4 true 254999));
   ("TAS1", box (lit4 false 1433372) (lit4 true 441413)
                (lit4 false 1489845) (lit4 true 390715));
   ("VIC1", box (lit4 false 1404671) (lit4 true 396450)
                (lit4 false 1504721) (lit4 true 334865));
   ("WA1", box (lit4 false 1124194) (lit4 true 356379)
               (lit4 false 1295001) (lit4 true 132236))].

Definition ZONE_BOILERPLATE : list (string * json) :=
  [("contributors",
    JArr [JStr "https://github.com/brandongalbraith";
          JStr "https://github.com/jarek";
          JStr "https://github.com/corradio";
          JStr "https://github.com/AnthonyBriggs"]);
   ("flag_file_name", JStr "au.png");
   ("parsers",
    JObj [("price", JStr "AU.fetch_price");
          ("production", JStr "AU.fetch_production")]);
   ("timezone", JNull)].

(** ** class OpenNEMZone *)

Record OpenNEMZone : Type := mkZone {
  zone : string;
  bounding_box : json;
  capacity : list (string * Decimal)
}.

(** [OpenNEMZone(zone)] *)
Definition OpenNEMZone_init (z : string) : OpenNEMZone :=
  mkZone z (box JNull JNull JNull JNull) [].

(** [s.startswith(p)] *)
Definition startswith (s p : string) : bool := String.prefix p s.

(** The renaming steps of [update_capacity], in program order. *)
Definition rename_gen_type (gen_type : string) : string :=
  let gen_type := if startswith gen_type "gas_" then "gas" else gen_type in
  let gen_type :=
    if String.eqb gen_type "battery_discharging" then "battery storage"
    else gen_type in
  let gen_type :=
    if startswith gen_type "bioenergy_" then "biomass" else gen_type in
  let gen_type :=
    if String.eqb gen_type "distillate" then "oil" else gen_type in
  gen_type.

(** [gen_info.get('fuel_tech', None)] *)
Definition get_fuel_tech (gen_info : json) : res json :=
  match gen_info with
  | JObj its =>
      Ok (match dict_get its "fuel_tech" with Some v => v | None => JNull end)
  | _ => Raise AttributeError
  end.

(** [capacity[k]] on the [defaultdict(decimal.Decimal)]. *)
Definition capacity_get (cap : list (string * Decimal)) (k : string) : Decimal :=
  match dict_get cap k with
  | Some v => v
  | None => Decimal_zero
  end.

(** One iteration of the loop of [update_capacity]. *)
Definition update_capacity_step (cap : list (string * Decimal))
    (gen : string * json) : res (list (string * Decimal)) :=
  let gen_info := snd gen in
  let* gen_type := get_fuel_tech gen_info in
  match gen_type with
  | JNull => Ok cap
  | JStr s =>
      if String.eqb s "battery_charging" || String.eqb s "pumps" then Ok cap
      else
        let k := rename_gen_type s in
        let cur := capacity_get cap k in
        let* rc := subscript gen_info "registered_capacity" in
        let* d := Decimal_of rc in
        let* total := Decimal_add cur d in
        Ok (dict_set cap k total)
  | _ => Raise AttributeError
  end.

Fixpoint update_capacity_loop (cap : list (string * Decimal))
    (gens : list (string * json)) : res (list (string * Decimal)) :=
  match gens with
  | [] => Ok cap
  | gen :: rest =>
      let* cap' := update_capacity_step cap gen in
      update_capacity_loop cap' rest
  end.

Definition update_capacity (self : OpenNEMZone) (duid_data : json)
  : res OpenNEMZone :=
  let* gens := items duid_data in
  let* cap := update_capacity_loop (capacity self) gens in
  Ok (mkZone (zone self) (bounding_box self) cap).

Definition update_from_facility_data (self : OpenNEMZone) (data : json)
  : res OpenNEMZone :=
  let* _ := subscript data "station_id" in
  let* duid_data := subscript data "duid_data" in
  update_capacity self duid_data.

(** [{k: round(float(v), 2) for k, v in self.capacity.items()}] *)
Fixpoint rounded_capacity (out : list (string * json))
    (cap : list (string * Decimal)) : res (list (string * json)) :=
  match cap with
  | [] => Ok out
  | (k, v) :: rest =>
      let* f := float_of_Decimal v in
      rounded_capacity (dict_set out k (JFloat (round2 f))) rest
  end.

(** [output.update(other)] *)
Definition dict_update {V : Type} (d other : list (string * V))
  : list (string * V) :=
  fold_left (fun acc kv => dict_set acc (fst kv) (snd kv)) other d.

Definition output (self : OpenNEMZone) : res (list (string * json)) :=
  let out := [] in
  let* bb := dict_index STATE_BOUNDING_BOXES (zone self) in
  let out := dict_set out "bounding_box" bb in
  let* cap := rounded_capacity [] (capacity self) in
  let out := dict_set out "capacity" (JObj cap) in
  Ok (dict_update out ZONE_BOILERPLATE).

(** ** The aggregation loop of the script *)

(** [{zone: OpenNEMZone(zone) for zone in zone_map.keys()}] *)
Definition zones_init : list (string * OpenNEMZone) :=
  fold_left (fun acc z => dict_set acc z (OpenNEMZone_init z))
            (dict_keys zone_map) [].

(** [zones[key]] for a key taken from the registry. *)
Definition zones_index (zones : list (string * OpenNEMZone)) (key : json)
  : res OpenNEMZone :=
  match key with
  | JStr s => dict_index zones s
  | JArr _ | JObj _ => Raise TypeError
  | _ => Raise (KeyError key)
  end.

(** [state == 'Commissioned'] *)
Definition is_commissioned (state : json) : bool :=
  match state with
  | JStr s => String.eqb s "Commissioned"
  | _ => false
  end.

(** The body of the loop over [facilities.items()].  The arguments of the
    [debug] calls are evaluated although nothing is printed. *)
Definition facility_step (zones : list (string * OpenNEMZone))
    (entry : string * json) : res (list (string * OpenNEMZone)) :=
  let facility := snd entry in
  let* _ := subscript facility "duid_data" in
  let* status := subscript facility "status" in
  let* state := subscript status "state" in
  if is_commissioned state then
    let* region := subscript facility "region_id" in
    let* z := zones_index zones region in
    let* z' := update_from_facility_data z facility in
    Ok (dict_set zones (zone z) z')
  else
    let* _ := subscript facility "region_id" in
    let* status := subscript facility "status" in
    let* _ := subscript status "state" in
    Ok zones.

Fixpoint facilities_loop (zones : list (string * OpenNEMZone))
    (entries : list (string * json)) : res (list (string * OpenNEMZone)) :=
  match entries with
  | [] => Ok zones
  | entry :: rest =>
      let* zones' := facility_step zones entry in
      facilities_loop zones' rest
  end.

(** [{zone_map[z.zone]: z.output() for z in zones.values()}] *)
Fixpoint json_zones_loop (out : list (string * json))
    (zs : list (string * OpenNEMZone)) : res (list (string * json)) :=
  match zs with
  | [] => Ok out
  | (_, z) :: rest =>
      let* name := dict_index zone_map (zone z) in
      let* o := output z in
      json_zones_loop (dict_set out name (JObj o)) rest
  end.

(** From the parsed registry to the dictionary handed to [json.dumps]. *)
Definition aggregate (facilities : json) : res (list (string * json)) :=
  let* entries := items facilities in
  let* zones := facilities_loop zones_init entries in
  json_zones_loop [] zones.

(** ** [json.dumps(..., sort_keys=True)]

    Only the order in which the members are written is modelled: every
    object is emitted with its items sorted by key. *)

Fixpoint insert_item (kv : string * json) (l : list (string * json))
  : list (string * json) :=
  match l with
  | [] => [kv]
  | kv' :: rest =>
      if String.leb (fst kv) (fst kv') then kv :: l
      else kv' :: insert_item kv rest
  end.

Definition sorted_items (l : list (string * json)) : list (string * json) :=
  fold_right insert_item [] l.

Fixpoint sort_keys (j : json) : json :=
  match j with
  | JArr l => JArr (map sort_keys l)
  | JObj its =>
      JObj (sorted_items (map (fun kv => (fst kv, sort_keys (snd kv))) its))
  | _ => j
  end.

(** ** The script: cache, fetch, aggregate, print *)

Definition REGISTRY_URL : string :=
  "https://data.opennem.org.au/facility/facility_registry.json".

Definition CACHE_FILE : string := "AU_opennem_facilities.json".

(** [dt.timedelta(days=7)] in microseconds. *)
Definition SEVEN_DAYS : Z := 7 * 86400 * 1000000.

(** What the script observes.  Instants are POSIX timestamps in
    microseconds; a naive datetime is counted in microseconds from
    1970-01-01T00:00:00, so that [fromtimestamp] adds the UTC offset in
    force at the instant.
    - [cache_file]: [None] when [os.path.exists] is false, else [st_mtime]
      (to the microsecond, as [fromtimestamp] rounds it) and what
      [open(CACHE_FILE).read()] gives, a text or an exception;
    - [clock]: the instant of the run, [time.time()];
    - [fromtimestamp]: the platform's conversion of an instant to the naive
      local datetime, which raises outside the years it supports;
      [dt.datetime.now()] is [fromtimestamp] of the clock;
    - [http_response]: what [requests.get(...).text] gives;
    - [cache_write]: the exception of [open(CACHE_FILE, 'w').write(...)],
      if it raises one. *)
Record World : Type := mkWorld {
  cache_file : option (Z * res string);
  clock : Z;
  fromtimestamp : Z -> res Z;
  http_response : res string;
  cache_write : option pyerr
}.

Inductive event : Type :=
| HttpGet (url : string)
| WriteFile (name text : string)
| Print (text : string)
| PrintJson (doc : json).

(** The heading printed before the document; it starts with a newline. *)
Definition HEADING : string :=
  String (ascii_of_nat 10) "Australian zone JSON data:".

Section Script.
(** [json.loads] on a text: the parsed value, or the exception raised.
    [JSONDecodeError] is one of several: a text nested too deeply raises
    [RecursionError], an integer literal with too many digits
    [ValueError]. *)
Variable json_loads : string -> res json.

(** [json.dumps(facilities, indent=3)], the argument of the [debug] call of
    line 157: the text, or the exception raised. *)
Variable json_dumps : json -> res string.

(** Lines 136-146: the value of [facility_data] after the cache block, or
    the exception that ends the run there.  Only [JSONDecodeError] is
    caught, and the file is read outside the [try]. *)
Definition read_cache (w : World) : res (option string) :=
  match cache_file w with
  | Some (mod_time, contents) =>
      let* now := fromtimestamp w (clock w) in
      let* then_ := fromtimestamp w mod_time in
      if now - then_ <? SEVEN_DAYS then
        let* facility_data := contents in
        match json_loads facility_data with
        | Ok _ => Ok (Some facility_data)
        | Raise JSONDecodeError => Ok None
        | Raise e => Raise e
        end
      else Ok None
  | None => Ok None
  end.

(** Lines 156-172: parsing, the [debug] call, the aggregation. *)
Definition load (facility_data : string) : res (list (string * json)) :=
  let* facilities := json_loads facility_data in
  let* _ := json_dumps facilities in
  aggregate facilities.

(** Lines 156-174 on the text in [facility_data]. *)
Definition report (facility_data : string) : list event * res unit :=
  match load facility_data with
  | Raise e => ([], Raise e)
  | Ok json_zones =>
      ([Print HEADING; PrintJson (sort_keys (JObj json_zones))], Ok tt)
  end.

(** Lines 150-154, then the rest of the script on the fetched text. *)
Definition fetch (w : World) : list event * res unit :=
  match http_response w with
  | Raise e => ([HttpGet REGISTRY_URL], Raise e)
  | Ok text =>
      match cache_write w with
      | Some e => ([HttpGet REGISTRY_URL], Raise e)
      | None =>
          let '(evs, r) := report text in
          (HttpGet REGISTRY_URL :: WriteFile CACHE_FILE text :: evs, r)
      end
  end.

(** The whole run: the events in order and how it ends.  The test
    [not facility_data] holds for [None] and for the empty text. *)
Definition main (w : World) : list event * res unit :=
  match read_cache w with
  | Raise e => ([], Raise e)
  | Ok (Some text) => if String.eqb text "" then fetch w else report text
  | Ok None => fetch w
  end.
End Script.

(** ** Comparisons of parsed values

    [<] and [>] on the values [json.loads] produces: numbers ([bool] is an
    [int]) compare by exact value, strings by code point, lists item by
    item; everything else raises [TypeError]. *)

(** The number a value stands for. *)
Definition numeric (j : json) : option pyfloat :=
  match j with
  | JBool b => Some (FFinite false (if b then 1 else 0) 0)
  | JInt z => Some (FFinite (z <? 0) (Z.abs z) 0)
  | JFloat f => Some f
  | _ => None
  end.

(** [a < b] on numbers; a NaN is below and above nothing. *)
Definition float_lt (a b : pyfloat) : bool :=
  match a, b with
  | FNan, _ | _, FNan => false
  | FInf sa, FInf sb => sa && negb sb
  | FInf sa, FFinite _ _ _ => sa
  | FFinite _ _ _, FInf sb => negb sb
  | FFinite sa ma ea, FFinite sb mb eb =>
      let e := Z.min ea eb in
      signed sa (ma * 2 ^ (ea - e)) <? signed sb (mb * 2 ^ (eb - e))
  end.

(** [a == b] on numbers. *)
Definition float_eq (a b : pyfloat) : bool :=
  match a, b with
  | FNan, _ | _, FNan => false
  | FInf sa, FInf sb => Bool.eqb sa sb
  | FInf _, FFinite _ _ _ | FFinite _ _ _, FInf _ => false
  | FFinite sa ma ea, FFinite sb mb eb =>
      let e := Z.min ea eb in
      signed sa (ma * 2 ^ (ea - e)) =? signed sb (mb * 2 ^ (eb - e))
  end.

(** [a is b or a == b], the test containers apply to their items.  The
    decoder hands out one NaN object for every [NaN] of the text, so two
    NaNs are the same item. *)
Fixpoint same_item (a b : json) : bool :=
  match a, b with
  | JNull, JNull => true
  | JStr s, JStr t => String.eqb s t
  | JArr la, JArr lb =>
      (fix go (la lb : list json) : bool :=
         match la, lb with
         | [], [] => true
         | x :: la', y :: lb' => same_item x y && go la' lb'
         | _, _ => false
         end) la lb
  | JObj da, JObj db =>
      (Nat.eqb (List.length da) (List.length db))
      && (fix all (da : list (string * json)) : bool :=
            match da with
            | [] => true
            | (k, v) :: da' =>
                match dict_get db k with
                | Some w => same_item v w
                | None => false
                end && all da'
            end) da
  | _, _ =>
      match numeric a, numeric b with
      | Some FNan, Some FNan => true
      | Some x, Some y => float_eq x y
      | _, _ => false
      end
  end.

(** [a < b] *)
Fixpoint py_lt (a b : json) : res bool :=
  match a, b with
  | JStr s, JStr t => Ok (String.ltb s t)
  | JArr la, JArr lb =>
      (fix go (la lb : list json) : res bool :=
         match la, lb with
         | [], [] => Ok false
         | [], _ :: _ => Ok true
         | _ :: _, [] => Ok false
         | x :: la', y :: lb' =>
             if same_item x y then go la' lb' else py_lt x y
         end) la lb
  | _, _ =>
      match numeric a, numeric b with
      | Some x, Some y => Ok (float_lt x y)
      | _, _ => Raise TypeError
      end
  end.

(** [a > b]: the mirrored comparison. *)
Definition py_gt (a b : json) : res bool := py_lt b a.

(** ** [OpenNEMZone.update_bounds] and [__repr__] *)

(** [x is None] *)
Definition is_none (x : json) : bool :=
  match x with
  | JNull => true
  | _ => false
  end.

(** One coordinate of [update_bounds]: [lo] and [hi] are the bounds kept
    for it, [x] the coordinate of the facility. *)
Definition expand (lo hi x : json) : res (json * json) :=
  if is_none x then Ok (lo, hi)
  else
    let* below := if is_none lo then Ok true else py_lt x lo in
    let lo := if below then x else lo in
    let* above := if is_none hi then Ok true else py_gt x hi in
    let hi := if above then x else hi in
    Ok (lo, hi).

(** [self.update_bounds(location_data)].  The attribute is always the
    two-by-two list built by [__init__]. *)
Definition update_bounds (self : OpenNEMZone) (location_data : json)
  : res OpenNEMZone :=
  match bounding_box self with
  | JArr [JArr [w; s]; JArr [e; n]] =>
      let* latitude := subscript location_data "latitude" in
      let* sn := expand s n latitude in
      let* longitude := subscript location_data "longitude" in
      let* we := expand w e longitude in
      Ok (mkZone (zone self)
                 (box (fst we) (fst sn) (snd we) (snd sn))
                 (capacity self))
  | _ => Raise TypeError
  end.

(** [repr(self)] *)
Definition OpenNEMZone_repr (self : OpenNEMZone) : string :=
  "<OpenNEMZone name='" ++ zone self ++ "'>".

(** * Vocabulary of the statements *)

(** The normalisation table as the specification words it: [None] for the
    consumers that are left out, [Some k] for the name counted. *)
Definition normalized_fuel_tech (s : string) : option string :=
  if String.eqb s "battery_charging" || String.eqb s "pumps" then None
  else if startswith s "gas_" then Some "gas"
  else if startswith s "bioenergy_" then Some "biomass"
  else if String.eqb s "distillate" then Some "oil"
  else if String.eqb s "battery_discharging" then Some "battery storage"
  else Some s.

(** A gas turbine of 5 MW. *)
Definition gas_ocgt_unit : string * json :=
  ("G1", JObj [("fuel_tech", JStr "gas_ocgt");
               ("registered_capacity", JInt 5)]).

(** [facility['status']['state']] *)
Definition facility_state (facility : json) : res json :=
  let* status := subscript facility "status" in
  subscript status "state".

(** A facility record with every key the loop reads. *)
Definition facility_items (state region : string)
    (duids : list (string * json)) : list (string * json) :=
  [("station_id", JStr "STN"); ("status", JObj [("state", JStr state)]);
   ("region_id", JStr region); ("duid_data", JObj duids)].

Definition facility_of (state region : string) (duids : list (string * json))
  : json :=
  JObj (facility_items state region duids).

(** A facility record short of one of the keys the loop reads. *)
Definition lacks_key (its : list (string * json)) : Prop :=
  dict_get its "status" = None
  \/ (exists st, dict_get its "status" = Some (JObj st)
                 /\ dict_get st "state" = None)
  \/ dict_get its "region_id" = None
  \/ dict_get its "duid_data" = None.

(** The keys the loop reads from a facility record. *)
Definition read_keys : list string :=
  ["duid_data"; "status"; "state"; "region_id"].

(** The keys of [zone_map] and its values, in order. *)
Definition zone_codes : list string :=
  ["NSW1"; "QLD1"; "SA1"; "TAS1"; "VIC1"; "WA1"].

Definition output_codes : list string :=
  ["AUS-NSW"; "AUS-QLD"; "AUS-SA"; "AUS-TAS"; "AUS-VIC"; "AUS-WA"].

(** Every zone object sits under its own code, and the codes are the six
    of [zone_map]. *)
Definition zones_ok (zones : list (string * OpenNEMZone)) : Prop :=
  dict_keys zones = zone_codes
  /\ Forall (fun kz => zone (snd kz) = fst kz) zones.

(** One printed entry: the zone's output under its inverse code. *)
Definition entry_of (kz : string * OpenNEMZone) (ko : string * json) : Prop :=
  dict_get zone_map (fst kz) = Some (fst ko)
  /\ exists o, output (snd kz) = Ok o /\ snd ko = JObj o.

(** A key that a dictionary lookup can hash. *)
Definition hashable (v : json) : bool :=
  match v with
  | JArr _ | JObj _ => false
  | _ => true
  end.

(** No total is a signalling NaN. *)
Definition quiet (cap : list (string * Decimal)) : Prop :=
  Forall (fun kv => snd kv <> DSNaN) cap.

(** Every zone has quiet totals. *)
Definition zones_quiet (zones : list (string * OpenNEMZone)) : Prop :=
  Forall (fun kz => quiet (capacity (snd kz))) zones.

(** The keys of the dictionary returned by [output]. *)
Definition output_keys : list string :=
  ["bounding_box"; "capacity"; "contributors"; "flag_file_name"; "parsers";
   "timezone"].

(** Adjacent keys are in ascending order. *)
Fixpoint sortedb (l : list string) : bool :=
  match l with
  | a :: (b :: _) as rest => String.leb a b && sortedb rest
  | _ => true
  end.

(** Every object of the document lists its keys in ascending order. *)
Fixpoint keys_sortedb (j : json) : bool :=
  match j with
  | JArr l => forallb keys_sortedb l
  | JObj its =>
      sortedb (dict_keys its) && forallb (fun kv => keys_sortedb (snd kv)) its
  | _ => true
  end.

(** One printed entry as the script builds it: the static box of the zone,
    the rounded totals, the boilerplate, under the inverse code. *)
Definition printed_entry (kz : string * OpenNEMZone) (ko : string * json)
  : Prop :=
  dict_get zone_map (fst kz) = Some (fst ko)
  /\ exists bb cap,
      dict_get STATE_BOUNDING_BOXES (fst kz) = Some bb
      /\ rounded_capacity [] (capacity (snd kz)) = Ok cap
      /\ snd ko = JObj (dict_update
                          [("bounding_box", bb); ("capacity", JObj cap)]
                          ZONE_BOILERPLATE).

(** A registry of one commissioned station in New South Wales with a
    location well outside the static box of the zone. *)
Definition located_registry : json :=
  JObj [("BW", JObj [("station_id", JStr "BW");
                     ("status", JObj [("state", JStr "Commissioned")]);
                     ("region_id", JStr "NSW1");
                     ("location", JObj [("latitude", JInt (-30));
                                        ("longitude", JInt 152)]);
                     ("duid_data", JObj [gas_ocgt_unit])])].

(** The box printed for New South Wales. *)
Definition printed_bounding_box (facilities : json) : res json :=
  let* out := aggregate facilities in
  let* e := dict_index out "AUS-NSW" in
  subscript e "bounding_box".

(** The box kept by the zone object, the one [update_bounds] would grow. *)
Definition zone_bounding_box (facilities : json) : res json :=
  let* entries := items facilities in
  let* zones := facilities_loop zones_init entries in
  let* z := dict_index zones "NSW1" in
  Ok (bounding_box z).

(** The event is a network request. *)
Definition is_http_get (ev : event) : bool :=
  match ev with
  | HttpGet _ => true
  | _ => false
  end.

(** The network requests of a run, in order. *)
Definition http_gets (evs : list event) : list event := filter is_http_get evs.

(** [now] and [then_] are the naive local datetimes of the run and of the
    modification time [mod_time]. *)
Definition local_times (w : World) (mod_time now then_ : Z) : Prop :=
  fromtimestamp w (clock w) = Ok now /\ fromtimestamp w mod_time = Ok then_.

(** The cache file exists, its naive local modification datetime is less
    than seven days before the naive local [now], and its text is read and
    parses. *)
Definition fresh_valid_cache (json_loads : string -> res json) (w : World)
  : Prop :=
  exists mod_time text now then_ facilities,
    cache_file w = Some (mod_time, Ok text)
    /\ local_times w mod_time now then_
    /\ now - then_ < SEVEN_DAYS
    /\ json_loads text = Ok facilities.

(** The cache cannot be used: there is no file, or its naive local
    modification datetime is seven days or more before the naive local
    [now], or its text is read and [json.loads] raises [JSONDecodeError]
    on it. *)
Definition stale_or_invalid_cache (json_loads : string -> res json)
    (w : World) : Prop :=
  cache_file w = None
  \/ exists mod_time contents now then_,
      cache_file w = Some (mod_time, contents)
      /\ local_times w mod_time now then_
      /\ (SEVEN_DAYS <= now - then_
          \/ exists text,
              contents = Ok text /\ json_loads text = Raise JSONDecodeError).

(** The cache block raises [e]: a time conversion fails, or the file is
    fresh and reading it fails, or [json.loads] raises something other
    than [JSONDecodeError] on its text. *)
Definition cache_check_raises (json_loads : string -> res json) (w : World)
    (e : pyerr) : Prop :=
  exists mod_time contents,
    cache_file w = Some (mod_time, contents)
    /\ (fromtimestamp w (clock w) = Raise e
        \/ (exists now,
               fromtimestamp w (clock w) = Ok now
               /\ fromtimestamp w mod_time = Raise e)
        \/ (exists now then_,
               local_times w mod_time now then_
               /\ now - then_ < SEVEN_DAYS
               /\ (contents = Raise e
                   \/ exists text,
                       contents = Ok text
                       /\ json_loads text = Raise e
                       /\ e <> JSONDecodeError))).

(** A parser for the examples: the empty text is no JSON document, any
    other text stands for the located registry. *)
Definition loads_fixture (text : string) : res json :=
  if String.eqb text "" then Raise JSONDecodeError else Ok located_registry.

(** A serializer for the examples, which never raises. *)
Definition dumps_fixture (_ : json) : res string := Ok "{}".

(** One hundred thousand opening brackets, a text on which [json.loads]
    raises [RecursionError]. *)
Definition deep_text : string :=
  N.iter 100000 (String "["%char) "".

(** The parser of the examples, extended to that text. *)
Definition loads_deep (text : string) : res json :=
  if String.eqb text deep_text then Raise RecursionError
  else loads_fixture text.

(** A platform on UTC: the naive datetime of an instant is the instant
    itself (both counted in microseconds from the start of 1970). *)
Definition utc (t : Z) : res Z := Ok t.

Definition HOUR : Z := 3600 * 1000000.



(** A fresh cache holding the deeply nested text. *)
Definition deep_world : World :=
  mkWorld (Some (0, Ok deep_text)) HOUR utc (Ok "fetched") None.

(** The DUIDs a facility adds to zone [k]. *)
Definition facility_gens (k : string) (facility : json)
  : list (string * json) :=
  match facility_state facility, subscript facility "region_id",
        subscript facility "duid_data" with
  | Ok state, Ok (JStr r), Ok (JObj gens) =>
      if is_commissioned state && String.eqb r k then gens else []
  | _, _, _ => []
  end.

(** The DUIDs of the registry that count for zone [k], in registry order. *)
Definition zone_gens (k : string) (entries : list (string * json))
  : list (string * json) :=
  flat_map (fun entry => facility_gens k (snd entry)) entries.

(** Whether a DUID is counted under [fuel]. *)
Definition counted_under (fuel : string) (gen : string * json) : bool :=
  match get_fuel_tech (snd gen) with
  | Ok (JStr s) =>
      match normalized_fuel_tech s with
      | Some k => String.eqb k fuel
      | None => false
      end
  | _ => false
  end.

(** The running total of one fuel type: the registered capacities of the
    DUIDs counted under it, added one after the other with the context
    addition. *)
Fixpoint fuel_total (fuel : string) (acc : Decimal)
    (gens : list (string * json)) : res Decimal :=
  match gens with
  | [] => Ok acc
  | gen :: rest =>
      if counted_under fuel gen then
        let* rc := subscript (snd gen) "registered_capacity" in
        let* d := Decimal_of rc in
        let* acc' := Decimal_add acc d in
        fuel_total fuel acc' rest
      else fuel_total fuel acc rest
  end.

(** The floats [0.1] and [0.025]. *)
Definition tenth : json := JFloat (FFinite false 7205759403792794 (-56)).
Definition fortieth : json := JFloat (FFinite false 7205759403792794 (-58)).

(** Two wind units of one commissioned station in South Australia. *)
Definition tie_capacities : list json := [tenth; fortieth].

Definition tie_entries : list (string * json) :=
  [("WF", facility_of "Commissioned" "SA1"
            [("W1", JObj [("fuel_tech", JStr "wind");
                          ("registered_capacity", tenth)]);
             ("W2", JObj [("fuel_tech", JStr "wind");
                          ("registered_capacity", fortieth)])])].

Definition tie_registry : json := JObj tie_entries.

(** The value printed for a zone and a fuel type. *)
Definition printed_capacity (facilities : json) (code fuel : string)
  : res json :=
  let* out := aggregate facilities in
  let* e := dict_index out code in
  let* c := subscript e "capacity" in
  subscript c fuel.

(** The specification's reading: decimals [(c, e)] standing for
    [c * 10^e] are added without any rounding, and only the final sum is
    rounded to two places (half to even) and printed as the nearest
    float. *)
Definition exact_add (a b : Z * Z) : Z * Z :=
  let e := Z.min (snd a) (snd b) in
  (fst a * 10 ^ (snd a - e) + fst b * 10 ^ (snd b - e), e).

Definition exact_decimal (v : json) : Z * Z :=
  match Decimal_of v with
  | Ok (DFinite neg c e) => (signed neg c, e)
  | _ => (0, 0)
  end.

Definition exact_sum (values : list json) : Z * Z :=
  fold_left exact_add (map exact_decimal values) (0, 0).

Definition exact_rounded2 (q : Z * Z) : pyfloat :=
  let '(c, e) := q in
  let cents :=
    if -2 <=? e then c * 10 ^ (e + 2)
    else div_half_even c (10 ^ (- e - 2)) in
  round_to_double (cents <? 0) (Z.abs cents) 100.

(** A number or a string. *)
Definition scalar (x : json) : bool :=
  match x with
  | JBool _ | JInt _ | JFloat _ | JStr _ => true
  | _ => false
  end.

(** A number other than NaN. *)
Definition real (x : json) : bool :=
  match numeric x with
  | Some (FFinite _ _ _) | Some (FInf _) => true
  | _ => false
  end.

(** A bound of the box: not set yet, or a number other than NaN. *)
Definition bound (x : json) : bool := is_none x || real x.

(** A location record. *)
Definition location (latitude longitude : json) : json :=
  JObj [("latitude", latitude); ("longitude", longitude)].

(** [x <= y] for two numbers, as the script can test it: [y < x] is
    false. *)
Definition not_below (y x : json) : Prop := py_lt y x = Ok false.

(** The box of a zone object that has seen no location. *)
Definition empty_box : json := box JNull JNull JNull JNull.

(** A facility record the loop passes over: every key it reads is there
    and the state is not ['Commissioned']. *)
Definition idle (entry : string * json) : Prop :=
  exists state duid_data region,
    facility_state (snd entry) = Ok state
    /\ state <> JStr "Commissioned"
    /\ subscript (snd entry) "duid_data" = Ok duid_data
    /\ subscript (snd entry) "region_id" = Ok region.

(** A fuel_tech name of the registry that the script renames or leaves
    out. *)
Definition raw_name (k : string) : bool :=
  String.eqb k "battery_charging" || String.eqb k "pumps"
  || String.eqb k "distillate" || String.eqb k "battery_discharging"
  || startswith k "gas_" || startswith k "bioenergy_".

(** A DUID with a fuel_tech and an integer capacity. *)
Definition int_unit (u : string * string * Z) : string * json :=
  (fst (fst u),
   JObj [("fuel_tech", JStr (snd (fst u))); ("registered_capacity", JInt (snd u))]).

(** The capacities of the units, added as integers. *)
Definition int_sum (units : list (string * string * Z)) : Z :=
  fold_right (fun u acc => snd u + acc) 0 units.

(** The same sum over the units counted under [k]. *)
Definition int_total (k : string) (units : list (string * string * Z)) : Z :=
  fold_right
    (fun u acc =>
       match normalized_fuel_tech (snd (fst u)) with
       | Some k' => if String.eqb k' k then snd u + acc else acc
       | None => acc
       end) 0 units.

(** A wind unit whose capacity is NaN, between two ordinary ones. *)
Definition nan_unit : string * json :=
  ("W2", JObj [("fuel_tech", JStr "wind");
               ("registered_capacity", JFloat FNan)]).

Definition nan_entries : list (string * json) :=
  [("WF", facility_of "Commissioned" "SA1"
            [("W1", JObj [("fuel_tech", JStr "wind");
                          ("registered_capacity", tenth)]);
             nan_unit;
             ("W3", JObj [("fuel_tech", JStr "wind");
                          ("registered_capacity", JInt 5)])])].

(** The event is a line written to standard output. *)
Definition is_print (ev : event) : bool :=
  match ev with
  | Print _ | PrintJson _ => true
  | _ => false
  end.

(** The lines a run prints, in order. *)
Definition printed (evs : list event) : list event := filter is_print evs.

(** [{v: k for k, v in d.items()}] *)
Definition invert (d : list (string * string)) : list (string * string) :=
  fold_left (fun acc kv => dict_set acc (snd kv) (fst kv)) d [].

(** A decimal the default context can hold: at most 28 digits and an
    exponent between [Etiny] and [Emax] when it is finite. *)
Definition in_context (d : Decimal) : Prop :=
  match d with
  | DFinite _ c e => 0 <= c < 10 ^ 28 /\ Etiny <= e <= Emax
  | _ => True
  end.

(** The float [f] is exactly the integer [n]. *)
Definition float_is_int (f : pyfloat) (n : Z) : Prop :=
  match f with
  | FFinite neg m e => e <= 0 /\ signed neg m = n * 2 ^ (- e)
  | _ => False
  end.

(** The float NaN as a parsed value. *)
Definition nan : json := JFloat FNan.

(** [update_bounds] applied to one location after the other. *)
Fixpoint update_bounds_all (z : OpenNEMZone) (locs : list json)
  : res OpenNEMZone :=
  match locs with
  | [] => Ok z
  | loc :: rest =>
      let* z' := update_bounds z loc in
      update_bounds_all z' rest
  end.

(** The point lies in the box: south <= latitude <= north and
    west <= longitude <= east. *)
Definition inside (w s e n : json) (p : json * json) : Prop :=
  (not_below (fst p) s /\ not_below n (fst p))
  /\ (not_below (snd p) w /\ not_below e (snd p)).

(** A facility record with every key and whole-number capacities. *)
Record whole_facility : Type := mkWhole {
  wcode : string;
  wstate : string;
  wregion : string;
  wunits : list (string * string * Z)
}.

Definition whole_entry (f : whole_facility) : string * json :=
  (wcode f, facility_of (wstate f) (wregion f) (map int_unit (wunits f))).

(** The facility is commissioned in zone [k]. *)
Definition counts_in (k : string) (f : whole_facility) : bool :=
  String.eqb (wstate f) "Commissioned" && String.eqb (wregion f) k.

(** The units of the commissioned facilities of zone [k], in order. *)
Definition zone_units (k : string) (facs : list whole_facility)
  : list (string * string * Z) :=
  flat_map (fun f => if counts_in k f then wunits f else []) facs.

(** The units of all commissioned facilities. *)
Definition counted_units (facs : list whole_facility)
  : list (string * string * Z) :=
  flat_map (fun f => if String.eqb (wstate f) "Commissioned"
                     then wunits f else []) facs.

(** A commissioned facility names one of the six zones, and no capacity
    is negative. *)
Definition whole_ok (f : whole_facility) : Prop :=
  (wstate f = "Commissioned" -> In (wregion f) zone_codes)
  /\ Forall (fun u => 0 <= snd u) (wunits f).

(** * Properties *)

(** ** Dictionaries *)

Section DictFacts.
Context {V : Type}.
Implicit Types (d : list (string * V)) (k : string) (v : V).

Lemma dict_get_set_same d k v : dict_get (dict_set d k v) k = Some v.
Proof.
  induction d as [|[k' v'] d IH]; simpl.
  - now rewrite String.eqb_refl.
  - destruct (String.eqb k' k) eqn:E; simpl; rewrite E; auto.
Qed.

Lemma dict_get_set_other d k k' v :
  k' <> k -> dict_get (dict_set d k v) k' = dict_get d k'.
Proof.
  intros Hne. induction d as [|[k0 v0] d IH]; simpl.
  - destruct (String.eqb k k') eqn:E; auto.
    apply String.eqb_eq in E. congruence.
  - destruct (String.eqb k0 k) eqn:E; simpl.
    + apply String.eqb_eq in E. subst k0.
      destruct (String.eqb k k') eqn:E'; auto.
      apply String.eqb_eq in E'. congruence.
    + now rewrite IH.
Qed.

Lemma dict_keys_set_present d k v v0 :
  dict_get d k = Some v0 -> dict_keys (dict_set d k v) = dict_keys d.
Proof.
  unfold dict_keys. induction d as [|[k' v'] d IH]; simpl; [discriminate|].
  destruct (String.eqb k' k) eqn:E; simpl; intros H; auto.
  now rewrite IH.
Qed.

Lemma dict_keys_set_absent d k v :
  dict_get d k = None -> dict_keys (dict_set d k v) = (dict_keys d ++ [k])%list.
Proof.
  unfold dict_keys. induction d as [|[k' v'] d IH]; simpl; auto.
  destruct (String.eqb k' k) eqn:E; simpl; intros H; [discriminate|].
  now rewrite IH.
Qed.
End DictFacts.

(** ** Fuel-type normalisation *)

Lemma rename_gen_type_normalized (s k : string) :
  normalized_fuel_tech s = Some k -> rename_gen_type s = k.
Proof.
  unfold normalized_fuel_tech, rename_gen_type, startswith.
  destruct (String.eqb s "battery_charging" || String.eqb s "pumps");
    [discriminate|].
  destruct (String.prefix "gas_" s) eqn:G.
  { intros [= <-]. reflexivity. }
  destruct (String.eqb s "battery_discharging") eqn:B.
  { apply String.eqb_eq in B. subst s. intros [= <-]. reflexivity. }
  destruct (String.prefix "bioenergy_" s) eqn:Bio.
  { intros [= <-]. reflexivity. }
  destruct (String.eqb s "distillate") eqn:D; intros [= <-]; reflexivity.
Qed.

(** ** [update_capacity] *)

Lemma update_capacity_loop_app cap pre post :
  update_capacity_loop cap (pre ++ post) =
  (let* cap' := update_capacity_loop cap pre in
   update_capacity_loop cap' post).
Proof.
  revert cap. induction pre as [|gen pre IH]; intros cap; simpl; auto.
  destruct (update_capacity_step cap gen) as [cap'|e]; simpl; auto.
Qed.

(** One iteration on a DUID entry whose fuel_tech is the string [s] counts
    it under the normalised name: nothing is recorded for
    [battery_charging] and
    [pumps]; otherwise the entry's registered capacity is added to the
    total kept under ["gas"], ["biomass"], ["oil"], ["battery storage"] or
    [s] itself, as the table [normalized_fuel_tech] says, and no other
    total changes. *)
Lemma update_capacity_step_normalized :
  forall (cap : list (string * Decimal)) (gen : string * json) (s : string),
    get_fuel_tech (snd gen) = Ok (JStr s) ->
    match normalized_fuel_tech s with
    | None => update_capacity_step cap gen = Ok cap
    | Some k =>
        (forall rc d total,
            subscript (snd gen) "registered_capacity" = Ok rc ->
            Decimal_of rc = Ok d ->
            Decimal_add (capacity_get cap k) d = Ok total ->
            update_capacity_step cap gen = Ok (dict_set cap k total))
        /\ (forall cap',
               update_capacity_step cap gen = Ok cap' ->
               exists rc d total,
                 subscript (snd gen) "registered_capacity" = Ok rc
                 /\ Decimal_of rc = Ok d
                 /\ Decimal_add (capacity_get cap k) d = Ok total
                 /\ dict_get cap' k = Some total
                 /\ forall k', k' <> k -> dict_get cap' k' = dict_get cap k')
    end.
Proof.
  intros cap gen s Hft.
  unfold update_capacity_step. rewrite Hft. simpl.
  destruct (normalized_fuel_tech s) as [k|] eqn:Hn.
  - pose proof (rename_gen_type_normalized _ _ Hn) as Hr.
    unfold normalized_fuel_tech in Hn.
    destruct (String.eqb s "battery_charging" || String.eqb s "pumps");
      [discriminate|].
    rewrite Hr. split.
    + intros rc d total H1 H2 H3. rewrite H1. simpl. rewrite H2. simpl.
      now rewrite H3.
    + intros cap'.
      destruct (subscript (snd gen) "registered_capacity") as [rc|] eqn:H1;
        simpl; [|discriminate].
      destruct (Decimal_of rc) as [d|] eqn:H2; simpl; [|discriminate].
      destruct (Decimal_add (capacity_get cap k) d) as [total|] eqn:H3;
        simpl; [|discriminate].
      intros [= <-]. exists rc, d, total.
      split; [reflexivity|]. split; [exact H2|]. split; [exact H3|]. split.
      * apply dict_get_set_same.
      * intros k' Hk. now apply dict_get_set_other.
  - unfold normalized_fuel_tech in Hn.
    destruct (String.eqb s "battery_charging" || String.eqb s "pumps");
      [reflexivity|].
    repeat match type of Hn with
           | (if ?b then _ else _) = None => destruct b; try discriminate
           end.
Qed.



(** ** The loop over the facilities *)

Lemma is_commissioned_true (state : json) :
  is_commissioned state = true <-> state = JStr "Commissioned".
Proof.
  destruct state; simpl; try (split; [discriminate|intros [=]]).
  rewrite String.eqb_eq. split; [now intros ->|now intros [= ->]].
Qed.

Lemma is_commissioned_false (state : json) :
  is_commissioned state = false <-> state <> JStr "Commissioned".
Proof.
  rewrite <- is_commissioned_true.
  destruct (is_commissioned state); split; congruence.
Qed.

(** One step of the loop: a facility's DUIDs are added to its zone exactly when its status
    state is ['Commissioned'].  For any other state the step, when it
    completes, returns the zones untouched (and it completes as soon as
    ['region_id'] is present).  For ['Commissioned'] a completed step has
    run the DUID loop on the capacity table of the zone named by
    ['region_id'] and stored the result, and it completes whenever the
    zone exists, ['station_id'] is present and that loop completes. *)
Lemma facility_step_commissioned :
  forall (zones : list (string * OpenNEMZone)) (code : string)
         (facility state duid_data : json),
    subscript facility "duid_data" = Ok duid_data ->
    facility_state facility = Ok state ->
    (state <> JStr "Commissioned" ->
     (forall zones', facility_step zones (code, facility) = Ok zones' ->
                     zones' = zones)
     /\ (forall region, subscript facility "region_id" = Ok region ->
                        facility_step zones (code, facility) = Ok zones))
    /\ (state = JStr "Commissioned" ->
        (forall zones',
            facility_step zones (code, facility) = Ok zones' ->
            exists r z gens cap',
              subscript facility "region_id" = Ok (JStr r)
              /\ dict_get zones r = Some z
              /\ duid_data = JObj gens
              /\ update_capacity_loop (capacity z) gens = Ok cap'
              /\ zones' = dict_set zones (zone z)
                            (mkZone (zone z) (bounding_box z) cap'))
        /\ (forall r z gens cap' sid,
               subscript facility "region_id" = Ok (JStr r) ->
               dict_get zones r = Some z ->
               subscript facility "station_id" = Ok sid ->
               duid_data = JObj gens ->
               update_capacity_loop (capacity z) gens = Ok cap' ->
               facility_step zones (code, facility) =
               Ok (dict_set zones (zone z)
                     (mkZone (zone z) (bounding_box z) cap')))).
Proof.
  intros zones code facility state duid_data Hd Hs.
  unfold facility_state in Hs.
  destruct (subscript facility "status") as [status|] eqn:Hst;
    simpl in Hs; [|discriminate].
  unfold facility_step. simpl. rewrite Hd, Hst. simpl. rewrite Hs. simpl.
  split.
  - intros Hne. apply is_commissioned_false in Hne. rewrite Hne. split.
    + intros zones'.
      destruct (subscript facility "region_id"); simpl; [|discriminate].
      now intros [= <-].
    + intros region ->. reflexivity.
  - intros Heq. apply is_commissioned_true in Heq. rewrite Heq. split.
    + intros zones'.
      destruct (subscript facility "region_id") as [region|]; simpl;
        [|discriminate].
      destruct region as [| | | |r| |]; simpl; try discriminate.
      unfold dict_index.
      destruct (dict_get zones r) as [z|] eqn:Hz; simpl; [|discriminate].
      unfold update_from_facility_data.
      destruct (subscript facility "station_id"); simpl; [|discriminate].
      rewrite Hd. simpl. unfold update_capacity.
      destruct duid_data as [| | | | | |gens]; simpl; try discriminate.
      destruct (update_capacity_loop (capacity z) gens) as [cap'|] eqn:Hl;
        simpl; [|discriminate].
      intros [= <-]. exists r, z, gens, cap'. auto.
    + intros r z gens cap' sid Hr Hz Hsid -> Hl.
      rewrite Hr. simpl. unfold dict_index. rewrite Hz. simpl.
      unfold update_from_facility_data. rewrite Hsid. simpl.
      rewrite Hd. simpl. unfold update_capacity. simpl.
      now rewrite Hl.
Qed.

Lemma facilities_loop_app zones pre post :
  facilities_loop zones (pre ++ post) =
  (let* zones' := facilities_loop zones pre in
   facilities_loop zones' post).
Proof.
  revert zones. induction pre as [|entry pre IH]; intros zones; simpl; auto.
  destruct (facility_step zones entry) as [zones'|e]; simpl; auto.
Qed.

Lemma facility_step_lacks_key zones code its :
  (forall sv, dict_get its "status" = Some sv -> exists st, sv = JObj st) ->
  lacks_key its ->
  exists k, In k read_keys
            /\ facility_step zones (code, JObj its) = Raise (KeyError (JStr k)).
Proof.
  intros Hshape Hlack. unfold facility_step, read_keys. simpl.
  unfold dict_index.
  destruct (dict_get its "duid_data") as [dd|] eqn:Hd; simpl;
    [|exists "duid_data"; simpl; auto].
  destruct (dict_get its "status") as [sv|] eqn:Hs; simpl;
    [|exists "status"; simpl; auto].
  destruct (Hshape sv eq_refl) as [st ->]. simpl. unfold dict_index.
  destruct (dict_get st "state") as [state|] eqn:Hstate; simpl;
    [|exists "state"; simpl; auto].
  destruct (dict_get its "region_id") as [region|] eqn:Hr; simpl.
  - exfalso. destruct Hlack as [H|[(st' & H1 & H2)|[H|H]]].
    + congruence.
    + rewrite Hs in H1. injection H1 as <-. congruence.
    + congruence.
    + congruence.
  - exists "region_id". destruct (is_commissioned state); simpl; auto 6.
Qed.

(** C7.  No record is skipped and no default is substituted: a registry
    holding a facility record that lacks ['status'] (or ['state'] inside
    it), ['region_id'] or ['duid_data'] never yields a result, and once the
    loop reaches that record the run ends with the [KeyError] of a
    missing key.  A facility record is a JSON object whose ['status'],
    when present, is an object. *)
Theorem missing_key_raises_KeyError :
  forall (pre post : list (string * json)) (code : string)
         (its : list (string * json)),
    (forall sv, dict_get its "status" = Some sv -> exists st, sv = JObj st) ->
    lacks_key its ->
    (exists e, aggregate (JObj (pre ++ (code, JObj its) :: post)) = Raise e)
    /\ (forall zones1,
           facilities_loop zones_init pre = Ok zones1 ->
           exists k, In k read_keys
                     /\ aggregate (JObj (pre ++ (code, JObj its) :: post)) =
                        Raise (KeyError (JStr k))).
Proof.
  intros pre post code its Hshape Hlack.
  unfold aggregate. simpl. rewrite facilities_loop_app. split.
  - destruct (facilities_loop zones_init pre) as [zones1|e]; simpl.
    + destruct (facility_step_lacks_key zones1 code its Hshape Hlack)
        as (k & _ & ->).
      simpl. eauto.
    + eauto.
  - intros zones1 ->. simpl.
    destruct (facility_step_lacks_key zones1 code its Hshape Hlack)
      as (k & Hin & ->).
    simpl. exists k. split; [exact Hin | reflexivity].
Qed.

Lemma missing_key_raises_KeyError_witness :
  exists k, In k read_keys
            /\ aggregate
                 (JObj ([("F1", facility_of "Commissioned" "SA1" [gas_ocgt_unit])]
                        ++ ("F2", JObj [("station_id", JStr "STN");
                                        ("region_id", JStr "SA1");
                                        ("duid_data", JObj [])]) :: [])) =
               Raise (KeyError (JStr k)).
Proof.
  refine (proj2 (missing_key_raises_KeyError
            [("F1", facility_of "Commissioned" "SA1" [gas_ocgt_unit])] []
            "F2" [("station_id", JStr "STN"); ("region_id", JStr "SA1");
                  ("duid_data", JObj [])] _ _) _ _).
  - intros sv H. discriminate H.
  - left. reflexivity.
  - vm_compute. reflexivity.
Defined.

(** ** The zone table *)

Lemma zones_init_ok : zones_ok zones_init.
Proof. split; [reflexivity|]. repeat constructor. Qed.

Lemma dict_get_Forall {V : Type} (P : string * V -> Prop) d k v :
  Forall P d -> dict_get d k = Some v -> P (k, v).
Proof.
  intros Hd. induction d as [|[k' v'] d IH]; simpl; [discriminate|].
  inversion Hd as [|? ? HP Hrest]; subst.
  destruct (String.eqb k' k) eqn:E; [|now apply IH].
  apply String.eqb_eq in E. subst k'. now intros [= <-].
Qed.

Lemma Forall_dict_set {V : Type} (P : string * V -> Prop) d k v :
  Forall P d -> P (k, v) -> Forall P (dict_set d k v).
Proof.
  intros Hd Hk. induction d as [|[k' v'] d IH]; simpl.
  - constructor; [exact Hk | constructor].
  - inversion Hd as [|? ? HP Hrest]; subst.
    destruct (String.eqb k' k) eqn:E.
    + apply String.eqb_eq in E. subst k'. constructor; assumption.
    + constructor; [assumption | now apply IH].
Qed.

Lemma dict_get_absent {V : Type} (d : list (string * V)) k :
  ~ In k (dict_keys d) -> dict_get d k = None.
Proof.
  unfold dict_keys. induction d as [|[k' v'] d IH]; simpl; auto.
  intros Hn. destruct (String.eqb k' k) eqn:E.
  - apply String.eqb_eq in E. tauto.
  - apply IH. tauto.
Qed.

(** What a completed step did: nothing, for a facility that is not
    commissioned, or the DUID loop on one zone. *)
Lemma facility_step_inv zones entry zones' :
  facility_step zones entry = Ok zones' ->
  (zones' = zones
   /\ exists state, facility_state (snd entry) = Ok state
                    /\ is_commissioned state = false)
  \/ exists r z gens cap',
      subscript (snd entry) "region_id" = Ok (JStr r)
      /\ facility_state (snd entry) = Ok (JStr "Commissioned")
      /\ subscript (snd entry) "duid_data" = Ok (JObj gens)
      /\ dict_get zones r = Some z
      /\ update_capacity_loop (capacity z) gens = Ok cap'
      /\ zones' = dict_set zones (zone z)
                    (mkZone (zone z) (bounding_box z) cap').
Proof.
  unfold facility_step, facility_state.
  destruct (subscript (snd entry) "duid_data") as [dd|] eqn:Hd; simpl;
    [|discriminate].
  destruct (subscript (snd entry) "status") as [status|]; simpl;
    [|discriminate].
  destruct (subscript status "state") as [state|]; simpl; [|discriminate].
  destruct (is_commissioned state) eqn:Hc.
  - apply is_commissioned_true in Hc. subst state.
    destruct (subscript (snd entry) "region_id") as [region|]; simpl;
      [|discriminate].
    destruct region as [| | | |r| |]; simpl; try discriminate.
    unfold dict_index.
    destruct (dict_get zones r) as [z|] eqn:Hz; simpl; [|discriminate].
    unfold update_from_facility_data.
    destruct (subscript (snd entry) "station_id"); simpl; [|discriminate].
    rewrite Hd. simpl. unfold update_capacity.
    destruct dd as [| | | | | |gens]; simpl; try discriminate.
    destruct (update_capacity_loop (capacity z) gens) as [cap'|] eqn:Hl;
      simpl; [|discriminate].
    intros [= <-]. right. exists r, z, gens, cap'. auto 10.
  - destruct (subscript (snd entry) "region_id"); simpl; [|discriminate].
    intros [= <-]. left. split; [reflexivity|]. exists state. auto.
Qed.

Lemma facility_step_ok zones entry zones' :
  zones_ok zones -> facility_step zones entry = Ok zones' -> zones_ok zones'.
Proof.
  intros [Hk Hf] Hstep.
  destruct (facility_step_inv _ _ _ Hstep)
    as [[-> _]|(r & z & gens & cap' & _ & _ & _ & Hz & _ & ->)]; [now split|].
  pose proof (dict_get_Forall _ _ _ _ Hf Hz) as Hzr. simpl in Hzr.
  rewrite Hzr. split.
  - now rewrite (dict_keys_set_present _ _ _ _ Hz).
  - apply Forall_dict_set; auto.
Qed.

Lemma facilities_loop_ok entries : forall zones zones',
  zones_ok zones -> facilities_loop zones entries = Ok zones' ->
  zones_ok zones'.
Proof.
  induction entries as [|entry entries IH]; intros zones zones' Hok; simpl.
  - now intros [= <-].
  - destruct (facility_step zones entry) as [zones1|] eqn:Hs; simpl;
      [|discriminate].
    apply IH. eapply facility_step_ok; eauto.
Qed.

(** ** [output] and the dictionary handed to [json.dumps] *)

Lemma output_inv z o :
  output z = Ok o ->
  exists bb cap,
    dict_get STATE_BOUNDING_BOXES (zone z) = Some bb
    /\ rounded_capacity [] (capacity z) = Ok cap
    /\ o = ("bounding_box", bb) :: ("capacity", JObj cap) :: ZONE_BOILERPLATE.
Proof.
  unfold output, dict_index.
  destruct (dict_get STATE_BOUNDING_BOXES (zone z)) as [bb|]; simpl;
    [|discriminate].
  destruct (rounded_capacity [] (capacity z)) as [cap|]; simpl;
    [|discriminate].
  intros [= <-]. exists bb, cap. auto.
Qed.

Lemma json_zones_loop_inv zones out :
  zones_ok zones ->
  json_zones_loop [] zones = Ok out ->
  dict_keys out = output_codes /\ Forall2 entry_of zones out.
Proof.
  intros [Hk Hf].
  destruct zones as [|[k1 z1] [|[k2 z2] [|[k3 z3] [|[k4 z4] [|[k5 z5]
    [|[k6 z6] [|? ?]]]]]]]; try discriminate Hk.
  injection Hk as -> -> -> -> -> ->.
  repeat match goal with
         | H : Forall _ (_ :: _) |- _ =>
             let H1 := fresh "Hz" in
             let H2 := fresh "Hf" in
             inversion H as [|? ? H1 H2]; subst; clear H; simpl in H1
         end.
  unfold json_zones_loop.
  repeat match goal with
         | H : zone _ = _ |- _ => rewrite H; clear H
         end.
  unfold dict_index. simpl.
  destruct (output z1) as [o1|] eqn:H1; simpl; [|discriminate].
  destruct (output z2) as [o2|] eqn:H2; simpl; [|discriminate].
  destruct (output z3) as [o3|] eqn:H3; simpl; [|discriminate].
  destruct (output z4) as [o4|] eqn:H4; simpl; [|discriminate].
  destruct (output z5) as [o5|] eqn:H5; simpl; [|discriminate].
  destruct (output z6) as [o6|] eqn:H6; simpl; [|discriminate].
  intros [= <-]. split; [reflexivity|].
  repeat (constructor; [split; [reflexivity|eexists; split; eauto]|]).
  constructor.
Qed.

Lemma zones_index_unknown zones region :
  zones_ok zones ->
  hashable region = true ->
  (forall z, In z zone_codes -> region <> JStr z) ->
  zones_index zones region = Raise (KeyError region).
Proof.
  intros [Hk _] Hh Hout.
  destruct region as [| | | |r| |]; simpl in *; try reflexivity;
    try discriminate.
  unfold dict_index. rewrite dict_get_absent; [reflexivity|].
  rewrite Hk. intros Hin. now apply (Hout r).
Qed.

(** C9.  A completed run prints exactly the six codes AUS-NSW, AUS-QLD,
    AUS-SA, AUS-TAS, AUS-VIC and AUS-WA.  NT1 has a bounding box but no
    zone object, and a commissioned facility whose ['region_id'] is a
    (hashable) value other than the six zone codes ends the run with the
    [KeyError] of that value as soon as the loop reaches it. *)
Theorem unknown_region_raises_KeyError :
  (forall facilities out,
      aggregate facilities = Ok out -> dict_keys out = output_codes)
  /\ (dict_get STATE_BOUNDING_BOXES "NT1" <> None
      /\ ~ In "NT1" zone_codes)
  /\ (forall (pre post : list (string * json)) (code : string)
             (its : list (string * json)) (duid_data region : json)
             (zones1 : list (string * OpenNEMZone)),
         dict_get its "duid_data" = Some duid_data ->
         facility_state (JObj its) = Ok (JStr "Commissioned") ->
         dict_get its "region_id" = Some region ->
         hashable region = true ->
         (forall z, In z zone_codes -> region <> JStr z) ->
         facilities_loop zones_init pre = Ok zones1 ->
         aggregate (JObj (pre ++ (code, JObj its) :: post)) =
         Raise (KeyError region)).
Proof.
  split; [|split].
  - intros facilities out. unfold aggregate.
    destruct (items facilities) as [entries|]; simpl; [|discriminate].
    destruct (facilities_loop zones_init entries) as [zones|] eqn:Hl; simpl;
      [|discriminate].
    intros Hout. eapply json_zones_loop_inv; [|exact Hout].
    eapply facilities_loop_ok; [apply zones_init_ok | exact Hl].
  - split; [discriminate|].
    simpl. intros H. repeat destruct H as [H|H]; try discriminate H. exact H.
  - intros pre post code its duid_data region zones1 Hd Hs Hr Hh Hout Hpre.
    unfold aggregate. simpl. rewrite facilities_loop_app, Hpre. simpl.
    unfold facility_state in Hs. unfold facility_step. simpl in *.
    unfold dict_index in *. rewrite Hd. simpl.
    destruct (dict_get its "status") as [status|]; simpl in *;
      [|discriminate].
    rewrite Hs. simpl. rewrite Hr. simpl.
    rewrite zones_index_unknown; auto.
    eapply facilities_loop_ok; [apply zones_init_ok | exact Hpre].
Qed.

Lemma unknown_region_raises_KeyError_witness :
  aggregate (JObj ([("F1", facility_of "Commissioned" "SA1" [gas_ocgt_unit])]
                   ++ ("F2", facility_of "Commissioned" "NT1" [gas_ocgt_unit])
                   :: [])) =
  Raise (KeyError (JStr "NT1")).
Proof.
  refine (proj2 (proj2 unknown_region_raises_KeyError)
            [("F1", facility_of "Commissioned" "SA1" [gas_ocgt_unit])] []
            "F2" (facility_items "Commissioned" "NT1" [gas_ocgt_unit])
            (JObj [gas_ocgt_unit]) (JStr "NT1") _
            eq_refl eq_refl eq_refl eq_refl _ _).
  - simpl. intros z H.
    repeat destruct H as [<-|H]; try discriminate. destruct H.
  - vm_compute. reflexivity.
Defined.

(** ** No signalling NaN is ever stored, so [output] cannot fail *)

Lemma fix_finite_quiet neg c e d : fix_finite neg c e = Ok d -> d <> DSNaN.
Proof.
  unfold fix_finite.
  repeat match goal with
         | |- context [if ?b then _ else _] => destruct b
         | |- context [let '(_, _) := ?p in _] => destruct p
         end; intros [= <-]; discriminate.
Qed.

Lemma Decimal_add_quiet a b d : Decimal_add a b = Ok d -> d <> DSNaN.
Proof.
  destruct a as [sa ca ea|sa| |], b as [sb cb eb|sb| |]; simpl;
    try discriminate; try (intros [= <-]; discriminate).
  - repeat match goal with
           | |- context [if ?b then _ else _] => destruct b
           end; apply fix_finite_quiet.
  - destruct (Bool.eqb sa sb); [intros [= <-]|]; discriminate.
Qed.

Lemma update_capacity_step_quiet cap gen cap' :
  quiet cap -> update_capacity_step cap gen = Ok cap' -> quiet cap'.
Proof.
  intros Hq. unfold update_capacity_step.
  destruct (get_fuel_tech (snd gen)) as [ft|]; simpl; [|discriminate].
  destruct ft as [| | | |s| |]; try discriminate; [now intros [= <-]|].
  destruct (String.eqb s "battery_charging" || String.eqb s "pumps");
    [now intros [= <-]|].
  destruct (subscript (snd gen) "registered_capacity") as [rc|]; simpl;
    [|discriminate].
  destruct (Decimal_of rc) as [d|]; simpl; [|discriminate].
  destruct (Decimal_add _ d) as [total|] eqn:Ha; simpl; [|discriminate].
  intros [= <-]. apply Forall_dict_set; auto.
  simpl. eapply Decimal_add_quiet; eauto.
Qed.

Lemma update_capacity_loop_quiet gens : forall cap cap',
  quiet cap -> update_capacity_loop cap gens = Ok cap' -> quiet cap'.
Proof.
  induction gens as [|gen gens IH]; intros cap cap' Hq; simpl.
  - now intros [= <-].
  - destruct (update_capacity_step cap gen) as [cap1|] eqn:Hs; simpl;
      [|discriminate].
    apply IH. eapply update_capacity_step_quiet; eauto.
Qed.

Lemma rounded_capacity_total cap : forall acc,
  quiet cap -> exists out, rounded_capacity acc cap = Ok out.
Proof.
  induction cap as [|[k v] cap IH]; intros acc Hq; simpl; eauto.
  inversion Hq as [|? ? Hv Hrest]; subst. simpl in Hv.
  destruct v; simpl; try apply IH; auto. congruence.
Qed.

Lemma facilities_loop_quiet entries : forall zones zones',
  zones_quiet zones -> facilities_loop zones entries = Ok zones' ->
  zones_quiet zones'.
Proof.
  induction entries as [|entry entries IH]; intros zones zones' Hq; simpl.
  - now intros [= <-].
  - destruct (facility_step zones entry) as [zones1|] eqn:Hs; simpl;
      [|discriminate].
    apply IH.
    destruct (facility_step_inv _ _ _ Hs)
      as [[-> _]|(r & z & gens & cap' & _ & _ & _ & Hz & Hl & ->)]; auto.
    apply Forall_dict_set; auto. simpl.
    eapply update_capacity_loop_quiet; [|exact Hl].
    apply (dict_get_Forall _ _ _ _ Hq Hz).
Qed.

Lemma zones_init_quiet : zones_quiet zones_init.
Proof. repeat constructor. Qed.

Lemma output_total z :
  In (zone z) (dict_keys STATE_BOUNDING_BOXES) -> quiet (capacity z) ->
  exists o, output z = Ok o.
Proof.
  intros Hin Hq. unfold output, dict_index.
  destruct (dict_get STATE_BOUNDING_BOXES (zone z)) as [bb|] eqn:Hb.
  - simpl. destruct (rounded_capacity_total (capacity z) [] Hq) as [cap ->].
    simpl. eauto.
  - exfalso. simpl in Hin.
    repeat destruct Hin as [Hin|Hin]; try (rewrite <- Hin in Hb; discriminate).
    destruct Hin.
Qed.

Lemma dict_get_In {V : Type} (d : list (string * V)) k v :
  dict_get d k = Some v -> In k (dict_keys d).
Proof.
  unfold dict_keys. induction d as [|[k' v'] d IH]; simpl; [discriminate|].
  destruct (String.eqb k' k) eqn:E; auto.
  apply String.eqb_eq in E. auto.
Qed.

(** C10.  The dictionary returned by [output] has exactly the keys
    bounding_box, capacity, contributors, flag_file_name, parsers and
    timezone; after the boilerplate is merged in, bounding_box and capacity
    still hold the values placed first, and timezone is null.  Every zone
    object a run reaches does return such a dictionary. *)
Theorem output_has_six_keys :
  (forall z o,
      output z = Ok o ->
      dict_keys o = output_keys
      /\ dict_get o "timezone" = Some JNull
      /\ exists bb cap,
          dict_get STATE_BOUNDING_BOXES (zone z) = Some bb
          /\ rounded_capacity [] (capacity z) = Ok cap
          /\ o = dict_update [("bounding_box", bb); ("capacity", JObj cap)]
                   ZONE_BOILERPLATE
          /\ dict_get o "bounding_box" = Some bb
          /\ dict_get o "capacity" = Some (JObj cap))
  /\ (forall entries zones k z,
         facilities_loop zones_init entries = Ok zones ->
         dict_get zones k = Some z ->
         exists o, output z = Ok o).
Proof.
  split.
  - intros z o Ho. destruct (output_inv _ _ Ho) as (bb & cap & Hb & Hc & ->).
    split; [reflexivity|]. split; [reflexivity|].
    exists bb, cap. auto.
  - intros entries zones k z Hl Hz.
    pose proof (facilities_loop_ok _ _ _ zones_init_ok Hl) as [Hk Hf].
    pose proof (facilities_loop_quiet _ _ _ zones_init_quiet Hl) as Hq.
    pose proof (dict_get_Forall _ _ _ _ Hf Hz) as Hzk. simpl in Hzk.
    apply output_total.
    + rewrite Hzk. apply dict_get_In in Hz. rewrite Hk in Hz.
      simpl in Hz. simpl. tauto.
    + apply (dict_get_Forall _ _ _ _ Hq Hz).
Qed.

Lemma output_has_six_keys_witness :
  exists o, output (OpenNEMZone_init "SA1") = Ok o
            /\ dict_keys o = output_keys.
Proof.
  destruct (proj2 output_has_six_keys [] zones_init "SA1"
              (OpenNEMZone_init "SA1") eq_refl eq_refl) as [o Ho].
  exists o. split; [exact Ho|].
  exact (proj1 (proj1 output_has_six_keys _ _ Ho)).
Defined.

(** ** Sorted serialisation *)

Lemma json_induction (P : json -> Prop) :
  P JNull -> (forall b, P (JBool b)) -> (forall z, P (JInt z)) ->
  (forall f, P (JFloat f)) -> (forall s, P (JStr s)) ->
  (forall l, Forall P l -> P (JArr l)) ->
  (forall its, Forall (fun kv => P (snd kv)) its -> P (JObj its)) ->
  forall j, P j.
Proof.
  intros HN HB HI HF HS HA HO.
  fix IH 1.
  intros [| b | z | f | s | l | its];
    [apply HN | apply HB | apply HI | apply HF | apply HS | apply HA
    | apply HO].
  - induction l as [|x l IHl]; constructor; [apply IH | exact IHl].
  - induction its as [|[k v] its IHl]; constructor; [apply IH | exact IHl].
Qed.

Lemma sortedb_insert_item kv l :
  sortedb (dict_keys l) = true ->
  sortedb (dict_keys (insert_item kv l)) = true.
Proof.
  unfold dict_keys. induction l as [|kv1 l IH]; simpl; auto.
  destruct (String.leb (fst kv) (fst kv1)) eqn:E.
  - intros H. cbn [map sortedb]. now rewrite E.
  - intros H. assert (E' : String.leb (fst kv1) (fst kv) = true).
    { destruct (String.leb_total (fst kv) (fst kv1)); congruence. }
    destruct l as [|kv2 l].
    + cbn [insert_item map sortedb]. now rewrite E'.
    + cbn [map sortedb] in H. apply andb_prop in H as [H1 H2].
      specialize (IH H2). cbn [insert_item] in *.
      destruct (String.leb (fst kv) (fst kv2)) eqn:E2;
        cbn [map sortedb] in *.
      * now rewrite E', E2.
      * now rewrite H1.
Qed.

Lemma sortedb_sorted_items l : sortedb (dict_keys (sorted_items l)) = true.
Proof.
  induction l as [|kv l IH]; simpl; auto. now apply sortedb_insert_item.
Qed.

Lemma forallb_insert_item (g : string * json -> bool) kv l :
  forallb g (insert_item kv l) = g kv && forallb g l.
Proof.
  induction l as [|kv1 l IH]; simpl; auto.
  destruct (String.leb (fst kv) (fst kv1)); simpl; auto.
  rewrite IH. destruct (g kv), (g kv1); reflexivity.
Qed.

Lemma forallb_sorted_items (g : string * json -> bool) l :
  forallb g (sorted_items l) = forallb g l.
Proof.
  induction l as [|kv l IH]; simpl; auto.
  now rewrite forallb_insert_item, IH.
Qed.

Lemma forallb_map_Forall {A B : Type} (g : B -> bool) (h : A -> B) l :
  Forall (fun x => g (h x) = true) l -> forallb g (map h l) = true.
Proof.
  induction 1 as [|x l Hx _ IH]; simpl; auto. now rewrite Hx.
Qed.

Lemma sort_keys_sorted : forall j, keys_sortedb (sort_keys j) = true.
Proof.
  induction j as [| | | | |l IH|its IH] using json_induction; auto.
  - simpl. now apply forallb_map_Forall.
  - simpl. rewrite sortedb_sorted_items, forallb_sorted_items. simpl.
    now apply forallb_map_Forall.
Qed.

(** ** What is printed *)

Lemma entry_of_printed zones out :
  Forall (fun kz => zone (snd kz) = fst kz) zones ->
  Forall2 entry_of zones out -> Forall2 printed_entry zones out.
Proof.
  intros Hf H. induction H as [|kz ko zones out [Hm (o & Ho & Hs)] _ IH];
    constructor.
  - inversion Hf as [|? ? Hz _]; subst.
    destruct (output_inv _ _ Ho) as (bb & cap & Hb & Hc & ->).
    split; [exact Hm|]. exists bb, cap. rewrite <- Hz. auto.
  - apply IH. now inversion Hf.
Qed.

(** C4 (as the code has it).  When the registry text parses and the
    aggregation completes, the script prints one document: the dictionary
    of the six entries with every object's keys sorted.  Each entry sits
    under the inverse zone code and merges the zone's row of the static
    table [STATE_BOUNDING_BOXES] and its rounded capacity totals with the
    boilerplate metadata.  (The [debug] call of line 157 serializes the
    parsed registry first; were that to raise, the run would end there.) *)
Theorem printed_entries_merge_static_box :
  forall (json_loads : string -> res json) (json_dumps : json -> res string)
         (text : string) (facilities : json) (out : list (string * json)),
    json_loads text = Ok facilities ->
    aggregate facilities = Ok out ->
    report json_loads json_dumps text =
      match json_dumps facilities with
      | Ok _ => ([Print HEADING; PrintJson (sort_keys (JObj out))], Ok tt)
      | Raise e => ([], Raise e)
      end
    /\ keys_sortedb (sort_keys (JObj out)) = true
    /\ exists entries zones,
        items facilities = Ok entries
        /\ facilities_loop zones_init entries = Ok zones
        /\ Forall2 printed_entry zones out.
Proof.
  intros json_loads json_dumps text facilities out Hp Ha.
  split; [|split].
  - unfold report, load. rewrite Hp. simpl.
    destruct (json_dumps facilities); simpl; [|reflexivity].
    now rewrite Ha.
  - apply sort_keys_sorted.
  - unfold aggregate in Ha.
    destruct (items facilities) as [entries|]; simpl in Ha; [|discriminate].
    destruct (facilities_loop zones_init entries) as [zones|] eqn:Hl;
      simpl in Ha; [|discriminate].
    exists entries, zones. split; [reflexivity|]. split; [exact Hl|].
    pose proof (facilities_loop_ok _ _ _ zones_init_ok Hl) as Hok.
    apply entry_of_printed; [apply Hok|].
    now apply json_zones_loop_inv.
Qed.

Lemma printed_entries_merge_static_box_witness :
  exists out,
    aggregate located_registry = Ok out
    /\ report (fun _ => Ok located_registry) dumps_fixture "{}" =
       ([Print HEADING; PrintJson (sort_keys (JObj out))], Ok tt).
Proof.
  destruct (aggregate located_registry) as [out|e] eqn:Ha;
    [|vm_compute in Ha; discriminate Ha].
  exists out. split; [reflexivity|].
  exact (proj1 (printed_entries_merge_static_box
                  (fun _ => Ok located_registry) dumps_fixture "{}"
                  located_registry out eq_refl Ha)).
Defined.

(** The printed box does not come from the facility data: it is the same
    for the located station as for an empty registry, namely the row of
    the static table, while the box of the zone object is still empty. *)
Lemma printed_bounding_box_is_static :
  printed_bounding_box located_registry = printed_bounding_box (JObj [])
  /\ printed_bounding_box located_registry =
     dict_index STATE_BOUNDING_BOXES "NSW1"
  /\ zone_bounding_box located_registry = Ok (box JNull JNull JNull JNull)
  /\ printed_bounding_box located_registry
     <> zone_bounding_box located_registry.
Proof.
  repeat split; try (vm_compute; reflexivity).
  vm_compute. discriminate.
Qed.

(** ** Cache and network *)

Section ScriptFacts.
Variable json_loads : string -> res json.
Variable json_dumps : json -> res string.

Lemma report_no_http text :
  http_gets (fst (report json_loads json_dumps text)) = [].
Proof.
  unfold report. destruct (load json_loads json_dumps text); reflexivity.
Qed.

Lemma fetch_http w :
  http_gets (fst (fetch json_loads json_dumps w)) = [HttpGet REGISTRY_URL].
Proof.
  unfold fetch. destruct (http_response w) as [text|e]; simpl; auto.
  destruct (cache_write w); simpl; auto.
  pose proof (report_no_http text) as H.
  destruct (report json_loads json_dumps text) as [evs r].
  simpl in *. now rewrite H.
Qed.

Lemma fetch_writes w text :
  http_response w = Ok text ->
  cache_write w = None ->
  fetch json_loads json_dumps w =
  (HttpGet REGISTRY_URL :: WriteFile CACHE_FILE text
     :: fst (report json_loads json_dumps text),
   snd (report json_loads json_dumps text)).
Proof.
  unfold fetch. intros -> ->.
  now destruct (report json_loads json_dumps text).
Qed.

(** The three ways through the cache block. *)
Lemma main_cases w :
  (exists mod_time text now then_ facilities,
      cache_file w = Some (mod_time, Ok text)
      /\ local_times w mod_time now then_
      /\ now - then_ < SEVEN_DAYS
      /\ json_loads text = Ok facilities
      /\ main json_loads json_dumps w =
         if String.eqb text "" then fetch json_loads json_dumps w
         else report json_loads json_dumps text)
  \/ (stale_or_invalid_cache json_loads w
      /\ main json_loads json_dumps w = fetch json_loads json_dumps w)
  \/ (exists e,
         cache_check_raises json_loads w e
         /\ main json_loads json_dumps w = ([], Raise e)).
Proof.
  unfold main, read_cache, stale_or_invalid_cache, cache_check_raises,
    local_times.
  destruct (cache_file w) as [[mod_time contents]|] eqn:Hc;
    [|right; left; auto].
  destruct (fromtimestamp w (clock w)) as [now|e] eqn:Hnow; simpl.
  2:{ right. right. exists e. split; [|reflexivity].
      exists mod_time, contents. auto. }
  destruct (fromtimestamp w mod_time) as [then_|e] eqn:Hthen; simpl.
  2:{ right. right. exists e. split; [|reflexivity].
      exists mod_time, contents. split; [reflexivity|].
      right. left. exists now. auto. }
  destruct (now - then_ <? SEVEN_DAYS) eqn:Hage.
  2:{ apply Z.ltb_ge in Hage. right. left. split; [|reflexivity].
      right. exists mod_time, contents, now, then_. auto. }
  apply Z.ltb_lt in Hage.
  destruct contents as [text|e]; simpl.
  2:{ right. right. exists e. split; [|reflexivity].
      exists mod_time, (Raise e). split; [reflexivity|].
      right. right. exists now, then_. auto. }
  destruct (json_loads text) as [facilities|e] eqn:Hj.
  - left. exists mod_time, text, now, then_, facilities. auto 10.
  - assert (Hother : e <> JSONDecodeError ->
              exists e0,
                (exists mod_time0 contents0,
                    Some (mod_time, Ok text) = Some (mod_time0, contents0)
                    /\ (Ok now = Raise e0
                        \/ (exists now0,
                               Ok now = Ok now0
                               /\ fromtimestamp w mod_time0 = Raise e0)
                        \/ (exists now0 then0,
                               (Ok now = Ok now0
                                /\ fromtimestamp w mod_time0 = Ok then0)
                               /\ now0 - then0 < SEVEN_DAYS
                               /\ (contents0 = Raise e0
                                   \/ exists text0,
                                       contents0 = Ok text0
                                       /\ json_loads text0 = Raise e0
                                       /\ e0 <> JSONDecodeError))))
                /\ ([], Raise e) = (@nil event, @Raise unit e0)).
    { intros Hne. exists e. split; [|reflexivity].
      exists mod_time, (Ok text). split; [reflexivity|].
      right. right. exists now, then_. split; [auto|]. split; [exact Hage|].
      right. exists text. auto. }
    destruct e; try (right; right; apply Hother; discriminate).
    right. left. split; [|reflexivity].
    right. exists mod_time, (Ok text), now, then_.
    split; [reflexivity|]. split; [auto|]. right. exists text. auto.
Qed.

(** The three ways exclude one another. *)
Lemma fresh_not_stale w :
  fresh_valid_cache json_loads w -> ~ stale_or_invalid_cache json_loads w.
Proof.
  intros (m & text & now & then_ & j & Hc & [Hn Ht] & Hage & Hj) [H|H].
  - congruence.
  - destruct H as (m' & c' & now' & then' & Hc' & [Hn' Ht'] & H).
    rewrite Hc in Hc'. injection Hc' as <- <-.
    rewrite Hn in Hn'. injection Hn' as <-.
    rewrite Ht in Ht'. injection Ht' as <-.
    destruct H as [H|(text' & [= <-] & Hj')]; [lia|congruence].
Qed.
End ScriptFacts.





(** C6.  A run sends at most one request, and it is the GET of the
    registry URL. *)
Theorem at_most_one_http_get :
  forall (json_loads : string -> res json) (json_dumps : json -> res string)
         (w : World),
    http_gets (fst (main json_loads json_dumps w)) = []
    \/ http_gets (fst (main json_loads json_dumps w)) =
       [HttpGet REGISTRY_URL].
Proof.
  intros json_loads json_dumps w.
  destruct (main_cases json_loads json_dumps w)
    as [(m & text & now & then_ & j & _ & _ & _ & _ & Hm)
       |[[_ Hm]|(e & _ & Hm)]]; rewrite Hm.
  - destruct (String.eqb text "").
    + right. apply fetch_http.
    + left. apply report_no_http.
  - right. apply fetch_http.
  - left. reflexivity.
Qed.

(** ** The totals as sums over the contributing DUIDs *)

Lemma normalized_fuel_tech_none s :
  normalized_fuel_tech s = None ->
  (String.eqb s "battery_charging" || String.eqb s "pumps") = true.
Proof.
  unfold normalized_fuel_tech.
  destruct (String.eqb s "battery_charging" || String.eqb s "pumps"); auto.
  intros Hn.
  repeat match type of Hn with
         | (if ?b then _ else _) = None => destruct b; try discriminate
         end.
Qed.

Lemma normalized_fuel_tech_some s k :
  normalized_fuel_tech s = Some k ->
  (String.eqb s "battery_charging" || String.eqb s "pumps") = false.
Proof.
  unfold normalized_fuel_tech.
  destruct (String.eqb s "battery_charging" || String.eqb s "pumps"); auto.
  discriminate.
Qed.

(** What a completed iteration of the DUID loop did. *)
Lemma update_capacity_step_inv cap gen cap' :
  update_capacity_step cap gen = Ok cap' ->
  (cap' = cap /\ forall fuel, counted_under fuel gen = false)
  \/ exists s k rc d total,
      get_fuel_tech (snd gen) = Ok (JStr s)
      /\ normalized_fuel_tech s = Some k
      /\ subscript (snd gen) "registered_capacity" = Ok rc
      /\ Decimal_of rc = Ok d
      /\ Decimal_add (capacity_get cap k) d = Ok total
      /\ cap' = dict_set cap k total.
Proof.
  unfold update_capacity_step, counted_under.
  destruct (get_fuel_tech (snd gen)) as [ft|]; simpl; [|discriminate].
  destruct ft as [| | | |s| |]; try discriminate.
  { intros [= <-]. left. auto. }
  destruct (normalized_fuel_tech s) as [k|] eqn:Hn.
  - rewrite (normalized_fuel_tech_some _ _ Hn).
    rewrite (rename_gen_type_normalized _ _ Hn).
    destruct (subscript (snd gen) "registered_capacity") as [rc|] eqn:H1;
      simpl; [|discriminate].
    destruct (Decimal_of rc) as [d|] eqn:H2; simpl; [|discriminate].
    destruct (Decimal_add (capacity_get cap k) d) as [total|] eqn:H3;
      simpl; [|discriminate].
    intros [= <-]. right. exists s, k, rc, d, total. auto 10.
  - rewrite (normalized_fuel_tech_none _ Hn). intros [= <-]. left. auto.
Qed.

Lemma capacity_get_set cap k total fuel :
  capacity_get (dict_set cap k total) fuel =
  if String.eqb k fuel then total else capacity_get cap fuel.
Proof.
  unfold capacity_get. destruct (String.eqb k fuel) eqn:E.
  - apply String.eqb_eq in E. subst. now rewrite dict_get_set_same.
  - apply String.eqb_neq in E. rewrite dict_get_set_other; auto.
Qed.

Lemma update_capacity_loop_fuel_total fuel gens : forall cap cap',
  update_capacity_loop cap gens = Ok cap' ->
  fuel_total fuel (capacity_get cap fuel) gens = Ok (capacity_get cap' fuel).
Proof.
  induction gens as [|gen gens IH]; intros cap cap'; simpl.
  - now intros [= <-].
  - destruct (update_capacity_step cap gen) as [cap1|] eqn:Hs; simpl;
      [|discriminate].
    intros Hl. specialize (IH _ _ Hl).
    destruct (update_capacity_step_inv _ _ _ Hs)
      as [[-> Hc]|(s & k & rc & d & total & Hft & Hn & H1 & H2 & H3 & ->)].
    + now rewrite Hc.
    + rewrite capacity_get_set in IH.
      unfold counted_under. rewrite Hft, Hn.
      destruct (String.eqb k fuel) eqn:E; auto.
      apply String.eqb_eq in E. subst k.
      rewrite H1. simpl. rewrite H2. simpl. now rewrite H3.
Qed.

Lemma facility_gens_not_commissioned k facility state :
  facility_state facility = Ok state -> is_commissioned state = false ->
  facility_gens k facility = [].
Proof.
  intros Hs Hc. unfold facility_gens. rewrite Hs, Hc. simpl.
  destruct (subscript facility "region_id") as [[| | | |r| |]|]; auto.
  destruct (subscript facility "duid_data") as [[| | | | | |gens]|]; auto.
Qed.

Lemma facility_gens_commissioned k facility r gens :
  facility_state facility = Ok (JStr "Commissioned") ->
  subscript facility "region_id" = Ok (JStr r) ->
  subscript facility "duid_data" = Ok (JObj gens) ->
  facility_gens k facility = if String.eqb r k then gens else [].
Proof.
  intros Hs Hr Hd. unfold facility_gens. now rewrite Hs, Hr, Hd.
Qed.

(** The capacity table of a zone after the loop is the DUID loop run over
    the DUIDs that count for the zone. *)
Lemma facilities_loop_zone_gens entries : forall zones zones' k z,
  Forall (fun kz => zone (snd kz) = fst kz) zones ->
  facilities_loop zones entries = Ok zones' ->
  dict_get zones k = Some z ->
  exists z', dict_get zones' k = Some z'
             /\ update_capacity_loop (capacity z) (zone_gens k entries) =
                Ok (capacity z').
Proof.
  induction entries as [|entry entries IH]; intros zones zones' k z Hf; simpl.
  - intros [= <-] Hz. exists z. auto.
  - destruct (facility_step zones entry) as [zones1|] eqn:Hs; simpl;
      [|discriminate].
    intros Hl Hz.
    destruct (facility_step_inv _ _ _ Hs)
      as [[-> (state & Hst & Hc)]
         |(r & z0 & gens & cap' & Hr & Hst & Hd & Hz0 & Hg & ->)].
    + rewrite (facility_gens_not_commissioned _ _ _ Hst Hc). simpl.
      eapply IH; eauto.
    + pose proof (dict_get_Forall _ _ _ _ Hf Hz0) as Hown. simpl in Hown.
      remember (mkZone (zone z0) (bounding_box z0) cap') as z1 eqn:Hz1.
      assert (Hc1 : capacity z1 = cap') by (now subst z1).
      assert (Hown1 : zone z1 = r) by (now subst z1).
      clear Hz1. rewrite Hown in Hl.
      assert (Hf1 : Forall (fun kz => zone (snd kz) = fst kz)
                      (dict_set zones r z1))
        by (apply Forall_dict_set; auto).
      rewrite (facility_gens_commissioned _ _ _ _ Hst Hr Hd).
      destruct (String.eqb r k) eqn:E.
      * apply String.eqb_eq in E. subst k.
        assert (Hzz : z0 = z) by congruence. subst z0.
        destruct (IH _ _ r _ Hf1 Hl (dict_get_set_same _ _ _))
          as (z' & Hz' & Hloop).
        exists z'. split; [exact Hz'|].
        rewrite update_capacity_loop_app, Hg. simpl.
        now rewrite Hc1 in Hloop.
      * apply String.eqb_neq in E.
        apply (IH _ _ k z Hf1 Hl). rewrite dict_get_set_other; auto.
Qed.

(** *** Keys stay distinct *)

Lemma dict_get_none_absent {V : Type} (d : list (string * V)) k :
  dict_get d k = None -> ~ In k (dict_keys d).
Proof.
  unfold dict_keys. induction d as [|[k' v'] d IH]; simpl; auto.
  destruct (String.eqb k' k) eqn:E; [discriminate|].
  apply String.eqb_neq in E. intros Hn [H|H]; [auto | now apply IH].
Qed.

Lemma NoDup_dict_set {V : Type} (d : list (string * V)) k v :
  NoDup (dict_keys d) -> NoDup (dict_keys (dict_set d k v)).
Proof.
  intros Hd. destruct (dict_get d k) as [v0|] eqn:Hg.
  - now rewrite (dict_keys_set_present _ _ _ _ Hg).
  - rewrite (dict_keys_set_absent _ _ _ Hg).
    apply NoDup_rev in Hd. rewrite <- (rev_involutive (_ ++ _)).
    apply NoDup_rev. rewrite rev_app_distr. simpl. constructor; auto.
    rewrite <- in_rev. now apply dict_get_none_absent.
Qed.

Lemma update_capacity_loop_NoDup gens : forall cap cap',
  NoDup (dict_keys cap) -> update_capacity_loop cap gens = Ok cap' ->
  NoDup (dict_keys cap').
Proof.
  induction gens as [|gen gens IH]; intros cap cap' Hn; simpl.
  - now intros [= <-].
  - destruct (update_capacity_step cap gen) as [cap1|] eqn:Hs; simpl;
      [|discriminate].
    apply IH.
    destruct (update_capacity_step_inv _ _ _ Hs)
      as [[-> _]|(s & k & rc & d & total & _ & _ & _ & _ & _ & ->)]; auto.
    now apply NoDup_dict_set.
Qed.

(** *** What is printed for a total *)

Lemma rounded_capacity_keeps cap : forall acc out k,
  rounded_capacity acc cap = Ok out ->
  ~ In k (dict_keys cap) ->
  dict_get out k = dict_get acc k.
Proof.
  induction cap as [|[k0 v0] cap IH]; intros acc out k; simpl.
  - now intros [= <-].
  - destruct (float_of_Decimal v0) as [f0|]; simpl; [|discriminate].
    intros Hr Hn. rewrite (IH _ _ _ Hr); [|tauto].
    apply dict_get_set_other. intros ->. tauto.
Qed.

Lemma rounded_capacity_get cap : forall acc out k v,
  NoDup (dict_keys cap) ->
  rounded_capacity acc cap = Ok out ->
  dict_get cap k = Some v ->
  exists f, float_of_Decimal v = Ok f
            /\ dict_get out k = Some (JFloat (round2 f)).
Proof.
  induction cap as [|[k0 v0] cap IH]; intros acc out k v Hn; simpl;
    [discriminate|].
  inversion Hn as [|? ? Hk0 Hrest]; subst.
  destruct (float_of_Decimal v0) as [f0|] eqn:Hf0; simpl; [|discriminate].
  intros Hr. destruct (String.eqb k0 k) eqn:E.
  - apply String.eqb_eq in E. subst k0. intros [= <-].
    exists f0. split; [exact Hf0|].
    rewrite (rounded_capacity_keeps _ _ _ _ Hr Hk0).
    apply dict_get_set_same.
  - intros Hg. eapply IH; eauto.
Qed.

Lemma zones_init_get k :
  In k zone_codes -> dict_get zones_init k = Some (OpenNEMZone_init k).
Proof.
  simpl. intros Hk. repeat destruct Hk as [<-|Hk]; try reflexivity.
  destruct Hk.
Qed.

(** ** Every DUID and every facility of the registry *)

Lemma dict_keys_set_In {V : Type} (d : list (string * V)) k v key :
  In key (dict_keys (dict_set d k v)) -> key = k \/ In key (dict_keys d).
Proof.
  destruct (dict_get d k) as [v0|] eqn:Hg.
  - rewrite (dict_keys_set_present _ _ _ _ Hg). auto.
  - rewrite (dict_keys_set_absent _ _ _ Hg). intros H.
    apply in_app_or in H as [H|[H|[]]]; auto.
Qed.

(** Every key of the table after the DUID loop was there before or is the
    normalised name of one of the DUIDs. *)
Lemma update_capacity_loop_keys gens : forall cap cap' key,
  update_capacity_loop cap gens = Ok cap' ->
  In key (dict_keys cap') ->
  In key (dict_keys cap)
  \/ exists gen s,
      In gen gens
      /\ get_fuel_tech (snd gen) = Ok (JStr s)
      /\ normalized_fuel_tech s = Some key.
Proof.
  induction gens as [|gen gens IH]; intros cap cap' key; simpl.
  - intros [= <-]. auto.
  - destruct (update_capacity_step cap gen) as [cap1|] eqn:Hs; simpl;
      [|discriminate].
    intros Hl Hin.
    destruct (IH _ _ _ Hl Hin) as [H|(g & s & Hg & Hft & Hn)].
    + destruct (update_capacity_step_inv _ _ _ Hs)
        as [[-> _]|(s & k & rc & d & total & Hft & Hn & _ & _ & _ & ->)];
        auto.
      apply dict_keys_set_In in H as [->|H]; auto.
      right. exists gen, s. auto.
    + right. exists g, s. auto.
Qed.

(** C1.  [update_capacity] files every DUID entry under the normalised
    fuel type.  For an entry anywhere in the DUID data whose fuel_tech is
    the string [s]: when [s] is [battery_charging] or [pumps] the call
    behaves exactly as if the entry were not there; otherwise, with [k]
    the name ["gas"], ["biomass"], ["oil"], ["battery storage"] or [s]
    itself, as the table [normalized_fuel_tech] says, the entry's
    registered capacity is added to the total kept under [k] as the
    entries before it left it, and the remaining entries are processed
    from there.  In the table of a completed call the total of every fuel
    type is the sum, in order, of the entries normalised to it, and every
    key was there before the call or is the normalised name of an
    entry. *)
Theorem update_capacity_counts_normalized_fuel :
  forall (self : OpenNEMZone) (pre post : list (string * json))
         (gen : string * json) (s : string),
    get_fuel_tech (snd gen) = Ok (JStr s) ->
    match normalized_fuel_tech s with
    | None =>
        update_capacity self (JObj (pre ++ gen :: post)) =
        update_capacity self (JObj (pre ++ post))
    | Some k =>
        update_capacity self (JObj (pre ++ gen :: post)) =
        (let* cap1 := update_capacity_loop (capacity self) pre in
         let* rc := subscript (snd gen) "registered_capacity" in
         let* d := Decimal_of rc in
         let* total := Decimal_add (capacity_get cap1 k) d in
         let* cap2 := update_capacity_loop (dict_set cap1 k total) post in
         Ok (mkZone (zone self) (bounding_box self) cap2))
    end
    /\ forall self',
        update_capacity self (JObj (pre ++ gen :: post)) = Ok self' ->
        zone self' = zone self
        /\ bounding_box self' = bounding_box self
        /\ (forall fuel,
               fuel_total fuel (capacity_get (capacity self) fuel)
                          (pre ++ gen :: post) =
               Ok (capacity_get (capacity self') fuel))
        /\ (forall key,
               In key (dict_keys (capacity self')) ->
               In key (dict_keys (capacity self))
               \/ exists gen' s',
                   In gen' (pre ++ gen :: post)
                   /\ get_fuel_tech (snd gen') = Ok (JStr s')
                   /\ normalized_fuel_tech s' = Some key).
Proof.
  intros self pre post gen s Hft. split.
  - pose proof (update_capacity_step_normalized) as Hstep.
    unfold update_capacity. simpl. rewrite !update_capacity_loop_app.
    destruct (normalized_fuel_tech s) as [k|] eqn:Hn.
    + destruct (update_capacity_loop (capacity self) pre) as [cap1|e];
        simpl; [|reflexivity].
      assert (Hs : update_capacity_step cap1 gen =
                   (let* rc := subscript (snd gen) "registered_capacity" in
                    let* d := Decimal_of rc in
                    let* total := Decimal_add (capacity_get cap1 k) d in
                    Ok (dict_set cap1 k total))).
      { unfold update_capacity_step. rewrite Hft. simpl.
        rewrite (normalized_fuel_tech_some _ _ Hn).
        now rewrite (rename_gen_type_normalized _ _ Hn). }
      rewrite Hs.
      destruct (subscript (snd gen) "registered_capacity") as [rc|];
        simpl; [|reflexivity].
      destruct (Decimal_of rc) as [d|]; simpl; [|reflexivity].
      destruct (Decimal_add (capacity_get cap1 k) d) as [total|]; simpl;
        reflexivity.
    + destruct (update_capacity_loop (capacity self) pre) as [cap1|e];
        simpl; [|reflexivity].
      specialize (Hstep cap1 gen s Hft). rewrite Hn in Hstep.
      now rewrite Hstep.
  - intros self'. unfold update_capacity. simpl.
    destruct (update_capacity_loop (capacity self) (pre ++ gen :: post))
      as [cap'|] eqn:Hl; simpl; [|discriminate].
    intros [= <-]. simpl.
    split; [reflexivity|]. split; [reflexivity|]. split.
    + intros fuel. now apply update_capacity_loop_fuel_total.
    + intros key. now apply update_capacity_loop_keys.
Qed.

Lemma update_capacity_counts_normalized_fuel_witness :
  update_capacity (OpenNEMZone_init "SA1")
    (JObj ([gas_ocgt_unit]
             ++ ("G2", JObj [("fuel_tech", JStr "gas_ccgt");
                             ("registered_capacity", JInt 7)])
             :: [("P1", JObj [("fuel_tech", JStr "pumps");
                              ("registered_capacity", JInt 9)])])) =
  Ok (mkZone "SA1" (box JNull JNull JNull JNull)
             [("gas", DFinite false 12 0)]).
Proof.
  refine (eq_trans
            (proj1 (update_capacity_counts_normalized_fuel
                      (OpenNEMZone_init "SA1") [gas_ocgt_unit]
                      [("P1", JObj [("fuel_tech", JStr "pumps");
                                    ("registered_capacity", JInt 9)])]
                      ("G2", JObj [("fuel_tech", JStr "gas_ccgt");
                                   ("registered_capacity", JInt 7)])
                      "gas_ccgt" eq_refl)) _).
  vm_compute. reflexivity.
Defined.

(** One step of the loop on a record with the keys the loop reads. *)
Lemma facility_step_eq zones code facility state duid_data region :
  facility_state facility = Ok state ->
  subscript facility "duid_data" = Ok duid_data ->
  subscript facility "region_id" = Ok region ->
  facility_step zones (code, facility) =
  if is_commissioned state then
    let* z := zones_index zones region in
    let* _ := subscript facility "station_id" in
    let* z' := update_capacity z duid_data in
    Ok (dict_set zones (zone z) z')
  else Ok zones.
Proof.
  intros Hs Hd Hr. unfold facility_state in Hs.
  destruct (subscript facility "status") as [status|] eqn:Hst;
    simpl in Hs; [|discriminate].
  unfold facility_step. simpl. rewrite Hd, Hst. simpl. rewrite Hs. simpl.
  rewrite Hr. simpl.
  destruct (is_commissioned state).
  - destruct (zones_index zones region) as [z|]; simpl; [|reflexivity].
    unfold update_from_facility_data.
    destruct (subscript facility "station_id"); simpl; [|reflexivity].
    rewrite Hd. simpl. reflexivity.
  - reflexivity.
Qed.

(** C2.  Only commissioned facilities are counted, whole registry through.
    A record anywhere in the registry whose status state is not
    ['Commissioned'] contributes nothing: the loop over the registry, and
    so the whole aggregation, gives what it gives without the record.  A
    record whose state is ['Commissioned'] has its DUID data processed by
    [update_capacity] on the zone named by its ['region_id'], as the
    records before it left that zone; and when the loop completes, the
    table of every zone is the DUID loop run from the empty table over the
    DUIDs of the counted records before it, then its own DUIDs if the zone
    is its own, then those of the counted records after it. *)
Theorem registry_counts_commissioned_only :
  forall (pre post : list (string * json)) (code : string)
         (facility state duid_data region : json),
    facility_state facility = Ok state ->
    subscript facility "duid_data" = Ok duid_data ->
    subscript facility "region_id" = Ok region ->
    (state <> JStr "Commissioned" ->
     (forall k, facility_gens k facility = [])
     /\ facilities_loop zones_init (pre ++ (code, facility) :: post) =
        facilities_loop zones_init (pre ++ post)
     /\ aggregate (JObj (pre ++ (code, facility) :: post)) =
        aggregate (JObj (pre ++ post)))
    /\ (state = JStr "Commissioned" ->
        facilities_loop zones_init (pre ++ (code, facility) :: post) =
        (let* zones1 := facilities_loop zones_init pre in
         let* z := zones_index zones1 region in
         let* _ := subscript facility "station_id" in
         let* z' := update_capacity z duid_data in
         facilities_loop (dict_set zones1 (zone z) z') post)
        /\ forall zones,
            facilities_loop zones_init (pre ++ (code, facility) :: post) =
            Ok zones ->
            exists r gens,
              region = JStr r
              /\ duid_data = JObj gens
              /\ In r zone_codes
              /\ forall k z,
                  dict_get zones k = Some z ->
                  update_capacity_loop []
                    (zone_gens k pre
                       ++ (if String.eqb r k then gens else [])
                       ++ zone_gens k post) =
                  Ok (capacity z)).
Proof.
  intros pre post code facility state duid_data region Hs Hd Hr.
  assert (Hstep : forall zones,
             facility_step zones (code, facility) =
             if is_commissioned state then
               let* z := zones_index zones region in
               let* _ := subscript facility "station_id" in
               let* z' := update_capacity z duid_data in
               Ok (dict_set zones (zone z) z')
             else Ok zones).
  { intros zones. now apply facility_step_eq. }
  split.
  - intros Hne. apply is_commissioned_false in Hne.
    assert (Hloop : facilities_loop zones_init (pre ++ (code, facility) :: post)
                    = facilities_loop zones_init (pre ++ post)).
    { rewrite !facilities_loop_app.
      destruct (facilities_loop zones_init pre) as [zones1|]; simpl;
        [|reflexivity].
      now rewrite Hstep, Hne. }
    split; [|split].
    + intros k. eapply facility_gens_not_commissioned; eauto.
    + exact Hloop.
    + unfold aggregate. simpl. now rewrite Hloop.
  - intros Heq. pose proof Heq as Hc. apply is_commissioned_true in Hc.
    split.
    + rewrite facilities_loop_app.
      destruct (facilities_loop zones_init pre) as [zones1|]; simpl;
        [|reflexivity].
      rewrite Hstep, Hc.
      destruct (zones_index zones1 region) as [z|]; simpl; [|reflexivity].
      destruct (subscript facility "station_id"); simpl; [|reflexivity].
      destruct (update_capacity z duid_data); reflexivity.
    + intros zones Hl. pose proof Hl as Hl'.
      rewrite facilities_loop_app in Hl'.
      destruct (facilities_loop zones_init pre) as [zones1|] eqn:Hpre;
        simpl in Hl'; [|discriminate].
      destruct (facility_step zones1 (code, facility)) as [zones2|] eqn:Hst;
        simpl in Hl'; [|discriminate].
      destruct (facility_step_inv _ _ _ Hst)
        as [[_ (state' & Hs' & Hc')]
           |(r & z0 & gens & cap' & Hr' & Hs' & Hd' & Hz0 & _ & _)];
        cbn [snd] in *.
      { rewrite Hs in Hs'. injection Hs' as <-. congruence. }
      rewrite Hr in Hr'. injection Hr' as ->.
      rewrite Hd in Hd'. injection Hd' as ->.
      exists r, gens. split; [reflexivity|]. split; [reflexivity|].
      pose proof (facilities_loop_ok _ _ _ zones_init_ok Hpre) as [Hk1 _].
      split.
      { rewrite <- Hk1. eapply dict_get_In; eauto. }
      intros k z Hz.
      pose proof (facilities_loop_ok _ _ _ zones_init_ok Hl) as [Hk _].
      assert (Hin : In k zone_codes).
      { rewrite <- Hk. eapply dict_get_In; eauto. }
      destruct (facilities_loop_zone_gens _ _ _ _ _
                  (proj2 zones_init_ok) Hl (zones_init_get _ Hin))
        as (z' & Hz' & Hloop).
      assert (z' = z) by congruence. subst z'.
      unfold zone_gens in *. rewrite flat_map_app in Hloop. simpl in Hloop.
      subst state.
      rewrite (facility_gens_commissioned _ _ _ _ Hs Hr Hd) in Hloop.
      exact Hloop.
Qed.

Lemma registry_counts_commissioned_only_witness :
  facilities_loop zones_init
    ([("F0", facility_of "Commissioned" "SA1" [gas_ocgt_unit])]
       ++ ("F1", facility_of "Retired" "SA1" [gas_ocgt_unit])
       :: [("F2", facility_of "Commissioned" "SA1" [gas_ocgt_unit])]) =
  Ok (dict_set zones_init "SA1"
        (mkZone "SA1" (box JNull JNull JNull JNull)
                [("gas", DFinite false 10 0)])).
Proof.
  refine (eq_trans
            (proj1 (proj2 (proj1 (registry_counts_commissioned_only
                      [("F0", facility_of "Commissioned" "SA1" [gas_ocgt_unit])]
                      [("F2", facility_of "Commissioned" "SA1" [gas_ocgt_unit])]
                      "F1" (facility_of "Retired" "SA1" [gas_ocgt_unit])
                      (JStr "Retired") (JObj [gas_ocgt_unit]) (JStr "SA1")
                      eq_refl eq_refl eq_refl) _))) _).
  - discriminate.
  - vm_compute. reflexivity.
Defined.

(** C3 (as the code has it).  For every zone and fuel type the stored
    total is the registered capacities of the contributing DUIDs, each
    converted exactly, added in registry order with the context addition
    (every partial sum rounded half to even to 28 significant digits);
    the printed value is that total converted to the nearest float and
    then rounded to two places. *)
Theorem capacity_is_context_sum_then_rounded :
  forall (entries : list (string * json)) (zones : list (string * OpenNEMZone))
         (k : string) (z : OpenNEMZone) (fuel : string) (total : Decimal),
    facilities_loop zones_init entries = Ok zones ->
    dict_get zones k = Some z ->
    dict_get (capacity z) fuel = Some total ->
    fuel_total fuel Decimal_zero (zone_gens k entries) = Ok total
    /\ exists f o cap,
        float_of_Decimal total = Ok f
        /\ output z = Ok o
        /\ dict_get o "capacity" = Some (JObj cap)
        /\ dict_get cap fuel = Some (JFloat (round2 f)).
Proof.
  intros entries zones k z fuel total Hl Hz Ht.
  pose proof (facilities_loop_ok _ _ _ zones_init_ok Hl) as [Hk Hf].
  assert (Hin : In k zone_codes).
  { rewrite <- Hk. eapply dict_get_In; eauto. }
  destruct (facilities_loop_zone_gens entries _ _ _ _
              (proj2 zones_init_ok) Hl (zones_init_get _ Hin))
    as (z' & Hz' & Hloop).
  assert (z' = z) by congruence. subst z'. simpl in Hloop.
  split.
  - pose proof (update_capacity_loop_fuel_total fuel _ _ _ Hloop) as H.
    unfold capacity_get in H. simpl in H. now rewrite Ht in H.
  - assert (Hn : NoDup (dict_keys (capacity z))).
    { eapply update_capacity_loop_NoDup; [|exact Hloop]. constructor. }
    pose proof (facilities_loop_quiet _ _ _ zones_init_quiet Hl) as Hq.
    pose proof (dict_get_Forall _ _ _ _ Hf Hz) as Hown. simpl in Hown.
    destruct (output_total z) as [o Ho].
    { rewrite Hown. simpl in Hin. simpl. tauto. }
    { apply (dict_get_Forall _ _ _ _ Hq Hz). }
    destruct (output_inv _ _ Ho) as (bb & cap & _ & Hc & ->).
    destruct (rounded_capacity_get _ _ _ _ _ Hn Hc Ht) as (f & Hf' & Hg).
    exists f, (("bounding_box", bb) :: ("capacity", JObj cap)
               :: ZONE_BOILERPLATE), cap.
    auto.
Qed.

Lemma capacity_is_context_sum_then_rounded_witness :
  fuel_total "wind" Decimal_zero (zone_gens "SA1" tie_entries) =
  Ok (DFinite false 1250000000000000069388939039 (-28)).
Proof.
  refine (proj1 (capacity_is_context_sum_then_rounded
                   tie_entries _ "SA1" _ "wind" _ _ _ _)).
  - vm_compute. reflexivity.
  - vm_compute. reflexivity.
  - vm_compute. reflexivity.
Defined.

(** The stored total is not the exact sum, and the printed value is not
    the exact sum rounded to two places: 0.1 and 0.025 add up to a little
    more than 0.125, which rounds to 0.13, while the script prints 0.12. *)
Lemma printed_total_is_not_exact_sum_rounded :
  fuel_total "wind" Decimal_zero (zone_gens "SA1" tie_entries) =
    Ok (DFinite false 1250000000000000069388939039 (-28))
  /\ exact_sum tie_capacities =
     (125000000000000006938893903907228377647697925567626953125, -57)
  /\ printed_capacity tie_registry "AUS-SA" "wind" =
     Ok (JFloat (round_to_double false 12 100))
  /\ exact_rounded2 (exact_sum tie_capacities) = round_to_double false 13 100
  /\ printed_capacity tie_registry "AUS-SA" "wind"
     <> Ok (JFloat (exact_rounded2 (exact_sum tie_capacities))).
Proof.
  repeat split; try (vm_compute; reflexivity).
  vm_compute. discriminate.
Qed.

(** * Further properties *)

(** ** [update_bounds] *)

Lemma float_lt_irrefl a : float_lt a a = false.
Proof.
  destruct a as [s m e|s|]; simpl; auto.
  - apply Z.ltb_irrefl.
  - now destruct s.
Qed.

Lemma float_lt_asym a b : float_lt a b = true -> float_lt b a = false.
Proof.
  destruct a as [sa ma ea|sa|], b as [sb mb eb|sb|]; simpl; auto.
  - rewrite (Z.min_comm eb ea). intros H. apply Z.ltb_lt in H.
    apply Z.ltb_ge. lia.
  - now destruct sb.
  - now destruct sa.
  - now destruct sa, sb.
Qed.

Lemma py_lt_numeric x y a b :
  numeric x = Some a -> numeric y = Some b -> py_lt x y = Ok (float_lt a b).
Proof.
  destruct x, y; simpl; try discriminate; now intros [= <-] [= <-].
Qed.

Lemma string_ltb_irrefl s : String.ltb s s = false.
Proof.
  unfold String.ltb. pose proof (String.compare_antisym s s) as H.
  destruct (String.compare s s); simpl in H; congruence.
Qed.

Lemma py_lt_scalar_irrefl x : scalar x = true -> py_lt x x = Ok false.
Proof.
  destruct x; simpl; try discriminate; intros _;
    try (now rewrite ?Z.ltb_irrefl).
  - now rewrite float_lt_irrefl.
  - now rewrite string_ltb_irrefl.
Qed.

Lemma real_numeric x : real x = true -> exists a, numeric x = Some a.
Proof. unfold real. destruct (numeric x); eauto. discriminate. Qed.

Lemma real_not_none x : real x = true -> is_none x = false.
Proof. now destruct x. Qed.

Lemma real_scalar x : real x = true -> scalar x = true.
Proof. now destruct x. Qed.

Lemma expand_real lo hi x :
  bound lo = true -> bound hi = true -> real x = true ->
  exists lo' hi',
    expand lo hi x = Ok (lo', hi')
    /\ real lo' = true /\ real hi' = true
    /\ not_below x lo' /\ not_below hi' x
    /\ (is_none lo = false -> not_below lo lo')
    /\ (is_none hi = false -> not_below hi' hi).
Proof.
  intros Hlo Hhi Hx. unfold expand, py_gt, not_below.
  rewrite (real_not_none _ Hx).
  pose proof (py_lt_scalar_irrefl _ (real_scalar _ Hx)) as Hxx.
  destruct (real_numeric _ Hx) as [a Ha].
  assert (Hlow : exists lo',
             (let* below := if is_none lo then Ok true else py_lt x lo in
              Ok (if below then x else lo)) = Ok lo'
             /\ real lo' = true /\ py_lt x lo' = Ok false
             /\ (is_none lo = false -> py_lt lo lo' = Ok false)).
  { unfold bound in Hlo. destruct (is_none lo) eqn:Hn; simpl.
    - exists x. repeat split; auto. discriminate.
    - simpl in Hlo. destruct (real_numeric _ Hlo) as [b Hb].
      pose proof (py_lt_scalar_irrefl _ (real_scalar _ Hlo)) as Hll.
      rewrite (py_lt_numeric _ _ _ _ Ha Hb). simpl.
      destruct (float_lt a b) eqn:Hab.
      + exists x. repeat split; auto. intros _.
        rewrite (py_lt_numeric _ _ _ _ Hb Ha).
        now rewrite (float_lt_asym _ _ Hab).
      + exists lo. repeat split; auto.
        now rewrite (py_lt_numeric _ _ _ _ Ha Hb), Hab. }
  assert (Hhigh : exists hi',
             (let* above := if is_none hi then Ok true else py_lt hi x in
              Ok (if above then x else hi)) = Ok hi'
             /\ real hi' = true /\ py_lt hi' x = Ok false
             /\ (is_none hi = false -> py_lt hi' hi = Ok false)).
  { unfold bound in Hhi. destruct (is_none hi) eqn:Hn; simpl.
    - exists x. repeat split; auto. discriminate.
    - simpl in Hhi. destruct (real_numeric _ Hhi) as [b Hb].
      pose proof (py_lt_scalar_irrefl _ (real_scalar _ Hhi)) as Hhh.
      rewrite (py_lt_numeric _ _ _ _ Hb Ha). simpl.
      destruct (float_lt b a) eqn:Hba.
      + exists x. repeat split; auto. intros _.
        rewrite (py_lt_numeric _ _ _ _ Ha Hb).
        now rewrite (float_lt_asym _ _ Hba).
      + exists hi. repeat split; auto.
        now rewrite (py_lt_numeric _ _ _ _ Hb Ha), Hba. }
  destruct Hlow as (lo' & El & Rl & Cl & Gl).
  destruct Hhigh as (hi' & Eh & Rh & Ch & Gh).
  exists lo', hi'.
  destruct (if is_none lo then Ok true else py_lt x lo) as [below|];
    simpl in El; [|discriminate].
  injection El as <-. simpl.
  destruct (if is_none hi then Ok true else py_lt hi x) as [above|];
    simpl in Eh; [|discriminate].
  injection Eh as <-. simpl. auto 10.
Qed.

Lemma expand_again lo hi x lo' hi' :
  is_none x = true \/ scalar x = true ->
  expand lo hi x = Ok (lo', hi') ->
  expand lo' hi' x = Ok (lo', hi').
Proof.
  unfold expand, py_gt. intros [Hx|Hx].
  - rewrite Hx. now intros [= <- <-].
  - assert (Hn : is_none x = false) by (now destruct x).
    rewrite Hn. pose proof (py_lt_scalar_irrefl _ Hx) as Hxx.
    destruct (if is_none lo then Ok true else py_lt x lo) as [below|] eqn:El;
      simpl; [|discriminate].
    destruct (if is_none hi then Ok true else py_lt hi x) as [above|] eqn:Eh;
      simpl; [|discriminate].
    intros [= <- <-].
    assert (Hl : (if is_none (if below then x else lo) then Ok true
                  else py_lt x (if below then x else lo)) = Ok false).
    { destruct below; [now rewrite Hn|].
      destruct (is_none lo); [discriminate|exact El]. }
    assert (Hh : (if is_none (if above then x else hi) then Ok true
                  else py_lt (if above then x else hi) x) = Ok false).
    { destruct above; [now rewrite Hn|].
      destruct (is_none hi); [discriminate|exact Eh]. }
    rewrite Hl. simpl. rewrite Hh. reflexivity.
Qed.

(** X1.  [update_bounds] with numbers: on a box whose bounds are unset or
    numbers, a location with numeric latitude and longitude (no NaN)
    always succeeds; the new box holds the location (south <= latitude <=
    north, west <= longitude <= east), every bound that was set has only
    moved outwards, and zone name and capacities are untouched. *)
Theorem update_bounds_contains_location :
  forall (z : OpenNEMZone) (w s e n loc lat lon : json),
    bounding_box z = box w s e n ->
    bound w = true -> bound s = true -> bound e = true -> bound n = true ->
    subscript loc "latitude" = Ok lat ->
    subscript loc "longitude" = Ok lon ->
    real lat = true -> real lon = true ->
    exists w' s' e' n',
      update_bounds z loc =
        Ok (mkZone (zone z) (box w' s' e' n') (capacity z))
      /\ (not_below lat s' /\ not_below n' lat)
      /\ (not_below lon w' /\ not_below e' lon)
      /\ (is_none s = false -> not_below s s')
      /\ (is_none n = false -> not_below n' n)
      /\ (is_none w = false -> not_below w w')
      /\ (is_none e = false -> not_below e' e)
      /\ bound w' = true /\ bound s' = true
      /\ bound e' = true /\ bound n' = true.
Proof.
  intros z w s e n loc lat lon Hb Hw Hs He Hn Hlat Hlon Rlat Rlon.
  destruct (expand_real s n lat Hs Hn Rlat)
    as (s' & n' & E1 & Rs & Rn & C1 & C2 & G1 & G2).
  destruct (expand_real w e lon Hw He Rlon)
    as (w' & e' & E2 & Rw & Re & C3 & C4 & G3 & G4).
  exists w', s', e', n'.
  unfold update_bounds. rewrite Hb. unfold box. rewrite Hlat. simpl.
  rewrite E1. simpl. rewrite Hlon. simpl. rewrite E2. simpl.
  unfold bound. rewrite Rs, Rn, Rw, Re, !orb_true_r. auto 15.
Qed.

Lemma update_bounds_contains_location_witness :
  exists w' s' e' n',
    update_bounds (OpenNEMZone_init "NSW1")
      (location (JInt (-30)) (JFloat (FFinite false 1215 (-3)))) =
      Ok (mkZone "NSW1" (box w' s' e' n') [])
    /\ (not_below (JInt (-30)) s' /\ not_below n' (JInt (-30))).
Proof.
  destruct (update_bounds_contains_location
              (OpenNEMZone_init "NSW1") JNull JNull JNull JNull
              (location (JInt (-30)) (JFloat (FFinite false 1215 (-3))))
              (JInt (-30)) (JFloat (FFinite false 1215 (-3)))
              eq_refl eq_refl eq_refl eq_refl eq_refl eq_refl eq_refl
              eq_refl eq_refl)
    as (w' & s' & e' & n' & H & Hlat & _).
  exists w', s', e', n'. split; [exact H | exact Hlat].
Defined.

(** X2.  [update_bounds] is idempotent on numbers and strings: once a
    location has been taken in, taking the same location in again changes
    nothing and raises nothing (null coordinates included). *)
Theorem update_bounds_idempotent :
  forall (z z' : OpenNEMZone) (loc lat lon : json),
    subscript loc "latitude" = Ok lat ->
    subscript loc "longitude" = Ok lon ->
    is_none lat = true \/ scalar lat = true ->
    is_none lon = true \/ scalar lon = true ->
    update_bounds z loc = Ok z' ->
    update_bounds z' loc = Ok z'.
Proof.
  intros z z' loc lat lon Hlat Hlon Slat Slon.
  unfold update_bounds. rewrite Hlat, Hlon.
  destruct (bounding_box z) as [| | | | |[|[| | | | | [|w [|s [|? ?]]] |]
    [|[| | | | | [|e [|n [|? ?]]] |] [|? ?]]]|]; try discriminate.
  simpl.
  destruct (expand s n lat) as [[s' n']|] eqn:E1; simpl; [|discriminate].
  destruct (expand w e lon) as [[w' e']|] eqn:E2; simpl; [|discriminate].
  intros [= <-]. simpl.
  rewrite (expand_again _ _ _ _ _ Slat E1). simpl.
  rewrite (expand_again _ _ _ _ _ Slon E2). reflexivity.
Qed.

Lemma update_bounds_idempotent_witness :
  update_bounds
    (mkZone "NSW1" (box (JInt 152) (JInt (-30)) (JInt 152) (JInt (-30))) [])
    (location (JInt (-30)) (JInt 152)) =
  Ok (mkZone "NSW1" (box (JInt 152) (JInt (-30)) (JInt 152) (JInt (-30))) []).
Proof.
  exact (update_bounds_idempotent (OpenNEMZone_init "NSW1") _
           (location (JInt (-30)) (JInt 152)) (JInt (-30)) (JInt 152)
           eq_refl eq_refl (or_intror eq_refl) (or_intror eq_refl) eq_refl).
Defined.

(** X3.  What [update_bounds] skips and what it refuses: null
    coordinates leave the zone as it is; a location without ['latitude']
    raises [KeyError] before anything is compared, one without
    ['longitude'] raises it after the latitude is dealt with; a string
    coordinate against a numeric bound raises [TypeError]. *)
Theorem update_bounds_skips_and_errors :
  forall (z : OpenNEMZone) (w s e n : json),
    bounding_box z = box w s e n ->
    update_bounds z (location JNull JNull) = Ok z
    /\ (forall its,
           dict_get its "latitude" = None ->
           update_bounds z (JObj its) = Raise (KeyError (JStr "latitude")))
    /\ (forall its,
           dict_get its "latitude" = Some JNull ->
           dict_get its "longitude" = None ->
           update_bounds z (JObj its) = Raise (KeyError (JStr "longitude")))
    /\ (forall t lon,
           real s = true ->
           update_bounds z (location (JStr t) lon) = Raise TypeError).
Proof.
  intros z w s e n Hb. unfold update_bounds. rewrite Hb. simpl.
  split; [|split; [|split]].
  - destruct z as [zn bb cap]. simpl in Hb. now subst bb.
  - intros its H. unfold dict_index. now rewrite H.
  - intros its H1 H2. unfold dict_index. rewrite H1. simpl. now rewrite H2.
  - intros t lon Rs. unfold expand. simpl.
    rewrite (real_not_none _ Rs). destruct (real_numeric _ Rs) as [b Hb'].
    destruct s; simpl in *; try discriminate; reflexivity.
Qed.

Lemma update_bounds_skips_and_errors_witness :
  update_bounds (OpenNEMZone_init "NSW1") (location JNull JNull) =
  Ok (OpenNEMZone_init "NSW1").
Proof.
  exact (proj1 (update_bounds_skips_and_errors (OpenNEMZone_init "NSW1")
                  JNull JNull JNull JNull eq_refl)).
Defined.

(** ** The loop and the zone objects *)

(** A property of the stored totals that every addition establishes is
    kept by the DUID loop and by the loop over the facilities. *)
Section TableInvariant.
Variable P : string * Decimal -> Prop.
Hypothesis P_step :
  forall s k d acc total,
    normalized_fuel_tech s = Some k ->
    Decimal_add acc d = Ok total -> P (k, total).

Lemma update_capacity_loop_Forall gens : forall cap cap',
  Forall P cap -> update_capacity_loop cap gens = Ok cap' -> Forall P cap'.
Proof.
  induction gens as [|gen gens IH]; intros cap cap' Hc; simpl.
  - now intros [= <-].
  - destruct (update_capacity_step cap gen) as [cap1|] eqn:Hs; simpl;
      [|discriminate].
    apply IH.
    destruct (update_capacity_step_inv _ _ _ Hs)
      as [[-> _]|(s & k & rc & d & total & _ & Hn & _ & _ & Ha & ->)]; auto.
    apply Forall_dict_set; eauto.
Qed.

Lemma facilities_loop_Forall entries : forall zones zones',
  Forall (fun kz => Forall P (capacity (snd kz))) zones ->
  facilities_loop zones entries = Ok zones' ->
  Forall (fun kz => Forall P (capacity (snd kz))) zones'.
Proof.
  induction entries as [|entry entries IH]; intros zones zones' Hz; simpl.
  - now intros [= <-].
  - destruct (facility_step zones entry) as [zones1|] eqn:Hs; simpl;
      [|discriminate].
    apply IH.
    destruct (facility_step_inv _ _ _ Hs)
      as [[-> _]|(r & z & gens & cap' & _ & _ & _ & Hg & Hl & ->)]; auto.
    apply Forall_dict_set; auto. simpl.
    eapply update_capacity_loop_Forall; [|exact Hl].
    apply (dict_get_Forall _ _ _ _ Hz Hg).
Qed.
End TableInvariant.

Lemma zones_init_Forall (P : string * Decimal -> Prop) :
  Forall (fun kz => Forall P (capacity (snd kz))) zones_init.
Proof. repeat constructor. Qed.

Lemma facilities_loop_box entries : forall zones zones',
  Forall (fun kz => bounding_box (snd kz) = empty_box) zones ->
  facilities_loop zones entries = Ok zones' ->
  Forall (fun kz => bounding_box (snd kz) = empty_box) zones'.
Proof.
  induction entries as [|entry entries IH]; intros zones zones' Hz; simpl.
  - now intros [= <-].
  - destruct (facility_step zones entry) as [zones1|] eqn:Hs; simpl;
      [|discriminate].
    apply IH.
    destruct (facility_step_inv _ _ _ Hs)
      as [[-> _]|(r & z & gens & cap' & _ & _ & _ & Hg & Hl & ->)]; auto.
    apply Forall_dict_set; auto. simpl.
    apply (dict_get_Forall _ _ _ _ Hz Hg).
Qed.

(** X4.  The aggregation never moves a bounding box: whatever the
    registry holds (locations included), every zone object a run reaches
    still has the box of [__init__], [[None, None], [None, None]], and
    still carries the code it is stored under. *)
Theorem aggregation_never_touches_bounds :
  forall (entries : list (string * json)) (zones : list (string * OpenNEMZone))
         (k : string) (z : OpenNEMZone),
    facilities_loop zones_init entries = Ok zones ->
    dict_get zones k = Some z ->
    bounding_box z = empty_box /\ zone z = k /\ In k zone_codes.
Proof.
  intros entries zones k z Hl Hz.
  assert (Hb : Forall (fun kz => bounding_box (snd kz) = empty_box) zones).
  { eapply facilities_loop_box; [|exact Hl]. repeat constructor. }
  destruct (facilities_loop_ok _ _ _ zones_init_ok Hl) as [Hk Hf].
  split; [apply (dict_get_Forall _ _ _ _ Hb Hz)|].
  split; [apply (dict_get_Forall _ _ _ _ Hf Hz)|].
  rewrite <- Hk. eapply dict_get_In; eauto.
Qed.

Lemma aggregation_never_touches_bounds_witness :
  exists z,
    (let* zones := facilities_loop zones_init tie_entries in
     dict_index zones "SA1") = Ok z
    /\ bounding_box z = empty_box.
Proof.
  eexists. split; [vm_compute; reflexivity|].
  refine (proj1 (aggregation_never_touches_bounds
                   tie_entries _ "SA1" _ _ _)).
  - vm_compute. reflexivity.
  - vm_compute. reflexivity.
Defined.

(** X5.  A facility only ever changes the zone named by its own
    ['region_id']: in a run, after any completed step every other zone
    object is exactly what it was, and the set and order of the zones
    is unchanged. *)
Theorem facility_changes_only_its_zone :
  forall (pre : list (string * json)) (zones zones' : list (string * OpenNEMZone))
         (entry : string * json) (r k : string),
    facilities_loop zones_init pre = Ok zones ->
    facility_step zones entry = Ok zones' ->
    subscript (snd entry) "region_id" = Ok (JStr r) ->
    k <> r ->
    dict_get zones' k = dict_get zones k
    /\ dict_keys zones' = dict_keys zones.
Proof.
  intros pre zones zones' entry r k Hpre Hs Hr Hk.
  pose proof (facilities_loop_ok _ _ _ zones_init_ok Hpre) as Hok.
  destruct (facility_step_ok _ _ _ Hok Hs) as [Hk' _].
  destruct Hok as [Hk0 Hf].
  split; [|congruence].
  destruct (facility_step_inv _ _ _ Hs)
    as [[-> _]|(r' & z & gens & cap' & Hr' & _ & _ & Hz & _ & ->)]; auto.
  assert (r' = r) by congruence. subst r'.
  pose proof (dict_get_Forall _ _ _ _ Hf Hz) as Hown. simpl in Hown.
  rewrite Hown. now apply dict_get_set_other.
Qed.

Lemma facility_changes_only_its_zone_witness :
  dict_get (dict_set zones_init "SA1"
              (mkZone "SA1" empty_box [("gas", DFinite false 5 0)])) "VIC1" =
  dict_get zones_init "VIC1".
Proof.
  refine (proj1 (facility_changes_only_its_zone [] zones_init _
                   ("F1", facility_of "Commissioned" "SA1" [gas_ocgt_unit])
                   "SA1" "VIC1" eq_refl eq_refl eq_refl _)).
  discriminate.
Defined.

Lemma facilities_loop_idle entries zones :
  Forall idle entries -> facilities_loop zones entries = Ok zones.
Proof.
  induction 1 as [|entry entries (st & dd & reg & Hst & Hne & Hd & Hr) _ IH];
    simpl; auto.
  assert (Hstep : facility_step zones entry = Ok zones).
  { unfold facility_step. rewrite Hd. simpl.
    unfold facility_state in Hst.
    destruct (subscript (snd entry) "status") as [status|]; simpl in *;
      [|discriminate].
    rewrite Hst. simpl.
    apply is_commissioned_false in Hne. rewrite Hne, Hr. reflexivity. }
  rewrite Hstep. exact IH.
Qed.

(** X6.  A registry in which no facility is commissioned prints the same
    document as the empty registry [{}]: six entries with empty capacity
    objects.  It is enough that each record has the keys the loop reads;
    ['station_id'] and the DUID data are not looked at. *)
Theorem idle_registry_prints_empty_capacities :
  forall entries : list (string * json),
    Forall idle entries ->
    aggregate (JObj entries) = aggregate (JObj [])
    /\ forall code, In code output_codes ->
                    (let* out := aggregate (JObj entries) in
                     let* e := dict_index out code in
                     subscript e "capacity") = Ok (JObj []).
Proof.
  intros entries Hidle. unfold aggregate. simpl.
  rewrite (facilities_loop_idle _ _ Hidle). split; [reflexivity|].
  simpl. intros code Hin.
  repeat destruct Hin as [<-|Hin]; try reflexivity. destruct Hin.
Qed.

Lemma idle_registry_prints_empty_capacities_witness :
  aggregate (JObj [("F1", JObj [("status", JObj [("state", JStr "Retired")]);
                                ("region_id", JStr "NT1");
                                ("duid_data", JNull)])]) =
  aggregate (JObj []).
Proof.
  refine (proj1 (idle_registry_prints_empty_capacities _ _)).
  constructor; [|constructor].
  exists (JStr "Retired"), JNull, (JStr "NT1").
  repeat split; try reflexivity. discriminate.
Defined.

(** ** What the printed capacities look like *)

Lemma normalized_not_raw s k :
  normalized_fuel_tech s = Some k -> raw_name k = false.
Proof.
  unfold normalized_fuel_tech, raw_name, startswith.
  destruct (String.eqb s "battery_charging") eqn:E1; [discriminate|].
  destruct (String.eqb s "pumps") eqn:E2; [discriminate|]. simpl.
  destruct (String.prefix "gas_" s) eqn:E3; [now intros [= <-]|].
  destruct (String.prefix "bioenergy_" s) eqn:E4; [now intros [= <-]|].
  destruct (String.eqb s "distillate") eqn:E5; [now intros [= <-]|].
  destruct (String.eqb s "battery_discharging") eqn:E6; [now intros [= <-]|].
  intros [= <-]. now rewrite E1, E2, E3, E4, E5, E6.
Qed.

Lemma dict_keys_set_in {V : Type} (d : list (string * V)) k0 v k :
  In k (dict_keys (dict_set d k0 v)) -> k = k0 \/ In k (dict_keys d).
Proof.
  destruct (dict_get d k0) as [v0|] eqn:Hg.
  - rewrite (dict_keys_set_present _ _ _ _ Hg). auto.
  - rewrite (dict_keys_set_absent _ _ _ Hg). rewrite in_app_iff. simpl.
    intros [H|[H|[]]]; auto.
Qed.

Lemma rounded_capacity_keys cap : forall acc out k,
  rounded_capacity acc cap = Ok out ->
  In k (dict_keys out) -> In k (dict_keys acc) \/ In k (dict_keys cap).
Proof.
  induction cap as [|[k0 v0] cap IH]; intros acc out k; simpl.
  - intros [= <-]. auto.
  - destruct (float_of_Decimal v0) as [f0|]; simpl; [|discriminate].
    intros Hr Hin. destruct (IH _ _ _ Hr Hin) as [H|H]; auto.
    destruct (dict_keys_set_in _ _ _ _ H); auto.
Qed.

Lemma rounded_capacity_floats cap : forall acc out,
  Forall (fun kv => exists f, snd kv = JFloat f) acc ->
  rounded_capacity acc cap = Ok out ->
  Forall (fun kv => exists f, snd kv = JFloat f) out.
Proof.
  induction cap as [|[k0 v0] cap IH]; intros acc out Ha; simpl.
  - now intros [= <-].
  - destruct (float_of_Decimal v0) as [f0|]; simpl; [|discriminate].
    apply IH. apply Forall_dict_set; simpl; eauto.
Qed.

Lemma entry_of_lookup zones out code e :
  Forall2 entry_of zones out ->
  dict_get out code = Some e ->
  exists kz o, In kz zones /\ output (snd kz) = Ok o /\ e = JObj o.
Proof.
  induction 1 as [|kz [c x] zones out [_ (o & Ho & Hs)] _ IH]; simpl;
    [discriminate|].
  destruct (String.eqb c code).
  - intros [= <-]. exists kz, o. simpl in Hs. auto.
  - intros Hg. destruct (IH Hg) as (kz' & o' & Hin & H1 & H2).
    exists kz', o'. auto.
Qed.

Lemma dict_keys_In_get {V : Type} (d : list (string * V)) k :
  In k (dict_keys d) -> exists v, In (k, v) d.
Proof.
  unfold dict_keys. rewrite in_map_iff. intros ([k' v] & <- & Hin). eauto.
Qed.

(** X7.  Whatever is printed as a capacity is a float filed under a
    normalised name: no printed fuel type is ['battery_charging'],
    ['pumps'], ['distillate'] or ['battery_discharging'], and none starts
    with ['gas_'] or ['bioenergy_']. *)
Theorem printed_fuels_are_normalized :
  forall (facilities : json) (code fuel : string) (v : json),
    printed_capacity facilities code fuel = Ok v ->
    raw_name fuel = false /\ exists f, v = JFloat f.
Proof.
  intros facilities code fuel v. unfold printed_capacity, aggregate.
  destruct (items facilities) as [entries|]; simpl; [|discriminate].
  destruct (facilities_loop zones_init entries) as [zones|] eqn:Hl; simpl;
    [|discriminate].
  destruct (json_zones_loop [] zones) as [out|] eqn:Hj; simpl;
    [|discriminate].
  unfold dict_index at 1.
  destruct (dict_get out code) as [e|] eqn:He; simpl; [|discriminate].
  pose proof (facilities_loop_ok _ _ _ zones_init_ok Hl) as Hok.
  destruct (json_zones_loop_inv _ _ Hok Hj) as [_ Hent].
  destruct (entry_of_lookup _ _ _ _ Hent He) as (kz & o & Hin & Ho & ->).
  destruct (output_inv _ _ Ho) as (bb & cap & _ & Hc & ->).
  simpl. unfold dict_index.
  destruct (dict_get cap fuel) as [x|] eqn:Hg; [|discriminate].
  intros [= <-]. split.
  - pose proof (dict_get_In _ _ _ Hg) as Hk.
    destruct (rounded_capacity_keys _ _ _ _ Hc Hk) as [[]|Hk'].
    destruct (dict_keys_In_get _ _ Hk') as [d Hd].
    assert (Hall : Forall (fun kz => Forall (fun kv => raw_name (fst kv) = false)
                                       (capacity (snd kz))) zones).
    { eapply (facilities_loop_Forall (fun kv => raw_name (fst kv) = false));
        [|apply zones_init_Forall|exact Hl].
      intros s k d0 acc total Hn _. simpl. eapply normalized_not_raw; eauto. }
    rewrite Forall_forall in Hall. specialize (Hall _ Hin).
    rewrite Forall_forall in Hall. apply (Hall _ Hd).
  - pose proof (rounded_capacity_floats _ _ _ (Forall_nil _) Hc) as Hf.
    apply (dict_get_Forall _ _ _ _ Hf Hg).
Qed.

Lemma printed_fuels_are_normalized_witness :
  raw_name "wind" = false
  /\ exists f, JFloat (round_to_double false 12 100) = JFloat f.
Proof.
  refine (printed_fuels_are_normalized tie_registry "AUS-SA" "wind" _ _).
  vm_compute. reflexivity.
Defined.

(** ** Errors of a malformed record *)

(** X8.  ['station_id'] is read only for commissioned facilities: a
    record without it passes when its state is anything else, and ends
    the run with [KeyError('station_id')] when it is commissioned in a
    known zone. *)
Theorem station_id_read_only_when_commissioned :
  forall (zones : list (string * OpenNEMZone)) (code : string)
         (its : list (string * json)) (state duid_data : json) (r : string),
    dict_get its "station_id" = None ->
    dict_get its "duid_data" = Some duid_data ->
    facility_state (JObj its) = Ok state ->
    dict_get its "region_id" = Some (JStr r) ->
    (state <> JStr "Commissioned" ->
     facility_step zones (code, JObj its) = Ok zones)
    /\ (state = JStr "Commissioned" ->
        forall z, dict_get zones r = Some z ->
                  facility_step zones (code, JObj its) =
                  Raise (KeyError (JStr "station_id"))).
Proof.
  intros zones code its state dd r Hsid Hd Hst Hr.
  unfold facility_state in Hst. unfold facility_step. simpl in *.
  unfold dict_index in *. rewrite Hd. simpl.
  destruct (dict_get its "status") as [status|]; simpl in *; [|discriminate].
  rewrite Hst. simpl. rewrite Hr. simpl. split.
  - intros Hne. apply is_commissioned_false in Hne. now rewrite Hne.
  - intros Heq z Hz. apply is_commissioned_true in Heq. rewrite Heq.
    unfold dict_index. rewrite Hz. simpl.
    unfold update_from_facility_data. simpl. unfold dict_index.
    now rewrite Hsid.
Qed.

Lemma station_id_read_only_when_commissioned_witness :
  facility_step zones_init
    ("F1", JObj [("status", JObj [("state", JStr "Commissioned")]);
                 ("region_id", JStr "SA1"); ("duid_data", JObj [])]) =
  Raise (KeyError (JStr "station_id")).
Proof.
  exact (proj2 (station_id_read_only_when_commissioned zones_init "F1"
                  [("status", JObj [("state", JStr "Commissioned")]);
                   ("region_id", JStr "SA1"); ("duid_data", JObj [])]
                  (JStr "Commissioned") (JObj []) "SA1"
                  eq_refl eq_refl eq_refl eq_refl)
           eq_refl (OpenNEMZone_init "SA1") eq_refl).
Defined.

(** A list that does not have three items is refused. *)
Lemma Decimal_from_sequence_length (l : list json) :
  List.length l <> 3%nat -> Decimal_from_sequence l = Raise ValueError.
Proof.
  destruct l as [|a [|b [|c [|d l]]]]; try reflexivity.
  intros H. now contradiction H.
Qed.

(** X9.  A DUID that is counted must carry a usable
    ['registered_capacity']: when the loop reaches a unit whose fuel_tech
    is counted, a missing key raises [KeyError], null or an object raises
    [TypeError], and a list that does not have three items raises
    [ValueError]; a fuel_tech that is neither null nor a string raises
    [AttributeError].  Nothing is skipped.  A list of a sign, a list of
    digits and an exponent is a number like any other: [[0, [1, 2, 5], -1]]
    counts as 12.5. *)
Theorem counted_unit_needs_capacity :
  forall (cap cap1 : list (string * Decimal)) (pre post : list (string * json))
         (code : string) (info : list (string * json)),
    update_capacity_loop cap pre = Ok cap1 ->
    (forall s k,
        dict_get info "fuel_tech" = Some (JStr s) ->
        normalized_fuel_tech s = Some k ->
        (dict_get info "registered_capacity" = None ->
         update_capacity_loop cap (pre ++ (code, JObj info) :: post) =
         Raise (KeyError (JStr "registered_capacity")))
        /\ (dict_get info "registered_capacity" = Some JNull ->
            update_capacity_loop cap (pre ++ (code, JObj info) :: post) =
            Raise TypeError)
        /\ (forall its,
               dict_get info "registered_capacity" = Some (JObj its) ->
               update_capacity_loop cap (pre ++ (code, JObj info) :: post) =
               Raise TypeError)
        /\ (forall l,
               dict_get info "registered_capacity" = Some (JArr l) ->
               List.length l <> 3%nat ->
               update_capacity_loop cap (pre ++ (code, JObj info) :: post) =
               Raise ValueError)
        /\ (dict_get info "registered_capacity" =
              Some (JArr [JInt 0; JArr [JInt 1; JInt 2; JInt 5]; JInt (-1)]) ->
            update_capacity_loop cap (pre ++ (code, JObj info) :: post) =
            (let* total :=
               Decimal_add (capacity_get cap1 k) (DFinite false 125 (-1)) in
             update_capacity_loop (dict_set cap1 k total) post)))
    /\ (forall ft,
           dict_get info "fuel_tech" = Some ft ->
           is_none ft = false ->
           (forall s, ft <> JStr s) ->
           update_capacity_loop cap (pre ++ (code, JObj info) :: post) =
           Raise AttributeError).
Proof.
  intros cap cap1 pre post code info Hpre.
  split.
  - intros s k Hft Hn.
    assert (Hstep : forall rc,
               dict_get info "registered_capacity" = rc ->
               update_capacity_loop cap (pre ++ (code, JObj info) :: post) =
               (let* cap2 :=
                  (let* rc := match rc with
                              | Some v => Ok v
                              | None =>
                                  Raise (KeyError (JStr "registered_capacity"))
                              end in
                   let* d := Decimal_of rc in
                   let* total := Decimal_add (capacity_get cap1 k) d in
                   Ok (dict_set cap1 k total)) in
                update_capacity_loop cap2 post)).
    { intros rc Hrc. rewrite update_capacity_loop_app, Hpre. simpl.
      unfold update_capacity_step. simpl. rewrite Hft. simpl.
      rewrite (normalized_fuel_tech_some _ _ Hn).
      rewrite (rename_gen_type_normalized _ _ Hn).
      unfold dict_index. now rewrite Hrc. }
    split; [|split; [|split; [|split]]].
    + intros H. now rewrite (Hstep _ H).
    + intros H. now rewrite (Hstep _ H).
    + intros its H. now rewrite (Hstep _ H).
    + intros l H Hlen. rewrite (Hstep _ H).
      cbn [bind Decimal_of]. now rewrite (Decimal_from_sequence_length _ Hlen).
    + intros H. rewrite (Hstep _ H). cbn [bind].
      change (Decimal_of
                (JArr [JInt 0; JArr [JInt 1; JInt 2; JInt 5]; JInt (-1)]))
        with (@Ok Decimal (DFinite false 125 (-1))).
      cbn [bind].
      destruct (Decimal_add (capacity_get cap1 k) (DFinite false 125 (-1)));
        reflexivity.
  - intros ft Hft Hnn Hns.
    rewrite update_capacity_loop_app, Hpre. simpl.
    unfold update_capacity_step. simpl. rewrite Hft. simpl.
    destruct ft; try reflexivity; try discriminate.
    exfalso. eapply Hns. reflexivity.
Qed.

Lemma counted_unit_needs_capacity_witness :
  update_capacity_loop []
    ([gas_ocgt_unit] ++ ("G2", JObj [("fuel_tech", JStr "wind")]) :: []) =
  Raise (KeyError (JStr "registered_capacity")).
Proof.
  exact (proj1 (proj1 (counted_unit_needs_capacity
                         [] _ [gas_ocgt_unit] [] "G2"
                         [("fuel_tech", JStr "wind")] eq_refl)
                  "wind" "wind" eq_refl eq_refl) eq_refl).
Defined.

(** ** Totals that are exact *)

Lemma ndigits_fuel_le fuel : forall c k,
  1 <= k -> 0 <= c < 10 ^ k -> ndigits_fuel fuel c <= k.
Proof.
  induction fuel as [|fuel IH]; intros c k Hk Hc; cbn [ndigits_fuel]; [lia|].
  destruct (Z.ltb_spec c 10); [lia|].
  assert (Hk2 : 2 <= k).
  { destruct (Z.eq_dec k 1) as [->|]; [|lia]. change (10 ^ 1) with 10 in Hc.
    lia. }
  assert (Hdiv : 0 <= c / 10 < 10 ^ (k - 1)).
  { split; [apply Z.div_pos; lia|].
    apply Z.div_lt_upper_bound; [lia|].
    replace (10 * 10 ^ (k - 1)) with (10 ^ k); [lia|].
    replace k with (Z.succ (k - 1)) at 1 by lia.
    rewrite Z.pow_succ_r; lia. }
  assert (Hk1 : 1 <= k - 1) by lia.
  pose proof (IH (c / 10) (k - 1) Hk1 Hdiv) as Hle. lia.
Qed.

Lemma fix_finite_small c :
  0 <= c < 10 ^ 28 -> fix_finite false c 0 = Ok (DFinite false c 0).
Proof.
  intros Hc. unfold fix_finite.
  destruct (Z.eqb_spec c 0) as [->|Hne]; [reflexivity|].
  assert (Hd : ndigits c <= 28) by (apply ndigits_fuel_le; lia).
  unfold prec, Etop, Etiny, Emax, Emin, prec.
  set (d := ndigits c) in *.
  destruct (Z.gtb_spec (d + 0 - 28) (999999 - 28 + 1)); [lia|].
  destruct (Z.ltb_spec 0 (Z.max (d + 0 - 28) (-999999 - 28 + 1))); [lia|].
  reflexivity.
Qed.

Lemma Decimal_add_int a b :
  0 <= a -> 0 <= b -> a + b < 10 ^ 28 ->
  Decimal_add (DFinite false a 0) (DFinite false b 0) =
  Ok (DFinite false (a + b) 0).
Proof.
  intros Ha Hb Hab. unfold Decimal_add. simpl.
  rewrite !Z.mul_1_r.
  destruct (Z.eqb_spec a 0) as [->|Ha0]; simpl.
  - destruct (Z.eqb_spec b 0) as [->|Hb0]; simpl; [reflexivity|].
    destruct (Z.eqb_spec b 0); [lia|].
    destruct (Z.ltb_spec b 0); [lia|].
    rewrite Z.abs_eq by lia. apply fix_finite_small. lia.
  - destruct (Z.eqb_spec (a + b) 0); [lia|].
    destruct (Z.ltb_spec (a + b) 0); [lia|].
    rewrite Z.abs_eq by lia. apply fix_finite_small. lia.
Qed.

Lemma int_total_le k units :
  Forall (fun u => 0 <= snd u) units ->
  0 <= int_total k units <= int_sum units.
Proof.
  induction 1 as [|u units Hu _ IH]; simpl; [lia|].
  destruct (normalized_fuel_tech (snd (fst u))) as [k'|]; [|lia].
  destruct (String.eqb k' k); lia.
Qed.

Lemma update_capacity_loop_int units : forall cap (f : string -> Z),
  Forall (fun u => 0 <= snd u) units ->
  (forall k, capacity_get cap k = DFinite false (f k) 0 /\ 0 <= f k) ->
  (forall k, f k + int_sum units < 10 ^ 28) ->
  exists cap',
    update_capacity_loop cap (map int_unit units) = Ok cap'
    /\ forall k, capacity_get cap' k =
                 DFinite false (f k + int_total k units) 0.
Proof.
  induction units as [|u units IH]; intros cap f Hpos Hcap Hsum; simpl.
  - exists cap. split; [reflexivity|]. intros k. rewrite Z.add_0_r.
    apply Hcap.
  - inversion Hpos as [|? ? Hu Hrest]; subst. simpl in Hsum.
    pose proof (int_total_le "" units Hrest) as _.
    assert (Hsum0 : 0 <= int_sum units).
    { clear -Hrest. induction Hrest; simpl; lia. }
    unfold update_capacity_step. simpl.
    destruct (normalized_fuel_tech (snd (fst u))) as [k'|] eqn:Hn.
    + rewrite (normalized_fuel_tech_some _ _ Hn).
      rewrite (rename_gen_type_normalized _ _ Hn).
      destruct (Hcap k') as [Hk' Hfk']. rewrite Hk'.
      destruct (Z.ltb_spec (snd u) 0); [lia|].
      rewrite Z.abs_eq by lia.
      rewrite Decimal_add_int; [|lia|lia|specialize (Hsum k'); lia].
      simpl.
      destruct (IH (dict_set cap k' (DFinite false (f k' + snd u) 0))
                  (fun k => if String.eqb k' k then f k + snd u else f k)
                  Hrest) as (cap' & Hl & Hget).
      * intros k. rewrite capacity_get_set.
        destruct (String.eqb k' k) eqn:E.
        -- apply String.eqb_eq in E. subst k. split; [reflexivity|lia].
        -- apply Hcap.
      * intros k. specialize (Hsum k). destruct (Hcap k).
        destruct (String.eqb k' k); lia.
      * exists cap'. split; [exact Hl|]. intros k. rewrite Hget.
        destruct (String.eqb k' k); f_equal; lia.
    + rewrite (normalized_fuel_tech_none _ Hn). simpl.
      destruct (IH cap f Hrest Hcap) as (cap' & Hl & Hget).
      * intros k. specialize (Hsum k). lia.
      * exists cap'. split; [exact Hl|]. exact Hget.
Qed.

(** X10.  Whole-number capacities are added without any rounding: for
    DUIDs with non-negative integer capacities whose sum stays below
    10^28, [update_capacity] on an empty table succeeds and the total
    stored for every fuel type is exactly the integer sum of the units
    counted under it. *)
Theorem integer_capacities_sum_exactly :
  forall (z : OpenNEMZone) (units : list (string * string * Z)),
    capacity z = [] ->
    Forall (fun u => 0 <= snd u) units ->
    int_sum units < 10 ^ 28 ->
    exists z',
      update_capacity z (JObj (map int_unit units)) = Ok z'
      /\ zone z' = zone z
      /\ forall k, capacity_get (capacity z') k =
                   DFinite false (int_total k units) 0.
Proof.
  intros z units Hz Hpos Hsum. unfold update_capacity. simpl. rewrite Hz.
  destruct (update_capacity_loop_int units [] (fun _ => 0) Hpos)
    as (cap' & Hl & Hget).
  - intros k. split; [reflexivity|lia].
  - intros k. lia.
  - rewrite Hl. simpl. eexists. split; [reflexivity|].
    split; [reflexivity|]. intros k. simpl. now rewrite Hget.
Qed.

Lemma integer_capacities_sum_exactly_witness :
  exists z',
    update_capacity (OpenNEMZone_init "SA1")
      (JObj (map int_unit [("G1", "gas_ocgt", 120); ("W1", "wind", 30);
                           ("G2", "gas_ccgt", 480); ("P1", "pumps", 75)])) =
    Ok z'
    /\ capacity_get (capacity z') "gas" = DFinite false 600 0.
Proof.
  destruct (integer_capacities_sum_exactly (OpenNEMZone_init "SA1")
              [("G1", "gas_ocgt", 120); ("W1", "wind", 30);
               ("G2", "gas_ccgt", 480); ("P1", "pumps", 75)] eq_refl)
    as (z' & Hu & _ & Hget).
  - repeat constructor; simpl; lia.
  - simpl. lia.
  - exists z'. split; [exact Hu|]. exact (Hget "gas").
Defined.

(** ** A NaN capacity *)

Lemma Decimal_add_nan_l d t : Decimal_add DNaN d = Ok t -> t = DNaN.
Proof. destruct d; simpl; intros [= <-] || discriminate; reflexivity. Qed.

Lemma Decimal_add_nan_r a t : Decimal_add a DNaN = Ok t -> t = DNaN.
Proof. destruct a; simpl; intros [= <-] || discriminate; reflexivity. Qed.

Lemma update_capacity_loop_nan_sticky fuel gens : forall cap cap',
  update_capacity_loop cap gens = Ok cap' ->
  dict_get cap fuel = Some DNaN -> dict_get cap' fuel = Some DNaN.
Proof.
  induction gens as [|gen gens IH]; intros cap cap'; simpl.
  - now intros [= <-].
  - destruct (update_capacity_step cap gen) as [cap1|] eqn:Hs; simpl;
      [|discriminate].
    intros Hl Hg. apply (IH _ _ Hl).
    destruct (update_capacity_step_inv _ _ _ Hs)
      as [[-> _]|(s & k & rc & d & total & _ & _ & _ & _ & Ha & ->)]; auto.
    destruct (String.eqb k fuel) eqn:E.
    + apply String.eqb_eq in E. subst k.
      unfold capacity_get in Ha. rewrite Hg in Ha.
      apply Decimal_add_nan_l in Ha. subst total. apply dict_get_set_same.
    + apply String.eqb_neq in E. rewrite dict_get_set_other; auto.
Qed.

Lemma update_capacity_loop_nan_unit fuel gen pre post cap cap' :
  update_capacity_loop cap (pre ++ gen :: post) = Ok cap' ->
  counted_under fuel gen = true ->
  subscript (snd gen) "registered_capacity" = Ok (JFloat FNan) ->
  dict_get cap' fuel = Some DNaN.
Proof.
  rewrite update_capacity_loop_app.
  destruct (update_capacity_loop cap pre) as [cap0|]; simpl; [|discriminate].
  destruct (update_capacity_step cap0 gen) as [cap1|] eqn:Hs; simpl;
    [|discriminate].
  intros Hl Hc Hrc. apply (update_capacity_loop_nan_sticky _ _ _ _ Hl).
  destruct (update_capacity_step_inv _ _ _ Hs)
    as [[_ Hno]|(s & k & rc & d & total & Hft & Hn & H1 & H2 & Ha & ->)].
  - rewrite Hno in Hc. discriminate.
  - unfold counted_under in Hc. rewrite Hft, Hn in Hc.
    apply String.eqb_eq in Hc. subst k.
    assert (rc = JFloat FNan) by congruence. subst rc.
    simpl in H2. injection H2 as <-.
    apply Decimal_add_nan_r in Ha. subst total. apply dict_get_set_same.
Qed.

(** X11.  One NaN spoils a total for good: if a DUID that counts for a
    zone and a fuel type has the capacity NaN and the run completes, the
    total stored for that fuel is NaN whatever the other units hold, and
    NaN is what is printed for it. *)
Theorem nan_capacity_is_printed_as_nan :
  forall (entries : list (string * json)) (zones : list (string * OpenNEMZone))
         (k fuel : string) (z : OpenNEMZone) (gen : string * json),
    facilities_loop zones_init entries = Ok zones ->
    dict_get zones k = Some z ->
    In gen (zone_gens k entries) ->
    counted_under fuel gen = true ->
    subscript (snd gen) "registered_capacity" = Ok (JFloat FNan) ->
    dict_get (capacity z) fuel = Some DNaN
    /\ exists o cap,
        output z = Ok o
        /\ dict_get o "capacity" = Some (JObj cap)
        /\ dict_get cap fuel = Some (JFloat FNan).
Proof.
  intros entries zones k fuel z gen Hl Hz Hin Hc Hrc.
  pose proof (facilities_loop_ok _ _ _ zones_init_ok Hl) as [Hk Hf].
  assert (Hcode : In k zone_codes).
  { rewrite <- Hk. eapply dict_get_In; eauto. }
  destruct (facilities_loop_zone_gens entries _ _ _ _
              (proj2 zones_init_ok) Hl (zones_init_get _ Hcode))
    as (z' & Hz' & Hloop).
  assert (z' = z) by congruence. subst z'. simpl in Hloop.
  destruct (in_split _ _ Hin) as (pre & post & Hsplit).
  rewrite Hsplit in Hloop.
  pose proof (update_capacity_loop_nan_unit _ _ _ _ _ _ Hloop Hc Hrc) as Hnan.
  split; [exact Hnan|].
  assert (Hn : NoDup (dict_keys (capacity z))).
  { eapply update_capacity_loop_NoDup; [|exact Hloop]. constructor. }
  pose proof (facilities_loop_quiet _ _ _ zones_init_quiet Hl) as Hq.
  pose proof (dict_get_Forall _ _ _ _ Hf Hz) as Hown. simpl in Hown.
  destruct (output_total z) as [o Ho].
  { rewrite Hown. simpl in Hcode. simpl. tauto. }
  { apply (dict_get_Forall _ _ _ _ Hq Hz). }
  destruct (output_inv _ _ Ho) as (bb & cap & _ & Hcap & ->).
  destruct (rounded_capacity_get _ _ _ _ _ Hn Hcap Hnan) as (f & Hf' & Hg).
  simpl in Hf'. injection Hf' as <-.
  exists (("bounding_box", bb) :: ("capacity", JObj cap) :: ZONE_BOILERPLATE),
    cap.
  auto.
Qed.

Lemma nan_capacity_is_printed_as_nan_witness :
  printed_capacity (JObj nan_entries) "AUS-SA" "wind" = Ok (JFloat FNan)
  /\ exists z,
      (let* zones := facilities_loop zones_init nan_entries in
       dict_index zones "SA1") = Ok z
      /\ dict_get (capacity z) "wind" = Some DNaN.
Proof.
  split; [vm_compute; reflexivity|].
  eexists. split; [vm_compute; reflexivity|].
  refine (proj1 (nan_capacity_is_printed_as_nan nan_entries _ "SA1" "wind" _
                   nan_unit _ _ _ eq_refl eq_refl)).
  - vm_compute. reflexivity.
  - vm_compute. reflexivity.
  - vm_compute. auto.
Defined.

(** ** [sort_keys] only reorders *)

Lemma insert_item_perm kv l : Permutation (insert_item kv l) (kv :: l).
Proof.
  induction l as [|kv1 l IH]; simpl; auto.
  destruct (String.leb (fst kv) (fst kv1)); auto.
  rewrite IH. apply perm_swap.
Qed.

Lemma sorted_items_perm l : Permutation (sorted_items l) l.
Proof.
  induction l as [|kv l IH]; simpl; auto.
  rewrite insert_item_perm. now constructor.
Qed.

Lemma sorted_items_fixed l :
  sortedb (dict_keys l) = true -> sorted_items l = l.
Proof.
  unfold dict_keys. induction l as [|kv l IH]; simpl; auto.
  destruct l as [|kv1 l]; [reflexivity|].
  cbn [map]. intros H. apply andb_prop in H as [H1 H2].
  unfold sorted_items in *. cbn [fold_right] in *.
  rewrite (IH H2). cbn [insert_item]. now rewrite H1.
Qed.

Lemma map_insert_item (g : string * json -> string * json) kv l :
  (forall x, fst (g x) = fst x) ->
  map g (insert_item kv l) = insert_item (g kv) (map g l).
Proof.
  intros Hg. induction l as [|kv1 l IH]; simpl; auto.
  rewrite !Hg. destruct (String.leb (fst kv) (fst kv1)); simpl; auto.
  now rewrite IH.
Qed.

Lemma map_sorted_items (g : string * json -> string * json) l :
  (forall x, fst (g x) = fst x) ->
  map g (sorted_items l) = sorted_items (map g l).
Proof.
  intros Hg. induction l as [|kv l IH]; simpl; auto.
  now rewrite map_insert_item, IH.
Qed.

Lemma sort_keys_twice : forall j, sort_keys (sort_keys j) = sort_keys j.
Proof.
  induction j as [| | | | |l IH|its IH] using json_induction; auto.
  - simpl. f_equal. rewrite map_map. apply map_ext_in.
    rewrite Forall_forall in IH. auto.
  - simpl. f_equal.
    rewrite map_sorted_items by reflexivity. rewrite map_map. simpl.
    rewrite (sorted_items_fixed (sorted_items _))
      by apply sortedb_sorted_items.
    f_equal. apply map_ext_in. rewrite Forall_forall in IH.
    intros kv Hin. now rewrite (IH _ Hin).
Qed.

(** X12.  Sorting the keys only reorders: the members of a sorted object
    are a permutation of its members with their values sorted in turn, an
    array keeps its items in place, a document whose keys are already in
    order is returned as it is, and sorting twice equals sorting once. *)
Theorem sort_keys_only_reorders :
  (forall its,
      exists its',
        sort_keys (JObj its) = JObj its'
        /\ Permutation its'
             (map (fun kv => (fst kv, sort_keys (snd kv))) its))
  /\ (forall l, sort_keys (JArr l) = JArr (map sort_keys l))
  /\ (forall j, keys_sortedb j = true -> sort_keys j = j)
  /\ (forall j, sort_keys (sort_keys j) = sort_keys j).
Proof.
  split; [|split; [|split]].
  - intros its. eexists. split; [reflexivity|]. apply sorted_items_perm.
  - reflexivity.
  - induction j as [| | | | |l IH|its IH] using json_induction; auto.
    + simpl. intros H. f_equal. rewrite forallb_forall in H.
      rewrite Forall_forall in IH.
      rewrite <- (map_id l) at 2. apply map_ext_in. auto.
    + simpl. intros H. apply andb_prop in H as [H1 H2].
      rewrite forallb_forall in H2. rewrite Forall_forall in IH.
      assert (Hmap : map (fun kv => (fst kv, sort_keys (snd kv))) its = its).
      { rewrite <- (map_id its) at 2. apply map_ext_in.
        intros [k v] Hin. simpl. f_equal. apply (IH _ Hin). apply (H2 _ Hin). }
      rewrite Hmap. f_equal. now apply sorted_items_fixed.
  - apply sort_keys_twice.
Qed.

(** ** What a run prints and what it leaves in the cache *)

Lemma report_prints (json_loads : string -> res json)
    (json_dumps : json -> res string) text :
  (forall e, snd (report json_loads json_dumps text) = Raise e ->
             fst (report json_loads json_dumps text) = [])
  /\ (snd (report json_loads json_dumps text) = Ok tt ->
      exists facilities out,
        json_loads text = Ok facilities
        /\ aggregate facilities = Ok out
        /\ fst (report json_loads json_dumps text) =
           [Print HEADING; PrintJson (sort_keys (JObj out))]).
Proof.
  unfold report, load.
  destruct (json_loads text) as [facilities|e0] eqn:Hj; simpl.
  - destruct (json_dumps facilities) as [dumped|e1]; simpl.
    + destruct (aggregate facilities) as [out|e2] eqn:Ha; simpl.
      * split; [discriminate|]. intros _. exists facilities, out. auto.
      * split; [reflexivity|discriminate].
    + split; [reflexivity|discriminate].
  - split; [reflexivity|discriminate].
Qed.

Lemma fetch_printed (json_loads : string -> res json)
    (json_dumps : json -> res string) w :
  printed (fst (fetch json_loads json_dumps w)) =
  match http_response w, cache_write w with
  | Ok text, None => printed (fst (report json_loads json_dumps text))
  | _, _ => []
  end
  /\ snd (fetch json_loads json_dumps w) =
     match http_response w, cache_write w with
     | Ok text, None => snd (report json_loads json_dumps text)
     | Ok _, Some e => Raise e
     | Raise e, _ => Raise e
     end.
Proof.
  unfold fetch. destruct (http_response w) as [text|e]; simpl; auto.
  destruct (cache_write w); simpl; auto.
  now destruct (report json_loads json_dumps text).
Qed.

(** X13.  A run prints all or nothing: when it ends with an exception
    (cache, network, parsing, or any record of the registry) not a line
    has been printed; when it completes it has printed the heading and
    then one document, the six entries with sorted keys, and nothing
    else. *)
Theorem run_prints_all_or_nothing :
  forall (json_loads : string -> res json) (json_dumps : json -> res string)
         (w : World),
    (forall e, snd (main json_loads json_dumps w) = Raise e ->
               printed (fst (main json_loads json_dumps w)) = [])
    /\ (snd (main json_loads json_dumps w) = Ok tt ->
        exists out,
          printed (fst (main json_loads json_dumps w)) =
            [Print HEADING; PrintJson (sort_keys (JObj out))]
          /\ dict_keys out = output_codes).
Proof.
  intros json_loads json_dumps w.
  assert (Hrep : forall text,
             (forall e, snd (report json_loads json_dumps text) = Raise e ->
                        printed (fst (report json_loads json_dumps text)) = [])
             /\ (snd (report json_loads json_dumps text) = Ok tt ->
                 exists out,
                   printed (fst (report json_loads json_dumps text)) =
                     [Print HEADING; PrintJson (sort_keys (JObj out))]
                   /\ dict_keys out = output_codes)).
  { intros text.
    destruct (report_prints json_loads json_dumps text) as [H1 H2]. split.
    - intros e He. now rewrite (H1 e He).
    - intros Hok. destruct (H2 Hok) as (facilities & out & _ & Ha & ->).
      exists out. split; [reflexivity|].
      unfold aggregate in Ha.
      destruct (items facilities) as [entries|]; simpl in Ha; [|discriminate].
      destruct (facilities_loop zones_init entries) as [zones|] eqn:Hl;
        simpl in Ha; [|discriminate].
      eapply json_zones_loop_inv; [|exact Ha].
      eapply facilities_loop_ok; [apply zones_init_ok|exact Hl]. }
  assert (Hfetch :
            (forall e, snd (fetch json_loads json_dumps w) = Raise e ->
                       printed (fst (fetch json_loads json_dumps w)) = [])
            /\ (snd (fetch json_loads json_dumps w) = Ok tt ->
                exists out,
                  printed (fst (fetch json_loads json_dumps w)) =
                    [Print HEADING; PrintJson (sort_keys (JObj out))]
                  /\ dict_keys out = output_codes)).
  { destruct (fetch_printed json_loads json_dumps w) as [-> ->].
    destruct (http_response w) as [text|e0];
      [|split; [reflexivity|discriminate]].
    destruct (cache_write w) as [e1|]; [|apply Hrep].
    split; [reflexivity|discriminate]. }
  destruct (main_cases json_loads json_dumps w)
    as [(m & text & now & then_ & j & _ & _ & _ & _ & Hm)
       |[[_ Hm]|(e0 & _ & Hm)]]; rewrite Hm; auto.
  - destruct (String.eqb text ""); auto.
  - split; [reflexivity|discriminate].
Qed.

Lemma run_prints_all_or_nothing_witness :
  printed (fst (main loads_fixture dumps_fixture
                  (mkWorld None 0 utc (Raise RequestException) None))) = [].
Proof.
  exact (proj1 (run_prints_all_or_nothing loads_fixture dumps_fixture
                  (mkWorld None 0 utc (Raise RequestException) None))
           RequestException eq_refl).
Defined.

(** X14.  The response is cached before it is parsed: when the registry
    is fetched and [json.loads] raises on the text received, the run has
    still written that text to the cache file, and it ends with that
    exception.  A later run that finds this text in the cache sends the
    request again if the exception is [JSONDecodeError], however fresh the
    file, or once the file is seven days old; but while the file is fresh
    and the exception is another one, the later run ends with it and sends
    no request. *)
Theorem bad_response_is_cached_then_refetched :
  forall (json_loads : string -> res json) (json_dumps : json -> res string)
         (w : World) (text : string) (e : pyerr),
    stale_or_invalid_cache json_loads w ->
    http_response w = Ok text ->
    cache_write w = None ->
    json_loads text = Raise e ->
    main json_loads json_dumps w =
      ([HttpGet REGISTRY_URL; WriteFile CACHE_FILE text], Raise e)
    /\ forall w' mod_time now then_,
        cache_file w' = Some (mod_time, Ok text) ->
        local_times w' mod_time now then_ ->
        (e = JSONDecodeError \/ SEVEN_DAYS <= now - then_ ->
         http_gets (fst (main json_loads json_dumps w')) =
           [HttpGet REGISTRY_URL])
        /\ (e <> JSONDecodeError -> now - then_ < SEVEN_DAYS ->
            main json_loads json_dumps w' = ([], Raise e)).
Proof.
  intros json_loads json_dumps w text e Hs Hr Hw Hp. split.
  - destruct (main_cases json_loads json_dumps w)
      as [(m & x & now & then_ & j & Hc & Ht & Hage & Hj & _)
         |[[_ ->]|(e0 & He & _)]].
    + exfalso. refine (fresh_not_stale json_loads w _ Hs).
      exists m, x, now, then_, j. auto.
    + rewrite (fetch_writes _ _ _ _ Hr Hw). unfold report, load.
      now rewrite Hp.
    + exfalso. destruct He as (m' & c' & Hc' & H').
      destruct Hs as [Hs|(m & c & now & then_ & Hc & [Hn Ht] & H)];
        [congruence|].
      rewrite Hc in Hc'. injection Hc' as <- <-.
      destruct H' as [H'|[(now' & _ & H')
                         |(now' & then' & [Hn' Ht'] & Hage' & H')]];
        try congruence.
      rewrite Hn in Hn'. injection Hn' as <-.
      rewrite Ht in Ht'. injection Ht' as <-.
      destruct H as [H|(x & -> & Hj)]; [lia|].
      destruct H' as [H'|(x' & [= <-] & Hj' & Hne)]; [discriminate|].
      congruence.
  - intros w' mod_time now then_ Hc [Hn Ht]. split.
    + intros Hor.
      assert (Hst : stale_or_invalid_cache json_loads w').
      { right. exists mod_time, (Ok text), now, then_.
        split; [exact Hc|]. split; [split; assumption|].
        destruct Hor as [->|Hold]; [|now left].
        right. exists text. auto. }
      destruct (main_cases json_loads json_dumps w')
        as [(m & x & now' & then' & j & Hc' & Ht' & Hage & Hj & _)
           |[[_ ->]|(e0 & He & _)]].
      * exfalso. refine (fresh_not_stale json_loads w' _ Hst).
        exists m, x, now', then', j. auto.
      * apply fetch_http.
      * exfalso. destruct He as (m' & c' & Hc' & H').
        rewrite Hc in Hc'. injection Hc' as <- <-.
        destruct H' as [H'|[(now' & _ & H')
                           |(now' & then' & [Hn' Ht'] & Hage' & H')]];
          try congruence.
        rewrite Hn in Hn'. injection Hn' as <-.
        rewrite Ht in Ht'. injection Ht' as <-.
        destruct H' as [H'|(x' & [= <-] & Hj' & Hne)]; [discriminate|].
        destruct Hor as [->|Hold]; [congruence|lia].
    + intros Hne Hage. unfold main, read_cache.
      rewrite Hc, Hn. simpl. rewrite Ht. simpl.
      apply Z.ltb_lt in Hage. rewrite Hage. simpl. rewrite Hp.
      destruct e; try reflexivity. congruence.
Qed.

Lemma bad_response_is_cached_then_refetched_witness :
  main loads_fixture dumps_fixture (mkWorld None 0 utc (Ok "") None) =
  ([HttpGet REGISTRY_URL; WriteFile CACHE_FILE ""], Raise JSONDecodeError).
Proof.
  refine (proj1 (bad_response_is_cached_then_refetched
                   loads_fixture dumps_fixture
                   (mkWorld None 0 utc (Ok "") None) "" JSONDecodeError
                   _ eq_refl eq_refl eq_refl)).
  left. reflexivity.
Defined.

(** X24.  An exception in the cache block ends the run at once: when a
    time conversion fails, or the file is fresh and reading it fails, or
    [json.loads] raises anything but [JSONDecodeError] on its text, the
    run ends with that exception; it has sent no request, written nothing
    and printed nothing. *)
Theorem cache_check_failure_ends_run :
  forall (json_loads : string -> res json) (json_dumps : json -> res string)
         (w : World) (e : pyerr),
    cache_check_raises json_loads w e ->
    main json_loads json_dumps w = ([], Raise e).
Proof.
  intros json_loads json_dumps w e (m & c & Hc & H).
  unfold main, read_cache. rewrite Hc.
  destruct H as [H|[(now & Hn & H)|(now & then_ & [Hn Ht] & Hage & H)]].
  - now rewrite H.
  - rewrite Hn. simpl. now rewrite H.
  - rewrite Hn. simpl. rewrite Ht. simpl.
    apply Z.ltb_lt in Hage. rewrite Hage.
    destruct H as [->|(text & -> & Hj & Hne)]; [reflexivity|].
    simpl. rewrite Hj. destruct e; try reflexivity. congruence.
Qed.

Lemma cache_check_failure_ends_run_witness :
  main loads_deep dumps_fixture deep_world = ([], Raise RecursionError).
Proof.
  refine (cache_check_failure_ends_run loads_deep dumps_fixture deep_world
            RecursionError _).
  exists 0, (Ok deep_text). split; [reflexivity|].
  right. right. exists HOUR, 0. split; [split; reflexivity|].
  split; [reflexivity|]. right. exists deep_text.
  split; [reflexivity|]. split; [vm_compute; reflexivity|discriminate].
Defined.

(** ** Fuel types do not interfere *)

Lemma update_capacity_step_counted cap gen s k rc d total :
  get_fuel_tech (snd gen) = Ok (JStr s) ->
  normalized_fuel_tech s = Some k ->
  subscript (snd gen) "registered_capacity" = Ok rc ->
  Decimal_of rc = Ok d ->
  Decimal_add (capacity_get cap k) d = Ok total ->
  update_capacity_step cap gen = Ok (dict_set cap k total).
Proof.
  intros Hft Hn H1 H2 H3. unfold update_capacity_step. rewrite Hft. simpl.
  rewrite (normalized_fuel_tech_some _ _ Hn).
  rewrite (rename_gen_type_normalized _ _ Hn).
  rewrite H1. simpl. rewrite H2. simpl. now rewrite H3.
Qed.

Lemma update_capacity_loop_filter fuel gens : forall c1 c1' c2,
  update_capacity_loop c1 gens = Ok c1' ->
  capacity_get c1 fuel = capacity_get c2 fuel ->
  exists c2',
    update_capacity_loop c2 (filter (counted_under fuel) gens) = Ok c2'
    /\ capacity_get c2' fuel = capacity_get c1' fuel.
Proof.
  induction gens as [|gen gens IH]; intros c1 c1' c2; simpl.
  - intros [= <-] Heq. exists c2. auto.
  - destruct (update_capacity_step c1 gen) as [c3|] eqn:Hs; simpl;
      [|discriminate].
    intros Hl Heq.
    destruct (update_capacity_step_inv _ _ _ Hs)
      as [[-> Hno]|(s & k & rc & d & total & Hft & Hn & H1 & H2 & H3 & ->)].
    + rewrite Hno. eapply IH; eauto.
    + unfold counted_under at 1. rewrite Hft, Hn.
      destruct (String.eqb k fuel) eqn:E.
      * apply String.eqb_eq in E. subst k. simpl.
        rewrite Heq in H3.
        rewrite (update_capacity_step_counted _ _ _ _ _ _ _ Hft Hn H1 H2 H3).
        simpl. eapply IH; [exact Hl|].
        rewrite !capacity_get_set. now rewrite String.eqb_refl.
      * eapply IH; [exact Hl|].
        rewrite capacity_get_set, E. exact Heq.
Qed.

(** X15.  The total of a fuel type depends only on the DUIDs counted
    under it: dropping every other DUID from the data (those of other
    fuel types, the consumers, those without fuel_tech) leaves
    [update_capacity] successful and the total of that fuel unchanged. *)
Theorem fuel_total_ignores_other_units :
  forall (z z' : OpenNEMZone) (gens : list (string * json)) (fuel : string),
    update_capacity z (JObj gens) = Ok z' ->
    exists z'',
      update_capacity z (JObj (filter (counted_under fuel) gens)) = Ok z''
      /\ capacity_get (capacity z'') fuel = capacity_get (capacity z') fuel.
Proof.
  intros z z' gens fuel. unfold update_capacity. simpl.
  destruct (update_capacity_loop (capacity z) gens) as [cap'|] eqn:Hl; simpl;
    [|discriminate].
  intros [= <-].
  destruct (update_capacity_loop_filter fuel _ _ _ (capacity z) Hl eq_refl)
    as (c2 & Hc2 & Hget).
  rewrite Hc2. simpl. eexists. split; [reflexivity|]. exact Hget.
Qed.

Lemma fuel_total_ignores_other_units_witness :
  exists z'',
    update_capacity (OpenNEMZone_init "SA1")
      (JObj (filter (counted_under "gas")
               (map int_unit [("G1", "gas_ocgt", 120); ("W1", "wind", 30);
                              ("G2", "gas_ccgt", 480)]))) = Ok z''
    /\ capacity_get (capacity z'') "gas" = DFinite false 600 0.
Proof.
  destruct (fuel_total_ignores_other_units (OpenNEMZone_init "SA1") _
              (map int_unit [("G1", "gas_ocgt", 120); ("W1", "wind", 30);
                             ("G2", "gas_ccgt", 480)]) "gas" eq_refl)
    as (z'' & H1 & H2).
  exists z''. split; [exact H1|]. rewrite H2. vm_compute. reflexivity.
Defined.

(** ** [zone_map] *)

Lemma dict_set_absent {V : Type} (d : list (string * V)) k v :
  dict_get d k = None -> dict_set d k v = (d ++ [(k, v)])%list.
Proof.
  induction d as [|[k' v'] d IH]; simpl; auto.
  destruct (String.eqb k' k); [discriminate|]. intros H. now rewrite IH.
Qed.

Lemma dict_get_iff_In {V : Type} (d : list (string * V)) k v :
  NoDup (dict_keys d) -> (dict_get d k = Some v <-> In (k, v) d).
Proof.
  unfold dict_keys. induction d as [|[k' v'] d IH]; simpl.
  - intros _. split; [discriminate|tauto].
  - intros Hn. inversion Hn as [|? ? Hk' Hrest]; subst.
    destruct (String.eqb k' k) eqn:E.
    + apply String.eqb_eq in E. subst k'. split.
      * intros [= <-]. auto.
      * intros [[= <-]|Hin]; auto.
        exfalso. apply Hk'. apply in_map_iff. exists (k, v). auto.
    + apply String.eqb_neq in E. rewrite (IH Hrest). split; auto.
      intros [[= ? ?]|Hin]; [congruence|auto].
Qed.

Lemma invert_from (acc : list (string * string)) :
  forall d : list (string * string),
  NoDup (dict_keys acc ++ map snd d) ->
  fold_left (fun acc kv => dict_set acc (snd kv) (fst kv)) d acc =
  (acc ++ map (fun kv => (snd kv, fst kv)) d)%list.
Proof.
  intros d. revert acc. induction d as [|[k v] d IH]; intros acc Hn; simpl.
  - now rewrite app_nil_r.
  - simpl in Hn.
    assert (Hv : dict_get acc v = None).
    { apply dict_get_absent. intros Hin.
      apply NoDup_remove_2 in Hn. apply Hn. apply in_or_app. auto. }
    rewrite (dict_set_absent _ _ _ Hv). rewrite IH.
    + now rewrite <- app_assoc.
    + unfold dict_keys. rewrite map_app. simpl. rewrite <- app_assoc. simpl.
      exact Hn.
Qed.

(** X16.  Inverting a one-to-one dictionary is a round trip: [v] maps to
    [k] in the inverse exactly when [k] maps to [v] in the original.
    [zone_map] is the inverse of [PRICE_MAPPING_DICTIONARY], so a zone
    code and its output code determine each other. *)
Theorem zone_map_inverts_price_mapping :
  (forall d,
      NoDup (map fst d) -> NoDup (map snd d) ->
      forall k v, dict_get (invert d) v = Some k <-> dict_get d k = Some v)
  /\ zone_map = invert PRICE_MAPPING_DICTIONARY
  /\ (forall a z,
         dict_get zone_map z = Some a <->
         dict_get PRICE_MAPPING_DICTIONARY a = Some z).
Proof.
  assert (Hgen : forall d,
             NoDup (map fst d) -> NoDup (map snd d) ->
             forall k v, dict_get (invert d) v = Some k <->
                         dict_get d k = Some v).
  { intros d Hk Hv k v. unfold invert. rewrite invert_from by exact Hv.
    simpl. rewrite !dict_get_iff_In.
    - rewrite in_map_iff. split.
      + intros ([k' v'] & [= <- <-] & Hin). exact Hin.
      + intros Hin. exists (k, v). auto.
    - exact Hk.
    - unfold dict_keys. rewrite map_map. exact Hv. }
  split; [exact Hgen|]. split; [reflexivity|].
  intros a z. apply Hgen.
  - simpl. repeat constructor; simpl; intuition discriminate.
  - simpl. repeat constructor; simpl; intuition discriminate.
Qed.

Lemma zone_map_inverts_price_mapping_witness :
  dict_get zone_map "TAS1" = Some "AUS-TAS".
Proof.
  exact (proj2 (proj2 (proj2 zone_map_inverts_price_mapping)
                  "AUS-TAS" "TAS1") eq_refl).
Defined.

Lemma sort_keys_only_reorders_witness :
  sort_keys (JObj [("a", JInt 1); ("b", JObj [("c", JNull); ("d", JNull)])]) =
  JObj [("a", JInt 1); ("b", JObj [("c", JNull); ("d", JNull)])].
Proof.
  exact (proj1 (proj2 (proj2 sort_keys_only_reorders))
           (JObj [("a", JInt 1); ("b", JObj [("c", JNull); ("d", JNull)])])
           eq_refl).
Defined.

(** ** Digits and the context precision *)

Lemma ndigits_fuel_pos fuel c : 1 <= ndigits_fuel fuel c.
Proof.
  revert c. induction fuel as [|fuel IH]; intros c; cbn [ndigits_fuel];
    [lia|].
  destruct (c <? 10); [lia|]. specialize (IH (c / 10)). lia.
Qed.

Lemma ndigits_fuel_spec fuel : forall c,
  0 < c < 10 ^ Z.of_nat fuel ->
  10 ^ (ndigits_fuel fuel c - 1) <= c < 10 ^ ndigits_fuel fuel c.
Proof.
  induction fuel as [|fuel IH]; intros c Hc.
  - change (10 ^ Z.of_nat 0) with 1 in Hc. lia.
  - cbn [ndigits_fuel]. destruct (Z.ltb_spec c 10).
    + change (10 ^ (1 - 1)) with 1. change (10 ^ 1) with 10. lia.
    + rewrite Nat2Z.inj_succ, Z.pow_succ_r in Hc by lia.
      assert (Hq : 0 < c / 10 < 10 ^ Z.of_nat fuel).
      { split; [apply Z.div_str_pos; lia|].
        apply Z.div_lt_upper_bound; lia. }
      specialize (IH _ Hq).
      pose proof (ndigits_fuel_pos fuel (c / 10)) as Hn.
      set (n := ndigits_fuel fuel (c / 10)) in *.
      replace (1 + n - 1) with (Z.succ (n - 1)) by lia.
      replace (1 + n) with (Z.succ n) by lia.
      rewrite !Z.pow_succ_r by lia.
      pose proof (Z.div_mod c 10 ltac:(lia)) as Hdm.
      pose proof (Z.mod_pos_bound c 10 ltac:(lia)) as Hm.
      lia.
Qed.

(** [ndigits c] is the number of decimal digits of a positive [c]. *)
Lemma ndigits_spec c :
  0 < c -> 1 <= ndigits c /\ 10 ^ (ndigits c - 1) <= c < 10 ^ ndigits c.
Proof.
  intros Hc. unfold ndigits. split; [apply ndigits_fuel_pos|].
  apply ndigits_fuel_spec. split; [exact Hc|].
  rewrite Nat2Z.inj_succ, Z2Nat.id by apply Z.log2_nonneg.
  destruct (Z.log2_spec c Hc) as [_ Hlt].
  eapply Z.lt_le_trans; [exact Hlt|].
  apply Z.pow_le_mono_l. pose proof (Z.log2_nonneg c). lia.
Qed.

Lemma round_half_even_bounds c k :
  0 <= c -> 0 < k ->
  c / 10 ^ k <= round_half_even c k <= c / 10 ^ k + 1.
Proof.
  intros Hc Hk. unfold round_half_even.
  destruct ((2 * (c mod 10 ^ k) >? 10 ^ k)
            || (2 * (c mod 10 ^ k) =? 10 ^ k) && Z.odd (c / 10 ^ k)); lia.
Qed.

Lemma ndigits_le_28 c : 0 < c -> ndigits c <= 28 -> c < 10 ^ 28.
Proof.
  intros Hc Hn. destruct (ndigits_spec c Hc) as (H1 & _ & H2).
  eapply Z.lt_le_trans; [exact H2|]. apply Z.pow_le_mono_r; lia.
Qed.

Lemma ndigits_gt_28 c : 0 < c -> 28 < ndigits c -> 10 ^ 28 <= c.
Proof.
  intros Hc Hn. destruct (ndigits_spec c Hc) as (H1 & H2 & _).
  eapply Z.le_trans; [|exact H2]. apply Z.pow_le_mono_r; lia.
Qed.

Lemma quotient_below_28 c k :
  0 < c -> 0 < k -> ndigits c - 28 <= k -> c / 10 ^ k < 10 ^ 28.
Proof.
  intros Hc Hk Hn. destruct (ndigits_spec c Hc) as (H1 & _ & H2).
  assert (Hp : 0 < 10 ^ k) by (apply Z.pow_pos_nonneg; lia).
  apply Z.div_lt_upper_bound; [exact Hp|].
  eapply Z.lt_le_trans; [exact H2|].
  rewrite <- Z.pow_add_r by lia. apply Z.pow_le_mono_r; lia.
Qed.

(** What [_fix] returns is within the context: at most 28 digits and an
    exponent between [Etiny] and [Emax]. *)
Lemma fix_finite_in_context neg c e d :
  0 <= c -> fix_finite neg c e = Ok d ->
  exists c' e', d = DFinite neg c' e'
                /\ 0 <= c' < 10 ^ 28 /\ Etiny <= e' <= Emax.
Proof.
  intros Hc. unfold fix_finite.
  assert (HEt : Etiny = -1000026) by reflexivity.
  assert (HEm : Emax = 999999) by reflexivity.
  assert (HEp : Etop = 999972) by reflexivity.
  assert (Hpr : prec = 28) by reflexivity.
  assert (H28 : 0 < 10 ^ 28) by (apply Z.pow_pos_nonneg; lia).
  destruct (Z.eqb_spec c 0) as [->|Hne].
  { intros [= <-]. eexists _, _. split; [reflexivity|]. lia. }
  assert (Hpos : 0 < c) by lia.
  destruct (ndigits_spec c Hpos) as (Hn1 & _).
  rewrite Hpr. cbv zeta.
  destruct (Z.gtb_spec (ndigits c + e - 28) Etop); [discriminate|].
  set (x := Z.max (ndigits c + e - 28) Etiny).
  assert (Hx : ndigits c + e - 28 <= x /\ Etiny <= x <= Etop)
    by (unfold x; lia).
  destruct (Z.ltb_spec e x).
  - pose proof (round_half_even_bounds c (x - e) Hc ltac:(lia)) as Hr.
    pose proof (quotient_below_28 c (x - e) Hpos ltac:(lia) ltac:(lia)) as Hq.
    assert (Hq0 : 0 <= c / 10 ^ (x - e)).
    { apply Z.div_pos; [lia|]. apply Z.pow_pos_nonneg; lia. }
    set (r := round_half_even c (x - e)) in *. clearbody r.
    destruct (Z.gtb_spec (ndigits r) 28) as [Hg|Hg].
    + destruct (Z.gtb_spec (x + 1) Etop); [discriminate|].
      intros [= <-]. eexists _, _. split; [reflexivity|].
      assert (Hr0 : 0 < r).
      { destruct (Z.eq_dec r 0) as [E|]; [|lia].
        rewrite E in Hg. vm_compute in Hg. discriminate. }
      pose proof (ndigits_gt_28 r Hr0 Hg) as Hge.
      assert (Hr28 : r = 10 ^ 28) by lia.
      split; [|lia]. rewrite Hr28.
      split; [apply Z.div_pos; lia | apply Z.div_lt_upper_bound; lia].
    + destruct (Z.gtb_spec x Etop); [discriminate|].
      intros [= <-]. eexists _, _. split; [reflexivity|].
      split; [|lia].
      destruct (Z.eq_dec r 0) as [E|]; [lia|].
      split; [lia|]. apply ndigits_le_28; lia.
  - intros [= <-]. eexists _, _. split; [reflexivity|].
    split; [|lia]. split; [lia|]. apply ndigits_le_28; lia.
Qed.

Lemma Decimal_add_in_context a b t : Decimal_add a b = Ok t -> in_context t.
Proof.
  destruct a as [sa ca ea|sa| |], b as [sb cb eb|sb| |]; simpl;
    try discriminate; try (intros [= <-]; exact I).
  - assert (Hfix : forall neg c e, 0 <= c -> fix_finite neg c e = Ok t ->
                                   in_context t).
    { intros neg c e Hc Hf.
      destruct (fix_finite_in_context _ _ _ _ Hc Hf) as (c' & e' & -> & H).
      exact H. }
    destruct ((ca =? 0) && (cb =? 0)); [apply Hfix; lia|].
    match goal with |- context [if ?s =? 0 then _ else _] =>
      destruct (s =? 0); [apply Hfix; lia | apply Hfix; apply Z.abs_nonneg]
    end.
  - destruct (Bool.eqb sa sb); [intros [= <-]; exact I | discriminate].
Qed.

(** X17.  Every total a run stores fits the decimal context: a finite
    total has at most 28 significant digits (its coefficient is below
    10^28) and an exponent between -1000026 and 999999, however many
    digits the registered capacities have. *)
Theorem stored_totals_fit_the_context :
  forall (entries : list (string * json)) (zones : list (string * OpenNEMZone))
         (k fuel : string) (z : OpenNEMZone) (total : Decimal),
    facilities_loop zones_init entries = Ok zones ->
    dict_get zones k = Some z ->
    dict_get (capacity z) fuel = Some total ->
    in_context total.
Proof.
  intros entries zones k fuel z total Hl Hz Ht.
  assert (Hall : Forall (fun kz => Forall (fun kv => in_context (snd kv))
                                     (capacity (snd kz))) zones).
  { eapply (facilities_loop_Forall (fun kv => in_context (snd kv)));
      [|apply zones_init_Forall|exact Hl].
    intros s k0 d acc t _ Ha. simpl. eapply Decimal_add_in_context; eauto. }
  pose proof (dict_get_Forall _ _ _ _ Hall Hz) as Hzc. simpl in Hzc.
  apply (dict_get_Forall _ _ _ _ Hzc Ht).
Qed.

Lemma stored_totals_fit_the_context_witness :
  in_context (DFinite false 1250000000000000069388939039 (-28)).
Proof.
  refine (stored_totals_fit_the_context tie_entries _ "SA1" "wind" _ _ _ _ _).
  - vm_compute. reflexivity.
  - vm_compute. reflexivity.
  - vm_compute. reflexivity.
Defined.

(** ** [Decimal(float)] is exact *)

Lemma odd_gcd_2 x : Z.odd x = true -> Z.gcd x 2 = 1.
Proof.
  intros Ho. pose proof (Z.gcd_nonneg x 2) as Hn.
  pose proof (Z.gcd_divide_l x 2) as Hl.
  pose proof (Z.gcd_divide_r x 2) as Hr.
  assert (Hle : Z.gcd x 2 <= 2) by (apply Z.divide_pos_le; [lia|exact Hr]).
  assert (H0 : Z.gcd x 2 <> 0).
  { intros E. rewrite E in Hr. destruct Hr as [q Hq]. lia. }
  assert (H2 : Z.gcd x 2 <> 2).
  { intros E. rewrite E in Hl. destruct Hl as [q Hq].
    rewrite Hq, Z.odd_mul in Ho. simpl in Ho.
    now rewrite andb_false_r in Ho. }
  lia.
Qed.

Lemma divisor_of_power_of_2 (n : nat) : forall x,
  0 < x -> (x | 2 ^ Z.of_nat n) -> x = 2 ^ Z.log2 x.
Proof.
  induction n as [|n IH]; intros x Hx Hd.
  - change (2 ^ Z.of_nat 0) with 1 in Hd.
    apply Z.divide_1_r in Hd. destruct Hd as [->| ->]; [reflexivity|lia].
  - rewrite Nat2Z.inj_succ, Z.pow_succ_r in Hd by lia.
    destruct (Z.odd x) eqn:Ho.
    + apply IH; [exact Hx|].
      apply (Z.gauss x 2); [exact Hd|]. now apply odd_gcd_2.
    + assert (He : Z.even x = true) by (now rewrite <- Z.negb_odd, Ho).
      apply Z.even_spec in He. destruct He as [y ->].
      assert (Hy : 0 < y) by lia.
      apply Z.mul_divide_cancel_l in Hd; [|lia].
      rewrite Z.log2_double by exact Hy.
      rewrite Z.pow_succ_r by apply Z.log2_nonneg.
      now rewrite <- (IH y Hy Hd).
Qed.

(** X18.  [Decimal(float)] keeps the value: the decimal built from the
    float [m * 2^e] has coefficient [c] and exponent [x <= 0] with
    [c * 10^x = m * 2^e], stated without fractions; zero keeps its sign,
    infinities and NaN map to themselves. *)
Theorem Decimal_from_float_is_exact :
  (forall (neg : bool) (m e : Z),
      exists c x,
        Decimal_from_float (FFinite neg m e) = DFinite neg c x
        /\ x <= 0
        /\ c * 2 ^ Z.max 0 (- e) = m * 2 ^ Z.max 0 e * 10 ^ (- x))
  /\ (forall neg, Decimal_from_float (FInf neg) = DInf neg)
  /\ Decimal_from_float FNan = DNaN.
Proof.
  split; [|split; reflexivity].
  intros neg m e. unfold Decimal_from_float.
  destruct (Z.eqb_spec m 0) as [->|Hm]; simpl.
  { exists 0, 0. split; [reflexivity|]. split; [lia|]. lia. }
  destruct (Z.leb_spec 0 e) as [He|He].
  { exists (m * 2 ^ e), 0. split; [reflexivity|]. split; [lia|].
    rewrite Z.max_l, Z.max_r by lia. simpl. lia. }
  rewrite Z.max_r, Z.max_l by lia. rewrite Z.mul_1_r.
  set (d := 2 ^ (- e)).
  assert (Hd : 0 < d) by (apply Z.pow_pos_nonneg; lia).
  set (g := Z.gcd m d).
  assert (Hg : 0 < g).
  { pose proof (Z.gcd_nonneg m d). destruct (Z.eq_dec g 0) as [E|]; [|lia].
    apply Z.gcd_eq_0_r in E. lia. }
  destruct (Z.gcd_divide_l m d) as [a Ha].
  destruct (Z.gcd_divide_r m d) as [b Hb].
  fold g in Ha, Hb.
  assert (Hdiv_m : m / g = a) by (rewrite Ha; apply Z.div_mul; lia).
  assert (Hdiv_d : d / g = b) by (rewrite Hb; apply Z.div_mul; lia).
  assert (Hbpos : 0 < b) by nia.
  assert (Hb2 : b = 2 ^ Z.log2 b).
  { apply (divisor_of_power_of_2 (Z.to_nat (- e))); [exact Hbpos|].
    rewrite Z2Nat.id by lia. fold d. exists g. lia. }
  rewrite Hdiv_m, Hdiv_d.
  exists (a * 5 ^ Z.log2 b), (- Z.log2 b).
  split; [reflexivity|]. pose proof (Z.log2_nonneg b) as Hl.
  split; [lia|].
  rewrite Z.opp_involutive.
  replace 10 with (2 * 5) by reflexivity.
  rewrite Z.pow_mul_l, <- Hb2. rewrite Ha, Hb. ring.
Qed.

(** ** Whole numbers below 2^53 are printed as they are *)

Lemma div_half_even_exact q d : 0 < d -> div_half_even (q * d) d = q.
Proof.
  intros Hd. unfold div_half_even.
  rewrite Z.div_mul, Z.mod_mul by lia. rewrite Z.mul_0_r.
  destruct (Z.gtb_spec 0 d); [lia|].
  destruct (Z.eqb_spec 0 d); [lia|]. reflexivity.
Qed.

(** The float selected for a magnitude [n / d] that is a whole number [N]
    with [2^L <= N < 2^(L+1)] and [L <= 52], once the binary exponent of
    the quotient is known to be [L]. *)
Lemma round_to_double_body N L n d :
  0 < d -> n = N * d -> 0 <= L <= 52 -> 2 ^ L <= N < 2 ^ (L + 1) ->
  (let e := Z.max (L - 52) (-1074) in
   let m :=
     if 0 <=? e then div_half_even n (d * 2 ^ e)
     else div_half_even (n * 2 ^ (- e)) d in
   let '(m, e) := if m =? 2 ^ 53 then (2 ^ 52, e + 1) else (m, e) in
   if m =? 0 then FFinite false 0 0
   else if e >? 971 then FInf false else FFinite false m e) =
  FFinite false (N * 2 ^ (52 - L)) (L - 52).
Proof.
  intros Hd Hn HL HN. cbv zeta.
  rewrite Z.max_l by lia.
  assert (Hp : 0 < 2 ^ (52 - L)) by (apply Z.pow_pos_nonneg; lia).
  assert (Hm : (if 0 <=? L - 52 then div_half_even n (d * 2 ^ (L - 52))
                else div_half_even (n * 2 ^ (- (L - 52))) d) =
               N * 2 ^ (52 - L)).
  { destruct (Z.leb_spec 0 (L - 52)).
    - assert (L = 52) by lia. subst L. simpl. rewrite !Z.mul_1_r.
      subst n. now apply div_half_even_exact.
    - replace (- (L - 52)) with (52 - L) by lia. subst n.
      replace (N * d * 2 ^ (52 - L)) with (N * 2 ^ (52 - L) * d) by ring.
      now apply div_half_even_exact. }
  rewrite Hm.
  assert (Hlt : N * 2 ^ (52 - L) < 2 ^ 53).
  { replace 53 with ((L + 1) + (52 - L)) by lia.
    rewrite Z.pow_add_r by lia. nia. }
  assert (Hpos : 0 < N * 2 ^ (52 - L)).
  { assert (0 < 2 ^ L) by (apply Z.pow_pos_nonneg; lia). nia. }
  destruct (Z.eqb_spec (N * 2 ^ (52 - L)) (2 ^ 53)); [lia|].
  destruct (Z.eqb_spec (N * 2 ^ (52 - L)) 0); [lia|].
  destruct (Z.gtb_spec (L - 52) 971); [lia|]. reflexivity.
Qed.

Lemma log2_bounds N : 0 < N < 2 ^ 53 ->
  0 <= Z.log2 N <= 52 /\ 2 ^ Z.log2 N <= N < 2 ^ (Z.log2 N + 1).
Proof.
  intros [H0 H1]. split.
  - split; [apply Z.log2_nonneg|].
    assert (Z.log2 N < 53) by (apply Z.log2_lt_pow2; lia). lia.
  - destruct (Z.log2_spec N H0) as [Ha Hb].
    split; [exact Ha|]. now rewrite Z.add_1_r.
Qed.

Lemma round_to_double_int N :
  0 < N < 2 ^ 53 ->
  round_to_double false N 1 =
  FFinite false (N * 2 ^ (52 - Z.log2 N)) (Z.log2 N - 52).
Proof.
  intros HN. destruct (log2_bounds N HN) as [HL Hb].
  unfold round_to_double.
  destruct (Z.eqb_spec N 0); [lia|].
  change (Z.log2 1) with 0. rewrite Z.sub_0_r.
  destruct (Z.leb_spec 0 (Z.log2 N)); [|lia].
  rewrite Z.mul_1_l.
  destruct (Z.ltb_spec N (2 ^ Z.log2 N)); [lia|].
  apply (round_to_double_body N (Z.log2 N) N 1); auto; lia.
Qed.

Lemma round_to_double_int_cents N :
  0 < N < 2 ^ 53 ->
  round_to_double false (100 * N) 100 =
  FFinite false (N * 2 ^ (52 - Z.log2 N)) (Z.log2 N - 52).
Proof.
  intros HN. destruct (log2_bounds N HN) as [HL Hb].
  set (L := Z.log2 N) in *.
  assert (HpL : 0 < 2 ^ L) by (apply Z.pow_pos_nonneg; lia).
  assert (Hsucc : 2 ^ (L + 1) = 2 * 2 ^ L)
    by (rewrite Z.add_1_r, Z.pow_succ_r; lia).
  unfold round_to_double.
  destruct (Z.eqb_spec (100 * N) 0); [lia|].
  change (Z.log2 100) with 6.
  assert (Hcases : (Z.log2 (100 * N) = L + 6 /\ 100 * N < 128 * 2 ^ L)
                   \/ (Z.log2 (100 * N) = L + 7 /\ 128 * 2 ^ L <= 100 * N)).
  { destruct (Z_lt_le_dec (100 * N) (128 * 2 ^ L)) as [Hlt|Hge].
    - left. split; [|exact Hlt]. apply Z.log2_unique; [lia|].
      rewrite Z.pow_succ_r, Z.pow_add_r by lia.
      change (2 ^ 6) with 64. lia.
    - right. split; [|exact Hge]. apply Z.log2_unique; [lia|].
      rewrite Z.pow_succ_r, Z.pow_add_r by lia.
      change (2 ^ 7) with 128. lia. }
  destruct Hcases as [[-> Hlt]|[-> Hge]].
  - replace (L + 6 - 6) with L by lia.
    destruct (Z.leb_spec 0 L); [|lia].
    destruct (Z.ltb_spec (100 * N) (100 * 2 ^ L)); [lia|].
    apply (round_to_double_body N L (100 * N) 100); auto; lia.
  - replace (L + 7 - 6) with (L + 1) by lia.
    destruct (Z.leb_spec 0 (L + 1)); [|lia].
    destruct (Z.ltb_spec (100 * N) (100 * 2 ^ (L + 1))); [|lia].
    replace (L + 1 - 1) with L by lia.
    apply (round_to_double_body N L (100 * N) 100); auto; lia.
Qed.

Lemma int_round_trip N :
  0 <= N < 2 ^ 53 ->
  exists f, float_of_Decimal (DFinite false N 0) = Ok f
            /\ round2 f = f /\ float_is_int f N.
Proof.
  intros HN. unfold float_of_Decimal.
  change (0 <=? 0) with true. cbv iota.
  change (10 ^ 0) with 1. rewrite Z.mul_1_r.
  destruct (Z.eq_dec N 0) as [->|Hne].
  { exists (FFinite false 0 0). repeat split; try reflexivity; simpl; lia. }
  assert (Hpos : 0 < N < 2 ^ 53) by lia.
  destruct (log2_bounds N Hpos) as [HL Hb].
  eexists. split; [rewrite (round_to_double_int N Hpos); reflexivity|].
  set (L := Z.log2 N) in *.
  assert (Hp : 0 < 2 ^ (52 - L)) by (apply Z.pow_pos_nonneg; lia).
  split.
  - unfold round2.
    assert (Hh : (if 0 <=? L - 52 then 100 * (N * 2 ^ (52 - L)) * 2 ^ (L - 52)
                  else div_half_even (100 * (N * 2 ^ (52 - L)))
                         (2 ^ (- (L - 52)))) = 100 * N).
    { destruct (Z.leb_spec 0 (L - 52)).
      - replace (52 - L) with 0 by lia. replace (L - 52) with 0 by lia.
        change (2 ^ 0) with 1. lia.
      - replace (- (L - 52)) with (52 - L) by lia.
        replace (100 * (N * 2 ^ (52 - L))) with (100 * N * 2 ^ (52 - L))
          by ring.
        now apply div_half_even_exact. }
    rewrite Hh. now apply round_to_double_int_cents.
  - unfold float_is_int, signed. split; [lia|].
    replace (- (L - 52)) with (52 - L) by lia. reflexivity.
Qed.

Lemma dict_keys_get {V : Type} (d : list (string * V)) k :
  In k (dict_keys d) -> exists v, dict_get d k = Some v.
Proof.
  intros Hin. destruct (dict_get d k) as [v|] eqn:Hg; eauto.
  exfalso. now apply (dict_get_none_absent _ _ Hg).
Qed.

(** X19.  Whole-number capacities print exactly: for a fresh zone and
    DUIDs with non-negative integer capacities whose sum is below 2^53,
    [update_capacity] and [output] succeed and every value of the printed
    capacity object is the float that equals the integer sum of the units
    counted under that fuel type; neither the decimal additions, nor the
    conversion to float, nor the rounding to two places changes it. *)
Theorem integer_totals_print_exactly :
  forall (z : OpenNEMZone) (units : list (string * string * Z)),
    capacity z = [] ->
    In (zone z) zone_codes ->
    Forall (fun u => 0 <= snd u) units ->
    int_sum units < 2 ^ 53 ->
    exists z' o cap,
      update_capacity z (JObj (map int_unit units)) = Ok z'
      /\ output z' = Ok o
      /\ dict_get o "capacity" = Some (JObj cap)
      /\ forall k v,
          dict_get cap k = Some v ->
          exists f, v = JFloat f /\ float_is_int f (int_total k units).
Proof.
  intros z units Hz Hcode Hpos Hsum.
  assert (H53 : 2 ^ 53 < 10 ^ 28) by (vm_compute; reflexivity).
  unfold update_capacity. simpl. rewrite Hz.
  destruct (update_capacity_loop_int units [] (fun _ => 0) Hpos)
    as (cap' & Hl & Hget).
  { intros k. split; [reflexivity|lia]. }
  { intros k. lia. }
  rewrite Hl. simpl.
  set (z' := mkZone (zone z) (bounding_box z) cap').
  assert (Hq : quiet cap').
  { eapply update_capacity_loop_quiet; [|exact Hl]. constructor. }
  assert (Hn : NoDup (dict_keys cap')).
  { eapply update_capacity_loop_NoDup; [|exact Hl]. constructor. }
  destruct (output_total z') as [o Ho].
  { simpl. simpl in Hcode. tauto. }
  { exact Hq. }
  destruct (output_inv _ _ Ho) as (bb & cap & _ & Hc & ->).
  exists z', (("bounding_box", bb) :: ("capacity", JObj cap)
              :: ZONE_BOILERPLATE), cap.
  split; [reflexivity|]. split; [exact Ho|]. split; [reflexivity|].
  intros k v Hv. simpl in Hc.
  destruct (rounded_capacity_keys _ _ _ k Hc (dict_get_In _ _ _ Hv))
    as [[]|Hk].
  destruct (dict_keys_get _ _ Hk) as [total Ht].
  destruct (rounded_capacity_get _ _ _ _ _ Hn Hc Ht) as (f & Hf & Hg).
  assert (Htot : total = DFinite false (int_total k units) 0).
  { specialize (Hget k). unfold capacity_get in Hget. rewrite Ht in Hget.
    simpl in Hget. exact Hget. }
  subst total.
  pose proof (int_total_le k units Hpos) as Hle.
  destruct (int_round_trip (int_total k units) ltac:(lia))
    as (f0 & Hf0 & Hr & Hi).
  assert (f = f0) by congruence. subst f0.
  exists f. split; [|exact Hi]. rewrite Hr in Hg. congruence.
Qed.

Lemma integer_totals_print_exactly_witness :
  exists z' o cap,
    update_capacity (OpenNEMZone_init "SA1")
      (JObj (map int_unit [("G1", "gas_ocgt", 120); ("W1", "wind", 30);
                           ("G2", "gas_ccgt", 480); ("P1", "pumps", 75)])) =
    Ok z'
    /\ output z' = Ok o
    /\ dict_get o "capacity" = Some (JObj cap)
    /\ forall k v,
        dict_get cap k = Some v ->
        exists f, v = JFloat f
                  /\ float_is_int f
                       (int_total k [("G1", "gas_ocgt", 120); ("W1", "wind", 30);
                                     ("G2", "gas_ccgt", 480); ("P1", "pumps", 75)]).
Proof.
  apply (integer_totals_print_exactly (OpenNEMZone_init "SA1")
           [("G1", "gas_ocgt", 120); ("W1", "wind", 30);
            ("G2", "gas_ccgt", 480); ("P1", "pumps", 75)] eq_refl).
  - simpl. tauto.
  - repeat constructor; simpl; lia.
  - vm_compute. reflexivity.
Defined.

(** ** NaN coordinates and [__repr__] *)

Lemma expand_nan_bounds x a :
  numeric x = Some a -> expand nan nan x = Ok (nan, nan).
Proof.
  intros Ha. unfold expand, py_gt.
  assert (Hn : is_none x = false) by (destruct x; try discriminate; auto).
  rewrite Hn. simpl is_none. cbv iota.
  rewrite (py_lt_numeric x nan a FNan Ha eq_refl).
  assert (Hlt : float_lt a FNan = false) by (now destruct a).
  rewrite Hlt. cbn [bind].
  rewrite (py_lt_numeric nan x FNan a eq_refl Ha). reflexivity.
Qed.

Lemma expand_nan_coordinate lo hi :
  real lo = true -> real hi = true -> expand lo hi nan = Ok (lo, hi).
Proof.
  intros Hlo Hhi. unfold expand, py_gt. simpl is_none. cbv iota.
  rewrite (real_not_none _ Hlo), (real_not_none _ Hhi).
  destruct (real_numeric _ Hlo) as [a Ha].
  destruct (real_numeric _ Hhi) as [b Hb].
  rewrite (py_lt_numeric nan lo FNan a eq_refl Ha). cbn [bind float_lt].
  rewrite (py_lt_numeric hi nan b FNan Hb eq_refl).
  assert (Hlt : float_lt b FNan = false) by (now destruct b).
  now rewrite Hlt.
Qed.

(** X20.  NaN in [update_bounds]: a NaN latitude never moves numeric
    latitude bounds; but once the latitude bounds are NaN (a NaN latitude
    met an empty box) no number moves them any more.  The longitude is
    handled on its own in both cases. *)
Theorem update_bounds_and_nan :
  forall (z z' : OpenNEMZone) (w s e n loc lat lon : json),
    bounding_box z = box w s e n ->
    subscript loc "latitude" = Ok lat ->
    subscript loc "longitude" = Ok lon ->
    update_bounds z loc = Ok z' ->
    exists w' e',
      expand w e lon = Ok (w', e')
      /\ (lat = nan -> real s = true -> real n = true ->
          bounding_box z' = box w' s e' n)
      /\ (s = nan -> n = nan -> numeric lat <> None ->
          bounding_box z' = box w' nan e' nan)
      /\ (lat = nan -> s = JNull -> n = JNull ->
          bounding_box z' = box w' nan e' nan).
Proof.
  intros z z' w s e n loc lat lon Hb Hlat Hlon.
  unfold update_bounds. rewrite Hb. unfold box at 1. rewrite Hlat, Hlon.
  simpl.
  destruct (expand s n lat) as [[s' n']|] eqn:E1; simpl; [|discriminate].
  destruct (expand w e lon) as [[w' e']|] eqn:E2; simpl; [|discriminate].
  intros [= <-]. exists w', e'. split; [reflexivity|]. simpl.
  split; [|split].
  - intros -> Hs Hn. rewrite (expand_nan_coordinate _ _ Hs Hn) in E1.
    now injection E1 as <- <-.
  - intros -> -> Hnum. destruct (numeric lat) as [a|] eqn:Ha; [|congruence].
    rewrite (expand_nan_bounds _ _ Ha) in E1. now injection E1 as <- <-.
  - intros -> -> ->. vm_compute in E1. now injection E1 as <- <-.
Qed.

Lemma update_bounds_and_nan_witness :
  update_bounds (mkZone "NSW1" (box (JInt 150) nan (JInt 152) nan) [])
    (location (JInt (-30)) (JInt 151)) =
    Ok (mkZone "NSW1" (box (JInt 150) nan (JInt 152) nan) [])
  /\ bounding_box (mkZone "NSW1" (box (JInt 150) nan (JInt 152) nan) []) =
     box (JInt 150) nan (JInt 152) nan.
Proof.
  split; [reflexivity|].
  destruct (update_bounds_and_nan
              (mkZone "NSW1" (box (JInt 150) nan (JInt 152) nan) [])
              (mkZone "NSW1" (box (JInt 150) nan (JInt 152) nan) [])
              (JInt 150) nan (JInt 152) nan
              (location (JInt (-30)) (JInt 151)) (JInt (-30)) (JInt 151)
              eq_refl eq_refl eq_refl eq_refl)
    as (w' & e' & Hexp & _ & Hfrozen & _).
  vm_compute in Hexp. injection Hexp as <- <-.
  apply Hfrozen; [reflexivity | reflexivity | discriminate].
Defined.

Lemma string_length_append s t :
  String.length (s ++ t) = (String.length s + String.length t)%nat.
Proof. induction s as [|a s IH]; simpl; auto. Qed.

Lemma append_cancel_r t : forall s1 s2, s1 ++ t = s2 ++ t -> s1 = s2.
Proof.
  induction s1 as [|a s1 IH]; intros [|b s2] H; simpl in H; auto.
  - apply (f_equal String.length) in H. simpl in H.
    rewrite string_length_append in H. lia.
  - apply (f_equal String.length) in H. simpl in H.
    rewrite string_length_append in H. lia.
  - injection H as -> H. f_equal. now apply IH.
Qed.

(** X21.  [repr] of a zone object names its zone and nothing else: two
    zone objects have the same [repr] exactly when they have the same zone
    code, whatever their boxes and capacities. *)
Theorem repr_determines_zone :
  forall z1 z2 : OpenNEMZone,
    OpenNEMZone_repr z1 = OpenNEMZone_repr z2 <-> zone z1 = zone z2.
Proof.
  intros z1 z2. unfold OpenNEMZone_repr. split.
  - intros H. simpl in H. injection H as H.
    now apply append_cancel_r in H.
  - now intros ->.
Qed.

Lemma repr_determines_zone_witness :
  OpenNEMZone_repr (OpenNEMZone_init "SA1") =
  OpenNEMZone_repr (mkZone "SA1" empty_box [("gas", DFinite false 5 0)]).
Proof.
  exact (proj2 (repr_determines_zone (OpenNEMZone_init "SA1")
                  (mkZone "SA1" empty_box [("gas", DFinite false 5 0)]))
           eq_refl).
Defined.

(** ** A box that holds every location taken in *)

Lemma signed_mul s x y : signed s (x * y) = signed s x * y.
Proof. destruct s; simpl; lia. Qed.

(** Two finite floats can be compared at any common binary scale. *)
Lemma float_lt_scale E sa ma ea sb mb eb :
  E <= ea -> E <= eb ->
  float_lt (FFinite sa ma ea) (FFinite sb mb eb) =
  (signed sa ma * 2 ^ (ea - E) <? signed sb mb * 2 ^ (eb - E)).
Proof.
  intros Ha Hb. unfold float_lt. rewrite !signed_mul.
  set (e := Z.min ea eb).
  assert (He : E <= e /\ e <= ea /\ e <= eb) by (unfold e; lia).
  replace (ea - E) with ((ea - e) + (e - E)) by lia.
  replace (eb - E) with ((eb - e) + (e - E)) by lia.
  rewrite !Z.pow_add_r by lia.
  assert (Hq : 0 < 2 ^ (e - E)) by (apply Z.pow_pos_nonneg; lia).
  set (q := 2 ^ (e - E)) in *.
  set (x := signed sa ma * 2 ^ (ea - e)).
  set (y := signed sb mb * 2 ^ (eb - e)).
  rewrite !Z.mul_assoc. fold x y.
  destruct (Z.ltb_spec x y), (Z.ltb_spec (x * q) (y * q)); auto; nia.
Qed.

Lemma float_not_lt_trans a b c :
  a <> FNan -> b <> FNan -> c <> FNan ->
  float_lt a b = false -> float_lt b c = false -> float_lt a c = false.
Proof.
  intros Ha Hb Hc.
  destruct a as [sa ma ea|sa|], b as [sb mb eb|sb|], c as [sc mc ec|sc|];
    try congruence;
    try (simpl; destruct sa; destruct sb; destruct sc; simpl; congruence);
    try (simpl; destruct sa; destruct sb; simpl; congruence);
    try (simpl; destruct sa; destruct sc; simpl; congruence);
    try (simpl; destruct sb; destruct sc; simpl; congruence);
    try (simpl; destruct sb; simpl; congruence).
  set (E := Z.min ea (Z.min eb ec)).
  rewrite (float_lt_scale E sa ma ea sb mb eb) by (unfold E; lia).
  rewrite (float_lt_scale E sb mb eb sc mc ec) by (unfold E; lia).
  rewrite (float_lt_scale E sa ma ea sc mc ec) by (unfold E; lia).
  intros H1 H2. apply Z.ltb_ge in H1, H2. apply Z.ltb_ge. lia.
Qed.

Lemma real_value x : real x = true ->
  exists a, numeric x = Some a /\ a <> FNan.
Proof.
  unfold real. destruct (numeric x) as [[s m e|s|]|]; try discriminate;
    intros _; eexists; split; try reflexivity; discriminate.
Qed.

Lemma not_below_trans a b c :
  real a = true -> real b = true -> real c = true ->
  not_below a b -> not_below b c -> not_below a c.
Proof.
  intros Ra Rb Rc. unfold not_below.
  destruct (real_value _ Ra) as (x & Hx & Nx).
  destruct (real_value _ Rb) as (y & Hy & Ny).
  destruct (real_value _ Rc) as (z & Hz & Nz).
  rewrite (py_lt_numeric _ _ _ _ Hx Hy), (py_lt_numeric _ _ _ _ Hy Hz),
    (py_lt_numeric _ _ _ _ Hx Hz).
  intros [= H1] [= H2]. f_equal.
  exact (float_not_lt_trans x y z Nx Ny Nz H1 H2).
Qed.

Lemma bound_real x : bound x = true -> is_none x = false -> real x = true.
Proof. unfold bound. intros H Hn. now rewrite Hn in H. Qed.

Lemma real_bound x : real x = true -> bound x = true.
Proof. unfold bound. intros ->. apply orb_true_r. Qed.

Lemma update_bounds_all_real points : forall z w s e n,
  bounding_box z = box w s e n ->
  bound w = true -> bound s = true -> bound e = true -> bound n = true ->
  Forall (fun p => real (fst p) = true /\ real (snd p) = true) points ->
  exists z' w' s' e' n',
    update_bounds_all z (map (fun p => location (fst p) (snd p)) points) =
      Ok z'
    /\ bounding_box z' = box w' s' e' n'
    /\ zone z' = zone z /\ capacity z' = capacity z
    /\ Forall (inside w' s' e' n') points
    /\ (bound w' = true /\ bound s' = true /\ bound e' = true
        /\ bound n' = true)
    /\ (is_none s = false -> real s' = true /\ not_below s s')
    /\ (is_none n = false -> real n' = true /\ not_below n' n)
    /\ (is_none w = false -> real w' = true /\ not_below w w')
    /\ (is_none e = false -> real e' = true /\ not_below e' e).
Proof.
  induction points as [|[lat lon] points IH];
    intros z w s e n Hb Bw Bs Be Bn Hall.
  - exists z, w, s, e, n. simpl. repeat split; auto;
      try (apply bound_real; assumption);
      apply py_lt_scalar_irrefl; apply real_scalar; now apply bound_real.
  - inversion Hall as [|? ? [Rlat Rlon] Hrest]; subst. simpl in Rlat, Rlon.
    destruct (expand_real s n lat Bs Bn Rlat)
      as (s1 & n1 & E1 & Rs1 & Rn1 & C1 & C2 & G1 & G2).
    destruct (expand_real w e lon Bw Be Rlon)
      as (w1 & e1 & E2 & Rw1 & Re1 & C3 & C4 & G3 & G4).
    set (z1 := mkZone (zone z) (box w1 s1 e1 n1) (capacity z)).
    assert (Hstep : update_bounds z (location lat lon) = Ok z1).
    { unfold update_bounds. rewrite Hb. unfold box at 1. simpl.
      rewrite E1. simpl. rewrite E2. reflexivity. }
    destruct (IH z1 w1 s1 e1 n1 eq_refl (real_bound _ Rw1) (real_bound _ Rs1)
                (real_bound _ Re1) (real_bound _ Rn1) Hrest)
      as (z' & w' & s' & e' & n' & Hall' & Hb' & Hz' & Hc' & Hin & Hbd
          & Hs & Hn & Hw & He).
    destruct (Hs (real_not_none _ Rs1)) as [Rs' Ss].
    destruct (Hn (real_not_none _ Rn1)) as [Rn' Sn].
    destruct (Hw (real_not_none _ Rw1)) as [Rw' Sw].
    destruct (He (real_not_none _ Re1)) as [Re' Se].
    exists z', w', s', e', n'. cbn [map update_bounds_all fst snd].
    rewrite Hstep. cbn [bind].
    split; [exact Hall'|]. split; [exact Hb'|].
    split; [exact Hz'|]. split; [exact Hc'|].
    split.
    { constructor; [|exact Hin]. unfold inside. simpl. repeat split.
      - exact (not_below_trans lat s1 s' Rlat Rs1 Rs' C1 Ss).
      - exact (not_below_trans n' n1 lat Rn' Rn1 Rlat Sn C2).
      - exact (not_below_trans lon w1 w' Rlon Rw1 Rw' C3 Sw).
      - exact (not_below_trans e' e1 lon Re' Re1 Rlon Se C4). }
    split; [exact Hbd|].
    repeat split; auto.
    + exact (not_below_trans s s1 s' (bound_real _ Bs H) Rs1 Rs' (G1 H) Ss).
    + exact (not_below_trans n' n1 n Rn' Rn1 (bound_real _ Bn H) Sn (G2 H)).
    + exact (not_below_trans w w1 w' (bound_real _ Bw H) Rw1 Rw' (G3 H) Sw).
    + exact (not_below_trans e' e1 e Re' Re1 (bound_real _ Be H) Se (G4 H)).
Qed.

(** X22.  Taking in locations one after the other: starting from a box
    whose bounds are unset or numbers, [update_bounds] applied to any
    sequence of numeric locations (no NaN) never fails, and the final box
    holds every one of them; zone name and capacities are untouched. *)
Theorem update_bounds_holds_all_locations :
  forall (z : OpenNEMZone) (w s e n : json) (points : list (json * json)),
    bounding_box z = box w s e n ->
    bound w = true -> bound s = true -> bound e = true -> bound n = true ->
    Forall (fun p => real (fst p) = true /\ real (snd p) = true) points ->
    exists z' w' s' e' n',
      update_bounds_all z (map (fun p => location (fst p) (snd p)) points) =
        Ok z'
      /\ bounding_box z' = box w' s' e' n'
      /\ Forall (inside w' s' e' n') points
      /\ zone z' = zone z /\ capacity z' = capacity z.
Proof.
  intros z w s e n points Hb Bw Bs Be Bn Hall.
  destruct (update_bounds_all_real points z w s e n Hb Bw Bs Be Bn Hall)
    as (z' & w' & s' & e' & n' & H1 & H2 & H3 & H4 & H5 & _).
  exists z', w', s', e', n'. auto.
Qed.

Lemma update_bounds_holds_all_locations_witness :
  exists z' w' s' e' n',
    update_bounds_all (OpenNEMZone_init "NSW1")
      (map (fun p => location (fst p) (snd p))
           [(JInt (-30), JInt 152); (JFloat (FFinite true 71 (-1)), JInt 149);
            (JInt (-33), JFloat (FFinite false 1215 (-3)))]) = Ok z'
    /\ bounding_box z' = box w' s' e' n'
    /\ Forall (inside w' s' e' n')
         [(JInt (-30), JInt 152); (JFloat (FFinite true 71 (-1)), JInt 149);
          (JInt (-33), JFloat (FFinite false 1215 (-3)))].
Proof.
  destruct (update_bounds_holds_all_locations (OpenNEMZone_init "NSW1")
              JNull JNull JNull JNull
              [(JInt (-30), JInt 152); (JFloat (FFinite true 71 (-1)), JInt 149);
               (JInt (-33), JFloat (FFinite false 1215 (-3)))]
              eq_refl eq_refl eq_refl eq_refl eq_refl)
    as (z' & w' & s' & e' & n' & H1 & H2 & H3 & _).
  - repeat constructor.
  - exists z', w', s', e', n'. auto.
Defined.

(** ** A registry of whole numbers, end to end *)

Lemma facility_gens_whole k f :
  facility_gens k (snd (whole_entry f)) =
  if counts_in k f then map int_unit (wunits f) else [].
Proof. reflexivity. Qed.

Lemma zone_gens_whole k facs :
  zone_gens k (map whole_entry facs) = map int_unit (zone_units k facs).
Proof.
  unfold zone_gens, zone_units. induction facs as [|f facs IH]; auto.
  cbn [map flat_map]. rewrite IH, facility_gens_whole, map_app.
  now destruct (counts_in k f).
Qed.

Lemma int_sum_app a b : int_sum (a ++ b) = int_sum a + int_sum b.
Proof. induction a as [|u a IH]; simpl; lia. Qed.

Lemma int_sum_nonneg units :
  Forall (fun u => 0 <= snd u) units -> 0 <= int_sum units.
Proof. induction 1; simpl; lia. Qed.

Lemma zone_units_nonneg k facs :
  Forall whole_ok facs -> Forall (fun u => 0 <= snd u) (zone_units k facs).
Proof.
  unfold zone_units. induction 1 as [|f facs [_ Hf] _ IH]; simpl; auto.
  apply Forall_app. split; [|exact IH]. now destruct (counts_in k f).
Qed.

Lemma zone_units_le k facs :
  Forall whole_ok facs ->
  int_sum (zone_units k facs) <= int_sum (counted_units facs).
Proof.
  unfold zone_units, counted_units.
  induction 1 as [|f facs [_ Hf] _ IH]; cbn [flat_map]; [simpl; lia|].
  rewrite !int_sum_app. unfold counts_in in *.
  pose proof (int_sum_nonneg _ Hf) as Hpos.
  destruct (String.eqb (wstate f) "Commissioned"),
    (String.eqb (wregion f) k); cbn [andb];
    change (int_sum []) with 0; lia.
Qed.

Lemma facility_step_whole zones f :
  (String.eqb (wstate f) "Commissioned" = false ->
   facility_step zones (whole_entry f) = Ok zones)
  /\ (String.eqb (wstate f) "Commissioned" = true ->
      forall z cap',
        dict_get zones (wregion f) = Some z ->
        update_capacity_loop (capacity z) (map int_unit (wunits f)) =
          Ok cap' ->
        facility_step zones (whole_entry f) =
        Ok (dict_set zones (zone z)
              (mkZone (zone z) (bounding_box z) cap'))).
Proof.
  unfold facility_step, whole_entry, facility_of, facility_items.
  cbn [snd subscript dict_index dict_get String.eqb Ascii.eqb Bool.eqb bind
       is_commissioned].
  split.
  - intros ->. reflexivity.
  - intros -> z cap' Hz Hl.
    cbn [zones_index dict_index bind]. unfold dict_index. rewrite Hz.
    cbn [bind]. unfold update_from_facility_data.
    cbn [subscript dict_index dict_get String.eqb Ascii.eqb Bool.eqb bind].
    unfold update_capacity. cbn [items bind]. rewrite Hl. reflexivity.
Qed.

Lemma facilities_loop_whole facs :
  Forall whole_ok facs ->
  int_sum (counted_units facs) < 10 ^ 28 ->
  exists zones, facilities_loop zones_init (map whole_entry facs) = Ok zones.
Proof.
  induction facs as [|f pre IH] using rev_ind; intros Hok Hsum.
  - exists zones_init. reflexivity.
  - apply Forall_app in Hok as [Hpre Hf]. inversion Hf as [|? ? Hwf _]; subst.
    destruct Hwf as [Hreg Hunits].
    unfold counted_units in Hsum. rewrite flat_map_app in Hsum.
    fold (counted_units pre) in Hsum. rewrite int_sum_app in Hsum.
    cbn [flat_map] in Hsum. rewrite app_nil_r in Hsum.
    pose proof (int_sum_nonneg _ Hunits) as Hu0.
    destruct IH as [zones Hl]; [exact Hpre| |].
    { destruct (String.eqb (wstate f) "Commissioned");
        [|change (int_sum []) with 0 in Hsum]; lia. }
    rewrite map_app, facilities_loop_app, Hl. cbn [map facilities_loop bind].
    destruct (facility_step_whole zones f) as [Hidle Hcount].
    destruct (String.eqb (wstate f) "Commissioned") eqn:Hst.
    + apply String.eqb_eq in Hst. specialize (Hreg Hst).
      destruct (facilities_loop_ok _ _ _ zones_init_ok Hl) as [Hk Hown].
      destruct (dict_keys_get zones (wregion f)) as [z Hz];
        [now rewrite Hk|].
      destruct (facilities_loop_zone_gens _ _ _ _ _ (proj2 zones_init_ok) Hl
                  (zones_init_get _ Hreg)) as (z' & Hz' & Hloop).
      assert (z' = z) by congruence. subst z'.
      rewrite zone_gens_whole in Hloop. simpl in Hloop.
      destruct (update_capacity_loop_int
                  (zone_units (wregion f) pre ++ wunits f) [] (fun _ => 0))
        as (cap' & Hcap & _).
      { apply Forall_app. split; [now apply zone_units_nonneg|exact Hunits]. }
      { intros k. split; [reflexivity|lia]. }
      { intros k. rewrite int_sum_app.
        pose proof (zone_units_le (wregion f) pre Hpre). lia. }
      rewrite map_app, update_capacity_loop_app, Hloop in Hcap.
      cbn [bind] in Hcap.
      rewrite (Hcount eq_refl z cap' Hz Hcap). cbn [bind]. eauto.
    + rewrite (Hidle eq_refl). cbn [bind]. eauto.
Qed.

Lemma rounded_int_table cap out (T : string -> Z) :
  NoDup (dict_keys cap) ->
  (forall k, capacity_get cap k = DFinite false (T k) 0) ->
  (forall k, 0 <= T k < 2 ^ 53) ->
  rounded_capacity [] cap = Ok out ->
  forall k v, dict_get out k = Some v ->
              exists f, v = JFloat f /\ float_is_int f (T k).
Proof.
  intros Hn Hget HT Hc k v Hv.
  destruct (rounded_capacity_keys _ _ _ k Hc (dict_get_In _ _ _ Hv))
    as [[]|Hk].
  destruct (dict_keys_get _ _ Hk) as [total Ht].
  destruct (rounded_capacity_get _ _ _ _ _ Hn Hc Ht) as (f & Hf & Hg).
  assert (Htot : total = DFinite false (T k) 0).
  { specialize (Hget k). unfold capacity_get in Hget. now rewrite Ht in Hget. }
  subst total.
  destruct (int_round_trip (T k) (HT k)) as (f0 & Hf0 & Hr & Hi).
  assert (f = f0) by congruence. subst f0.
  exists f. split; [|exact Hi]. rewrite Hr in Hg. congruence.
Qed.

Lemma json_zones_loop_total zones :
  zones_ok zones ->
  Forall (fun kz => exists o, output (snd kz) = Ok o) zones ->
  exists out, json_zones_loop [] zones = Ok out.
Proof.
  intros [Hk Hf] Hout.
  destruct zones as [|[k1 z1] [|[k2 z2] [|[k3 z3] [|[k4 z4] [|[k5 z5]
    [|[k6 z6] [|? ?]]]]]]]; try discriminate Hk.
  injection Hk as -> -> -> -> -> ->.
  repeat match goal with
         | H : Forall _ (_ :: _) |- _ =>
             let H1 := fresh "Hz" in
             inversion H as [|? ? H1 ?]; subst; clear H; simpl in H1
         end.
  unfold json_zones_loop.
  repeat match goal with
         | H : zone _ = _ |- _ => rewrite H; clear H
         end.
  unfold dict_index. simpl.
  repeat match goal with
         | H : exists o, output _ = Ok o |- _ =>
             let o := fresh "o" in destruct H as [o ->]; simpl
         end.
  eauto.
Qed.

(** X23.  End to end on whole numbers: for a registry whose records have
    every key, whose commissioned facilities name one of the six zones and
    whose capacities are non-negative integers with a sum below 2^53, the
    aggregation completes, and for every zone each value of the printed
    capacity object is the float equal to the integer sum of the units of
    the commissioned facilities of that zone counted under that fuel
    type. *)
Theorem whole_number_registry_is_exact :
  forall facs : list whole_facility,
    Forall whole_ok facs ->
    int_sum (counted_units facs) < 2 ^ 53 ->
    exists zones out,
      facilities_loop zones_init (map whole_entry facs) = Ok zones
      /\ aggregate (JObj (map whole_entry facs)) = Ok out
      /\ Forall2 entry_of zones out
      /\ forall k z,
          dict_get zones k = Some z ->
          exists o cap,
            output z = Ok o
            /\ dict_get o "capacity" = Some (JObj cap)
            /\ forall fuel v,
                dict_get cap fuel = Some v ->
                exists f, v = JFloat f
                          /\ float_is_int f
                               (int_total fuel (zone_units k facs)).
Proof.
  intros facs Hok Hsum.
  assert (H53 : 2 ^ 53 < 10 ^ 28) by (vm_compute; reflexivity).
  destruct (facilities_loop_whole facs Hok ltac:(lia)) as [zones Hl].
  pose proof (facilities_loop_ok _ _ _ zones_init_ok Hl) as Hzok.
  pose proof (facilities_loop_quiet _ _ _ zones_init_quiet Hl) as Hq.
  destruct Hzok as [Hk Hown].
  assert (Houts : Forall (fun kz => exists o, output (snd kz) = Ok o) zones).
  { apply Forall_forall. intros kz Hin. unfold zones_quiet in Hq.
    rewrite Forall_forall in Hq, Hown.
    apply output_total; [|now apply Hq].
    rewrite (Hown _ Hin).
    assert (Hc : In (fst kz) zone_codes).
    { rewrite <- Hk. unfold dict_keys. now apply in_map. }
    simpl in Hc. simpl. tauto. }
  destruct (json_zones_loop_total zones (conj Hk Hown) Houts) as [out Hout].
  exists zones, out. split; [exact Hl|].
  split; [unfold aggregate; simpl; rewrite Hl; exact Hout|].
  split; [apply (json_zones_loop_inv _ _ (conj Hk Hown) Hout)|].
  intros k z Hz.
  assert (Hcode : In k zone_codes).
  { rewrite <- Hk. eapply dict_get_In; eauto. }
  destruct (facilities_loop_zone_gens _ _ _ _ _ (proj2 zones_init_ok) Hl
              (zones_init_get _ Hcode)) as (z' & Hz' & Hloop).
  assert (z' = z) by congruence. subst z'.
  rewrite zone_gens_whole in Hloop. simpl in Hloop.
  pose proof (zone_units_nonneg k facs Hok) as Hnn.
  pose proof (zone_units_le k facs Hok) as Hle.
  destruct (update_capacity_loop_int (zone_units k facs) [] (fun _ => 0) Hnn)
    as (cap' & Hcap & Hget).
  { intros fuel. split; [reflexivity|lia]. }
  { intros fuel. lia. }
  assert (cap' = capacity z) by congruence. subst cap'.
  assert (Hn : NoDup (dict_keys (capacity z))).
  { eapply update_capacity_loop_NoDup; [|exact Hloop]. constructor. }
  pose proof (dict_get_Forall _ _ _ _ Houts Hz) as [o Ho]. simpl in Ho.
  destruct (output_inv _ _ Ho) as (bb & cap & _ & Hc & ->).
  exists (("bounding_box", bb) :: ("capacity", JObj cap) :: ZONE_BOILERPLATE),
    cap.
  split; [exact Ho|]. split; [reflexivity|].
  apply (rounded_int_table (capacity z) cap
           (fun fuel => int_total fuel (zone_units k facs))); auto.
  intros fuel. pose proof (int_total_le fuel _ Hnn). lia.
Qed.

Lemma whole_number_registry_is_exact_witness :
  exists zones out,
    facilities_loop zones_init
      (map whole_entry
         [mkWhole "A" "Commissioned" "SA1"
                  [("G1", "gas_ocgt", 120); ("P1", "pumps", 75)];
          mkWhole "B" "Retired" "NT1" [("C1", "coal_black", 500)];
          mkWhole "C" "Commissioned" "SA1" [("G2", "gas_ccgt", 480)]]) =
      Ok zones
    /\ aggregate
         (JObj (map whole_entry
            [mkWhole "A" "Commissioned" "SA1"
                     [("G1", "gas_ocgt", 120); ("P1", "pumps", 75)];
             mkWhole "B" "Retired" "NT1" [("C1", "coal_black", 500)];
             mkWhole "C" "Commissioned" "SA1" [("G2", "gas_ccgt", 480)]])) =
       Ok out.
Proof.
  destruct (whole_number_registry_is_exact
              [mkWhole "A" "Commissioned" "SA1"
                       [("G1", "gas_ocgt", 120); ("P1", "pumps", 75)];
               mkWhole "B" "Retired" "NT1" [("C1", "coal_black", 500)];
               mkWhole "C" "Commissioned" "SA1" [("G2", "gas_ccgt", 480)]])
    as (zones & out & H1 & H2 & _).
  - repeat constructor; simpl; try lia; try discriminate; tauto.
  - vm_compute. reflexivity.
  - exists zones, out. auto.
Defined.
